(* ===================================================================== *)
(* Kqlmagic: the connection / query-execution lifecycle of kql_magic.py   *)
(*                                                                       *)
(* A shallow embedding of Kqlmagic.execute_query, Kqlmagic.execute, the   *)
(* cache commands and the module-level functions that read the process   *)
(* environment (src/azure/Kqlmagic/kql_magic.py).                        *)
(* Python dictionaries are finite maps, exceptions are a result type,     *)
(* the process-wide mutable objects (connection registry, connection      *)
(* objects and their options overlay, result sets, the shell namespace,   *)
(* the display surface) live in an explicit world that is threaded        *)
(* through a state-and-exception monad.  Collaborators whose code is not  *)
(* part of kql_magic.py (parser, engines, cache client, result set        *)
(* internals) are fields of an environment record.                        *)
(* ===================================================================== *)

From Stdlib Require Import ZArith String Ascii List Bool.
From stdpp Require Import gmap strings list fin_maps pretty.

Local Open Scope string_scope.
Local Open Scope Z_scope.

(* --------------------------------------------------------------------- *)
(* Python values that occur in the option bag                            *)
(* --------------------------------------------------------------------- *)

Module Py.

(** Scalar Python values: None, bool, int, str. *)
Inductive pyval : Type :=
| VNone
| VBool (b : bool)
| VInt (z : Z)
| VStr (s : string).

#[global] Instance pyval_eq_dec : EqDecision pyval.
Proof. solve_decision. Defined.

(** bool(v) *)
Definition truthy (v : pyval) : bool :=
  match v with
  | VNone => false
  | VBool b => b
  | VInt z => negb (z =? 0)
  | VStr s => negb (String.eqb s "")
  end.

(** [a and b] returns one of its operands. *)
Definition py_and (a b : pyval) : pyval := if truthy a then b else a.

(** [v is not None] *)
Definition is_not_none (v : pyval) : bool :=
  match v with VNone => false | _ => true end.

(** [a == b] on scalars: bool is a subtype of int, True == 1. *)
Definition int_of_bool (b : bool) : Z := if b then 1 else 0.

Definition py_eqb (a b : pyval) : bool :=
  match a, b with
  | VNone, VNone => true
  | VBool x, VBool y => Bool.eqb x y
  | VBool x, VInt y => int_of_bool x =? y
  | VInt x, VBool y => x =? int_of_bool y
  | VInt x, VInt y => x =? y
  | VStr x, VStr y => String.eqb x y
  | _, _ => false
  end.

(** Dictionary keys: hash and equality identify True with 1 and False
    with 0, so a key is None, an integer or a string. *)
Inductive pykey : Type :=
| KNone
| KInt (z : Z)
| KStr (s : string).

#[global] Instance pykey_eq_dec : EqDecision pykey.
Proof. solve_decision. Defined.

Definition pykey_enc (k : pykey) : unit + (Z + string) :=
  match k with
  | KNone => inl tt
  | KInt z => inr (inl z)
  | KStr s => inr (inr s)
  end.

Definition pykey_dec (x : unit + (Z + string)) : pykey :=
  match x with
  | inl _ => KNone
  | inr (inl z) => KInt z
  | inr (inr s) => KStr s
  end.

#[global] Instance pykey_countable : Countable pykey.
Proof.
  apply (inj_countable' pykey_enc pykey_dec).
  intros []; reflexivity.
Defined.

Definition key_of (v : pyval) : pykey :=
  match v with
  | VNone => KNone
  | VBool b => KInt (int_of_bool b)
  | VInt z => KInt z
  | VStr s => KStr s
  end.

(** The option bag [parsed["options"]]: option name to value. *)
Abbreviation options := (gmap string pyval).

(** [options.get(name)] *)
Definition opt_get (o : options) (name : string) : pyval :=
  default VNone (o !! name).

(** [options.get(name, dflt)] *)
Definition opt_get_d (o : options) (name : string) (dflt : pyval) : pyval :=
  default dflt (o !! name).

(** [msg.find(sub)]: lowest index of [sub] in [msg], or -1. *)
Definition find (msg sub : string) : Z :=
  match String.index 0 sub msg with
  | Some n => Z.of_nat n
  | None => -1
  end.

(** A character of a string is a code point below 256; text with other
    code points is outside the model. *)

(** [c.isspace()]: the whitespace removed by [str.strip()].  Below 256
    these are the code points 9-13, 28-32, 133 (next line) and 160
    (no-break space). *)
Definition is_space (c : ascii) : bool :=
  let n := nat_of_ascii c in
  ((9 <=? n)%nat && (n <=? 13)%nat) || ((28 <=? n)%nat && (n <=? 32)%nat)
  || (n =? 133)%nat || (n =? 160)%nat.

Fixpoint lstrip (s : string) : string :=
  match s with
  | EmptyString => EmptyString
  | String c s' => if is_space c then lstrip s' else s
  end.

Fixpoint rstrip (s : string) : string :=
  match s with
  | EmptyString => EmptyString
  | String c s' =>
      match rstrip s' with
      | EmptyString => if is_space c then EmptyString else String c EmptyString
      | r => String c r
      end
  end.

(** [s.strip()] *)
Definition strip (s : string) : string := rstrip (lstrip s).

(** [not s] for a string *)
Definition str_empty (s : string) : bool := String.eqb s "".

End Py.

Import Py.

(* --------------------------------------------------------------------- *)
(* The magic object: its configuration traits                            *)
(* --------------------------------------------------------------------- *)

(** The traits of class Kqlmagic that the modelled methods read or write. *)
Record Kqlmagic : Type := mkKqlmagic {
  short_errors : bool;
  auto_dataframe : bool;
  columns_to_local_vars : bool;
  feedback : bool;
  show_conn_info : pyval;          (* Enum ["list","current","None"], allow_none *)
  last_raw_result_var : string;
  enable_suppress_result : bool;
  validate_connection_string : bool;
  auto_popup_schema : bool;
  add_schema_to_help : bool;
  notebook_app : string;
  cache : option string;           (* Unicode, allow_none *)
  use_cache : option string        (* Unicode, allow_none *)
}.

(** The class-level defaults of the traits (kql_magic.py lines 58-126). *)
Definition default_magic : Kqlmagic :=
  {| short_errors := true;
     auto_dataframe := false;
     columns_to_local_vars := false;
     feedback := true;
     show_conn_info := VStr "current";
     last_raw_result_var := "_kql_raw_result_";
     enable_suppress_result := true;
     validate_connection_string := true;
     auto_popup_schema := true;
     add_schema_to_help := true;
     notebook_app := "jupyternotebook";
     cache := None;
     use_cache := None |}.

Definition set_cache (self : Kqlmagic) (v : option string) : Kqlmagic :=
  {| short_errors := short_errors self;
     auto_dataframe := auto_dataframe self;
     columns_to_local_vars := columns_to_local_vars self;
     feedback := feedback self;
     show_conn_info := show_conn_info self;
     last_raw_result_var := last_raw_result_var self;
     enable_suppress_result := enable_suppress_result self;
     validate_connection_string := validate_connection_string self;
     auto_popup_schema := auto_popup_schema self;
     add_schema_to_help := add_schema_to_help self;
     notebook_app := notebook_app self;
     cache := v;
     use_cache := use_cache self |}.

(** [str(x)] for an optional string attribute. *)
Definition str_opt (x : option string) : string :=
  match x with Some s => s | None => "None" end.

Section CacheCommands.

(** Constants.MAGIC_PACKAGE_NAME, declared in Kqlmagic.constants. *)
Variable MAGIC_PACKAGE_NAME : string.

(** [cache_name is not None and cache_name != "None" and len(cache_name) > 0] *)
Definition cache_name_given (cache_name : option string) : bool :=
  match cache_name with
  | None => false
  | Some s => negb (String.eqb s "None") && (0 <? Z.of_nat (String.length s))
  end.

(** Kqlmagic.execute_cache_command: new object state and status text. *)
Definition execute_cache_command (self : Kqlmagic) (cache_name : option string)
  : Kqlmagic * string :=
  if cache_name_given cache_name then
    let self' := set_cache self cache_name in
    (self', MAGIC_PACKAGE_NAME ++ " caching to folder **" ++ str_opt (cache self')
              ++ "** was enabled.")
  else
    (set_cache self None, MAGIC_PACKAGE_NAME ++ " caching was disabled.").

(** Kqlmagic.execute_use_cache_command: new object state and status text. *)
Definition execute_use_cache_command (self : Kqlmagic) (cache_name : option string)
  : Kqlmagic * string :=
  if cache_name_given cache_name then
    let self' := set_cache self cache_name in
    (self', MAGIC_PACKAGE_NAME ++ " cache in folder **" ++ str_opt (use_cache self')
              ++ "** was enabled.")
  else
    (set_cache self None, MAGIC_PACKAGE_NAME ++ " cache was disabled.").

End CacheCommands.

(* --------------------------------------------------------------------- *)
(* Exceptions, connections, result sets, the process-wide world          *)
(* --------------------------------------------------------------------- *)

(** The exception classes that the handlers of the modelled code tell
    apart: the two named by the first handler of execute_query (lines 524
    and 534), every other subclass of Exception, and what is raised
    without being an Exception (KeyboardInterrupt, SystemExit), which the
    handlers of lines 474, 549, 699 and 760, all of them
    [except Exception], let through. *)
Inductive exn_class : Type :=
| KqlEngineError
| ConnectionError
| OtherException
| BaseException.

Record exn : Type := mkExn {
  exn_cls : exn_class;
  exn_msg : string                 (* str(e) *)
}.

#[global] Instance exn_class_eq_dec : EqDecision exn_class.
Proof. solve_decision. Defined.

#[global] Instance exn_eq_dec : EqDecision exn.
Proof. solve_decision. Defined.

(** [isinstance(e, Exception)] *)
Definition is_exception (e : exn) : bool :=
  match exn_cls e with
  | BaseException => false
  | _ => true
  end.

(** The engine classes listed in _ENGINES. *)
Inductive engine_kind : Type :=
| KustoEngine
| AppinsightsEngine
| LoganalyticsEngine
| CacheEngine.

#[global] Instance engine_kind_eq_dec : EqDecision engine_kind.
Proof. solve_decision. Defined.

(** A connection object: its reference and the attributes execute_query
    reads through get_database(), get_cluster(), get_conn_name() and
    _URI_SCHEMA_NAME.  Its mutable [options] overlay lives in the world. *)
Record Conn : Type := mkConn {
  conn_ref : nat;
  conn_kind : engine_kind;
  conn_uri_schema_name : string;
  conn_cluster : string;
  conn_database : string;
  conn_name : string
}.

(** [isinstance(conn, KustoEngine)] *)
Definition is_kusto (c : Conn) : bool :=
  match conn_kind c with KustoEngine => true | _ => false end.

(** A raw backend response, as far as execute_query inspects it. *)
Record RawResult : Type := mkRaw {
  raw_tag : nat;
  raw_is_partial_table : bool;
  raw_records_count : nat
}.

Record DataFrame : Type := mkDataFrame { df_tag : nat }.

#[global] Instance RawResult_eq_dec : EqDecision RawResult.
Proof. solve_decision. Defined.

#[global] Instance DataFrame_eq_dec : EqDecision DataFrame.
Proof. solve_decision. Defined.

(** Objects bound in a namespace: scalars, result sets (by reference, they
    are mutable and shared), dataframes, and any other object. *)
Inductive nsval : Type :=
| NVal (v : pyval)
| NResultSet (ref : nat)
| NDataFrame (df : DataFrame)
| NObject (tag : nat).

#[global] Instance nsval_eq_dec : EqDecision nsval.
Proof. solve_decision. Defined.

Abbreviation namespace := (gmap pykey nsval).

(** The fields of a ResultSet that execute_query sets or reads. *)
Record ResultSet : Type := mkResultSet {
  rs_raw : RawResult;
  rs_parametrized_query : string;
  rs_fork_table_id : nat;
  rs_connection : option string;   (* metadata["connection"] *)
  rs_conn_info : list string;      (* metadata["conn_info"] *)
  rs_start_time : Z;               (* metadata["start_time"] *)
  rs_end_time : Z;                 (* metadata["end_time"] *)
  rs_feedback_info : list string;
  rs_suppress_result : bool;
  rs_display_info : bool
}.

Definition rs_set_raw (raw : RawResult) (r : ResultSet) : ResultSet :=
  mkResultSet raw (rs_parametrized_query r) (rs_fork_table_id r) (rs_connection r)
    (rs_conn_info r) (rs_start_time r) (rs_end_time r) (rs_feedback_info r)
    (rs_suppress_result r) (rs_display_info r).

Definition rs_set_conn_info (ci : list string) (r : ResultSet) : ResultSet :=
  mkResultSet (rs_raw r) (rs_parametrized_query r) (rs_fork_table_id r) (rs_connection r)
    ci (rs_start_time r) (rs_end_time r) (rs_feedback_info r)
    (rs_suppress_result r) (rs_display_info r).

Definition rs_set_times (t0 t1 : Z) (r : ResultSet) : ResultSet :=
  mkResultSet (rs_raw r) (rs_parametrized_query r) (rs_fork_table_id r) (rs_connection r)
    (rs_conn_info r) t0 t1 (rs_feedback_info r)
    (rs_suppress_result r) (rs_display_info r).

Definition rs_set_feedback (fb : list string) (r : ResultSet) : ResultSet :=
  mkResultSet (rs_raw r) (rs_parametrized_query r) (rs_fork_table_id r) (rs_connection r)
    (rs_conn_info r) (rs_start_time r) (rs_end_time r) fb
    (rs_suppress_result r) (rs_display_info r).

Definition rs_set_flags (suppress info : bool) (r : ResultSet) : ResultSet :=
  mkResultSet (rs_raw r) (rs_parametrized_query r) (rs_fork_table_id r) (rs_connection r)
    (rs_conn_info r) (rs_start_time r) (rs_end_time r) (rs_feedback_info r)
    suppress info.

(** What reaches the display surface and the collaborators, in order. *)
Inductive Event : Type :=
| EvDanger (msg : string)               (* Display.showDangerMessage *)
| EvInfo (msg : string)                 (* Display.showInfoMessage(str) *)
| EvConnInfo (msgs : list string)       (* Display.showInfoMessage(list), _show_connection_info *)
| EvWarning (var : pyval)               (* Display.showWarningMessage, partial results *)
| EvSuccess (info : list string)        (* Display.showSuccessMessage *)
| EvHelpFlush (loc : nsval)             (* Help_html.flush *)
| EvGetNotebookUrl                      (* display(Javascript(...)) *)
| EvGetConnection (cs : string)         (* Connection.get_connection *)
| EvValidate (conn : nat)               (* conn.validate *)
| EvSetValidationResult (conn : nat)    (* conn.set_validation_result(True) *)
| EvGetSchemaFilePath (conn : nat)      (* Database_html.get_schema_file_path *)
| EvPopupSchema (path : pyval) (conn : nat)     (* Database_html.popup_schema *)
| EvAddMenuItem (conn : nat) (name : string) (path : pyval) (* Help_html.add_menu_item *)
| EvExpand (query : string)             (* Parameterizer.expand *)
| EvExecute (conn : nat) (query : string) (* conn.execute *)
| EvExecuted (raw : RawResult)          (* conn.execute returned raw *)
| EvCacheSave (raw : RawResult)         (* CacheClient().save *)
| EvToDict (rs : nat) (d : gmap pykey nsval) (* saved_result.to_dict() returned d *)
| EvToDataframe (rs : nat)              (* saved_result.to_dataframe *)
| EvDataframe (rs : nat) (df : DataFrame) (* saved_result.to_dataframe() returned df *)
| EvForkResults (rs : nat).             (* _create_fork_results / _update_fork_results *)

#[global] Instance Event_eq_dec : EqDecision Event.
Proof. solve_decision. Defined.

(** Process-wide mutable state. *)
Record World : Type := mkWorld {
  w_conn_options : gmap nat (gmap string pyval); (* conn.options, by connection reference *)
  w_connections : list nat;                      (* Connection.connections *)
  w_results : gmap nat ResultSet;                (* ResultSet objects, by reference *)
  w_shell_ns : gmap pykey nsval;                 (* self.shell.user_ns *)
  w_showfiles_base_url : option string;          (* Help_html.showfiles_base_url *)
  w_trace : list Event                           (* oldest event first *)
}.

(** The invocation: world plus the local [connection_string], which the
    main block rebinds and the outer handler reads. *)
Record St : Type := mkSt {
  st_world : World;
  st_connection_string : string
}.

Definition w_emit (e : Event) (w : World) : World :=
  mkWorld (w_conn_options w) (w_connections w) (w_results w) (w_shell_ns w)
    (w_showfiles_base_url w) (w_trace w ++ [e]).

Definition w_set_conns (o : gmap nat (gmap string pyval)) (l : list nat) (w : World) : World :=
  mkWorld o l (w_results w) (w_shell_ns w) (w_showfiles_base_url w) (w_trace w).

Definition w_set_results (r : gmap nat ResultSet) (w : World) : World :=
  mkWorld (w_conn_options w) (w_connections w) r (w_shell_ns w)
    (w_showfiles_base_url w) (w_trace w).

Definition w_set_shell_ns (n : gmap pykey nsval) (w : World) : World :=
  mkWorld (w_conn_options w) (w_connections w) (w_results w) n
    (w_showfiles_base_url w) (w_trace w).

Definition w_set_base_url (u : option string) (w : World) : World :=
  mkWorld (w_conn_options w) (w_connections w) (w_results w) (w_shell_ns w)
    u (w_trace w).

(** [conn.options] *)
Definition conn_options_of (w : World) (c : nat) : gmap string pyval :=
  default ∅ (w_conn_options w !! c).

(** [conn.options.get(name)] *)
Definition conn_flag (w : World) (c : nat) (name : string) : pyval :=
  opt_get (conn_options_of w c) name.

(** [conn.options[name] = True] *)
Definition w_set_conn_flag (c : nat) (name : string) (w : World) : World :=
  w_set_conns (<[c := <[name := VBool true]> (conn_options_of w c)]> (w_conn_options w))
    (w_connections w) w.

(** [Connection.connections] as a condition *)
Definition has_connections (w : World) : bool :=
  match w_connections w with [] => false | _ => true end.

(** The parsed invocation, as far as execute_query reads it. *)
Record Parsed : Type := mkParsed {
  p_query : string;                (* parsed["query"] *)
  p_options : gmap string pyval;   (* parsed["options"] *)
  p_connection : string            (* parsed["connection"] *)
}.

(* --------------------------------------------------------------------- *)
(* Collaborators outside kql_magic.py                                    *)
(* --------------------------------------------------------------------- *)

(** Where CacheClient().save is asked to write. *)
Inductive save_target : Type :=
| SaveFilepath (v : pyval)         (* filepath=options.get("save_as") *)
| SaveFilefolder (v : pyval)       (* filefolder=options.get("save_to") *)
| SaveCache.                       (* neither: the cache folder *)

(** The collaborators of execute_query, each a function of the world at the
    moment of the call (so an answer may change from call to call); a call
    that can raise answers with [inl e]. *)
Record Env : Type := mkEnv {
  (* Connection.get_connection: the connection object, the registry and the
     options overlays after the call *)
  env_get_connection :
    World -> string -> namespace -> gmap string pyval ->
    exn + (Conn * list nat * gmap nat (gmap string pyval));
  (* conn.validate, with the options *)
  env_validate : World -> Conn -> gmap string pyval -> option exn;
  (* Database_html.get_schema_file_path for conn *)
  env_get_schema_file_path : World -> Conn -> gmap string pyval -> exn + pyval;
  (* Connection.get_connection_list_formatted() *)
  env_connection_list_formatted : World -> list string;
  (* Connection.get_current_connection_formatted() *)
  env_current_connection_formatted : World -> string;
  (* Help_html.flush: the value of showfiles_base_url afterwards *)
  env_help_flush : World -> nsval -> option string;
  (* Parameterizer(options.get("params_dict") or user_ns).expand(query) *)
  env_expand : World -> gmap string pyval -> namespace -> string -> exn + string;
  (* conn.execute on the expanded query *)
  env_execute : World -> Conn -> string -> namespace -> gmap string pyval -> exn + RawResult;
  (* CacheClient().save(...): the path written *)
  env_cache_save :
    World -> RawResult -> string -> string -> string -> save_target ->
    gmap string pyval -> exn + string;
  (* time.time() *)
  env_time : World -> Z;
  (* "Done ({:0>2}:{:06.3f}): {} records" for start, end, records_count *)
  env_done_message : Z -> Z -> nat -> string;
  (* saved_result.to_dict(): column name to column data *)
  env_to_dict : World -> nat -> namespace;
  (* saved_result.to_dataframe() *)
  env_to_dataframe : World -> nat -> exn + DataFrame;
  (* str(e) for the ValueError that the test [if df == saved_result] raises:
     a dataframe compares elementwise and the truth value of the outcome is
     ambiguous *)
  env_dataframe_eq : World -> DataFrame -> nat -> string;
  (* result_set.fork_result(i): the reference and the object it designates *)
  env_fork_result : World -> nat -> nat -> nat * ResultSet;
  (* saved_result._create_fork_results() / _update_fork_results() *)
  env_fork_results : World -> nat -> bool -> option exn
}.

(* --------------------------------------------------------------------- *)
(* State and exceptions                                                  *)
(* --------------------------------------------------------------------- *)

Inductive res (A : Type) : Type :=
| Ok (a : A)
| Raise (e : exn).

Arguments Ok {A} a.
Arguments Raise {A} e.

Definition M (A : Type) : Type := St -> res A * St.

Definition ret {A : Type} (a : A) : M A := fun s => (Ok a, s).

Definition bind {A B : Type} (m : M A) (k : A -> M B) : M B :=
  fun s => match m s with
           | (Ok a, s') => k a s'
           | (Raise e, s') => (Raise e, s')
           end.

Definition raise {A : Type} (e : exn) : M A := fun s => (Raise e, s).

(** [try: m  except Exception as e: h e]: what is not an Exception passes
    the handler by. *)
Definition try_except {A : Type} (m : M A) (h : exn -> M A) : M A :=
  fun s => match m s with
           | (Ok a, s') => (Ok a, s')
           | (Raise e, s') => if is_exception e then h e s' else (Raise e, s')
           end.

Definition get_world : M World := fun s => (Ok (st_world s), s).

Definition modify (f : World -> World) : M unit :=
  fun s => (Ok tt, mkSt (f (st_world s)) (st_connection_string s)).

Definition emit (e : Event) : M unit := modify (w_emit e).

Definition get_connection_string : M string :=
  fun s => (Ok (st_connection_string s), s).

Definition set_connection_string (cs : string) : M unit :=
  fun s => (Ok tt, mkSt (st_world s) cs).

(** A call to a collaborator that may raise. *)
Definition call {A : Type} (f : World -> exn + A) : M A :=
  fun s => match f (st_world s) with
           | inl e => (Raise e, s)
           | inr a => (Ok a, s)
           end.

(** A call to a collaborator that returns nothing and may raise. *)
Definition call_unit (f : World -> option exn) : M unit :=
  fun s => match f (st_world s) with
           | Some e => (Raise e, s)
           | None => (Ok tt, s)
           end.

Definition when (b : bool) (m : M unit) : M unit := if b then m else ret tt.

Declare Scope kql_scope.
Delimit Scope kql_scope with kql.
Notation "'let!' x ':=' m 'in' k" := (bind m (fun x => k))
  (at level 10, x name, m at level 100, k at level 200, only parsing) : kql_scope.
Notation "'run!' m 'in' k" := (bind m (fun _ => k))
  (at level 10, m at level 100, k at level 200, only parsing) : kql_scope.
Local Open Scope kql_scope.

(* --------------------------------------------------------------------- *)
(* Small string helpers used for feedback texts                          *)
(* --------------------------------------------------------------------- *)

(** [str(v)] *)
Definition py_str (v : pyval) : string :=
  match v with
  | VNone => "None"
  | VBool true => "True"
  | VBool false => "False"
  | VInt z => pretty z
  | VStr s => s
  end.

Fixpoint dirname_aux (s : string) : option string :=
  match s with
  | EmptyString => None
  | String c s' =>
      match dirname_aux s' with
      | Some d => Some (String c d)
      | None => if Ascii.eqb c "/"%char then Some EmptyString else None
      end
  end.

(** ["/".join(path.split("/")[:-1])] *)
Definition dirname (path : string) : string := default EmptyString (dirname_aux path).

(** [result is not None] *)
Definition result_is_not_none (r : nsval) : bool :=
  match r with NVal VNone => false | _ => true end.

(** [saved_result.feedback_info.append(msg)] *)
Definition append_feedback (ref : nat) (msg : string) : M unit :=
  modify (fun w =>
    w_set_results (alter (fun r => rs_set_feedback (rs_feedback_info r ++ [msg]) r) ref
                     (w_results w)) w).

(** [saved_result.feedback_info] *)
Definition feedback_of (w : World) (ref : nat) : list string :=
  match w_results w !! ref with
  | Some r => rs_feedback_info r
  | None => []
  end.

(** [self.shell.user_ns.update(d)] *)
Definition shell_update (d : namespace) : M unit :=
  modify (fun w => w_set_shell_ns (d ∪ w_shell_ns w) w).

(* --------------------------------------------------------------------- *)
(* Kqlmagic.execute_query and the methods it calls                       *)
(* --------------------------------------------------------------------- *)

Section Lifecycle.

Variable env : Env.
Variable self : Kqlmagic.

(** Kqlmagic._get_connection_info *)
Definition _get_connection_info (options : gmap string pyval) (w : World) : list string :=
  let mode := opt_get_d options "show_conn_info" (show_conn_info self) in
  if py_eqb mode (VStr "current") then env_connection_list_formatted env w
  else if py_eqb mode (VStr "list") then [env_current_connection_formatted env w]
  else [].

(** Kqlmagic._show_connection_info *)
Definition _show_connection_info (options : gmap string pyval) : M unit :=
  let! w := get_world in
  let msg := _get_connection_info options w in
  when (0 <? Z.of_nat (length msg)) (emit (EvConnInfo msg)).

(** Kqlmagic.submit_get_notebook_url *)
Definition submit_get_notebook_url : M unit :=
  when (negb (String.eqb (notebook_app self) "jupyterlab")) (emit EvGetNotebookUrl).

(** execute_query, lines 502-507 *)
Definition help_preamble (user_ns : namespace) : M unit :=
  let! w := get_world in
  match w_showfiles_base_url w with
  | Some _ => ret tt
  | None =>
      let window_location := default (NVal VNone) (user_ns !! KStr "NOTEBOOK_URL") in
      if result_is_not_none window_location then
        run! emit (EvHelpFlush window_location) in
        modify (fun w => w_set_base_url (env_help_flush env w window_location) w)
      else submit_get_notebook_url
  end.

(** The options with a like-named trait as fallback. *)
Definition opt_short_errors (options : gmap string pyval) : bool :=
  truthy (opt_get_d options "short_errors" (VBool (short_errors self))).

Definition opt_feedback (options : gmap string pyval) : bool :=
  truthy (opt_get_d options "feedback" (VBool (feedback self))).

Definition opt_auto_dataframe (options : gmap string pyval) : bool :=
  truthy (opt_get_d options "auto_dataframe" (VBool (auto_dataframe self))).

Definition opt_columns_to_local_vars (options : gmap string pyval) : bool :=
  truthy (opt_get_d options "columns_to_local_vars" (VBool (columns_to_local_vars self))).

Definition opt_validate_connection_string (options : gmap string pyval) : bool :=
  truthy (opt_get_d options "validate_connection_string"
            (VBool (validate_connection_string self))).

Definition opt_auto_popup_schema (options : gmap string pyval) : bool :=
  truthy (opt_get_d options "auto_popup_schema" (VBool (auto_popup_schema self))).

Definition opt_last_raw_result_var (options : gmap string pyval) : pyval :=
  opt_get_d options "last_raw_result_var" (VStr (last_raw_result_var self)).

(** [options.get("suppress_results", False) and
     options.get("enable_suppress_result", self.enable_suppress_result)] *)
Definition opt_suppress_results (options : gmap string pyval) : pyval :=
  py_and (opt_get_d options "suppress_results" (VBool false))
         (opt_get_d options "enable_suppress_result" (VBool (enable_suppress_result self))).

(** [Connection.get_connection(connection_string, user_ns, ..)] *)
Definition get_connection (cs : string) (user_ns : namespace)
    (options : gmap string pyval) : M Conn :=
  run! emit (EvGetConnection cs) in
  let! r := call (fun w => env_get_connection env w cs user_ns options) in
  let '(conn, registry, overlays) := r in
  run! modify (w_set_conns overlays registry) in
  ret conn.

(** [conn.validate(..); conn.set_validation_result(True)] *)
Definition validate (conn : Conn) (options : gmap string pyval) : M unit :=
  run! emit (EvValidate (conn_ref conn)) in
  run! call_unit (fun w => env_validate env w conn options) in
  emit (EvSetValidationResult (conn_ref conn)).

(** The test of line 551 on [msg = str(e)] and [conn]. *)
Definition retry_condition (msg : string) (conn : Conn) : bool :=
  (0 <? find msg "AADSTS50079")
  && (0 <? find msg "multi-factor authentication")
  && is_kusto conn.

(** The connection string built at line 562. *)
Definition code_connection_string (conn : Conn) : string :=
  (conn_uri_schema_name conn ++ "://code().cluster('" ++ conn_cluster conn
     ++ "').database('" ++ conn_database conn ++ "')")%string.

(** execute_query, lines 544-565: the connection to go on with. *)
Definition validate_connection (conn : Conn) (user_ns : namespace)
    (options : gmap string pyval) : M Conn :=
  let! w := get_world in
  if negb (truthy (conn_flag w (conn_ref conn) "validate_connection_string_done"))
     && opt_validate_connection_string options
  then
    let! retry_with_code :=
      try_except
        (run! validate conn options in ret false)
        (fun e =>
           if retry_condition (exn_msg e) conn
           then run! emit (EvDanger (exn_msg e)) in ret true
           else raise e) in
    if (retry_with_code : bool) then
      run! emit (EvInfo "replaced connection with code authentication") in
      let connection_string := code_connection_string conn in
      run! set_connection_string connection_string in
      let! conn' := get_connection connection_string user_ns options in
      run! validate conn' options in
      ret conn'
    else ret conn
  else ret conn.

(** [Database_html.get_schema_file_path(conn, ..)] *)
Definition get_schema_file_path (conn : Conn) (options : gmap string pyval) : M pyval :=
  run! emit (EvGetSchemaFilePath (conn_ref conn)) in
  call (fun w => env_get_schema_file_path env w conn options).

(** execute_query, lines 569-574: the popup; returns [schema_file_path]. *)
Definition popup_schema_step (conn : Conn) (options : gmap string pyval) : M pyval :=
  let! w := get_world in
  if truthy (opt_get options "popup_schema")
     || (negb (truthy (conn_flag w (conn_ref conn) "auto_popup_schema_done"))
         && opt_auto_popup_schema options)
  then
    let! p := get_schema_file_path conn options in
    run! emit (EvPopupSchema p (conn_ref conn)) in
    ret p
  else ret VNone.

(** execute_query, lines 577-580: the help-menu registration. *)
Definition help_menu_step (conn : Conn) (options : gmap string pyval)
    (schema_file_path : pyval) : M unit :=
  let! w := get_world in
  if negb (truthy (conn_flag w (conn_ref conn) "add_schema_to_help_done"))
     && truthy (opt_get options "add_schema_to_help")
  then
    let! p := (if truthy schema_file_path then ret schema_file_path
               else get_schema_file_path conn options) in
    run! emit (EvAddMenuItem (conn_ref conn) (conn_name conn) p) in
    modify (w_set_conn_flag (conn_ref conn) "add_schema_to_help_done")
  else ret tt.

(** execute_query, lines 569-580 *)
Definition schema_side_effects (conn : Conn) (options : gmap string pyval) : M unit :=
  let! schema_file_path := popup_schema_step conn options in
  run! modify (w_set_conn_flag (conn_ref conn) "auto_popup_schema_done") in
  help_menu_step conn options schema_file_path.

(** [CacheClient().save(raw_query_result, conn.get_database(),
     conn.get_cluster(), parametrized_query, ..)] *)
Definition cache_save (raw : RawResult) (conn : Conn) (query : string)
    (target : save_target) (options : gmap string pyval) : M string :=
  run! emit (EvCacheSave raw) in
  call (fun w => env_cache_save env w raw (conn_database conn) (conn_cluster conn)
                   query target options).

(** A fresh ResultSet, as built at lines 613-618. *)
Definition new_result_set (raw : RawResult) (parametrized_query : string)
    (conn : Conn) : ResultSet :=
  {| rs_raw := raw;
     rs_parametrized_query := parametrized_query;
     rs_fork_table_id := 0;
     rs_connection := Some (conn_name conn);
     rs_conn_info := [];
     rs_start_time := 0;
     rs_end_time := 0;
     rs_feedback_info := [];
     rs_suppress_result := false;
     rs_display_info := false |}.

Definition update_result (ref : nat) (f : ResultSet -> ResultSet) : M unit :=
  modify (fun w => w_set_results (alter f ref (w_results w)) w).

(** [result_set is None] *)
Definition is_top_level (result_set : option (nat * ResultSet)) : bool :=
  match result_set with None => true | Some _ => false end.

(** What lines 592-607 leave in the local variables. *)
Record QueryRun : Type := mkQueryRun {
  qr_start_time : Z;
  qr_end_time : Z;
  qr_parametrized_query : string;
  qr_raw_query_result : RawResult;
  qr_save_as_file_path : string
}.

(** execute_query, lines 592-607: expand, execute, save.  [result_set] is
    the reference of the result set being continued and the object it
    designates. *)
Definition run_query (user_ns : namespace) (result_set : option (nat * ResultSet))
    (options : gmap string pyval) (query : string) (conn : Conn) : M QueryRun :=
  let! w := get_world in
  let start_time := env_time env w in
  let! parametrized_query :=
    match result_set with
    | None =>
        run! emit (EvExpand query) in
        call (fun w => env_expand env w options user_ns query)
    | Some (_, rs) => ret (rs_parametrized_query rs)
    end in
  run! emit (EvExecute (conn_ref conn) parametrized_query) in
  let! raw_query_result :=
    call (fun w => env_execute env w conn parametrized_query user_ns options) in
  run! emit (EvExecuted raw_query_result) in
  let! w := get_world in
  let end_time := env_time env w in
  let! save_as_file_path :=
    if is_not_none (opt_get options "save_as")
    then cache_save raw_query_result conn parametrized_query
           (SaveFilepath (opt_get options "save_as")) options
    else ret EmptyString in
  let! save_as_file_path :=
    if is_not_none (opt_get options "save_to")
    then cache_save raw_query_result conn parametrized_query
           (SaveFilefolder (opt_get options "save_to")) options
    else ret save_as_file_path in
  ret (mkQueryRun start_time end_time parametrized_query raw_query_result
         save_as_file_path).

(** execute_query, lines 611-640: model the query results; returns
    [fork_table_id] and the reference [saved_result]. *)
Definition model_query_results (result_set : option (nat * ResultSet))
    (options : gmap string pyval) (suppress_results : pyval) (conn : Conn)
    (run : QueryRun) : M (nat * nat) :=
  let raw_query_result := qr_raw_query_result run in
  let! w := get_world in
  let '(fork_table_id, saved_result, obj) :=
    match result_set with
    | None =>
        (0%nat, fresh (dom (w_results w)),
         new_result_set raw_query_result (qr_parametrized_query run) conn)
    | Some (ref, rs) =>
        let '(ref0, rs0) := env_fork_result env w ref 0 in
        (rs_fork_table_id rs, ref0, rs_set_raw raw_query_result (rs_set_feedback [] rs0))
    end in
  run! modify (fun w => w_set_results (<[saved_result := obj]> (w_results w)) w) in
  let! connection_string := get_connection_string in
  let! w := get_world in
  run! update_result saved_result
         (rs_set_conn_info
            (if str_empty connection_string && has_connections w
             then _get_connection_info options w else [])) in
  run! update_result saved_result
         (rs_set_times (qr_start_time run) (qr_end_time run)) in
  run! when (raw_is_partial_table raw_query_result && negb (truthy suppress_results))
         (emit (EvWarning (opt_get options "last_raw_result_var"))) in
  run! when (opt_feedback options)
         (append_feedback saved_result
            (env_done_message env (qr_start_time run) (qr_end_time run)
               (raw_records_count raw_query_result))) in
  ret (fork_table_id, saved_result).

(** execute_query, lines 625 and 642-662: the value of [result] after the
    columns_to_local_vars, auto_dataframe and result_var steps. *)
Definition bind_result (result_set : option (nat * ResultSet))
    (options : gmap string pyval) (saved_result : nat) : M nsval :=
  let result := NResultSet saved_result in
  let! result :=
    if opt_columns_to_local_vars options then
      run! when (opt_feedback options)
             (append_feedback saved_result "Returning raw data to local variables") in
      let! w := get_world in
      let columns := env_to_dict env w saved_result in
      run! emit (EvToDict saved_result columns) in
      run! shell_update columns in
      ret (NVal VNone)
    else ret result in
  let! result :=
    if opt_auto_dataframe options then
      run! when (opt_feedback options)
             (append_feedback saved_result "Returning data converted to pandas dataframe") in
      run! emit (EvToDataframe saved_result) in
      let! df := call (fun w => env_to_dataframe env w saved_result) in
      run! emit (EvDataframe saved_result df) in
      ret (NDataFrame df)
    else ret result in
  if truthy (opt_get options "result_var") && is_top_level result_set
  then
    let result_var := opt_get options "result_var" in
    run! when (opt_feedback options)
           (append_feedback saved_result
              ("Returning data to local variable " ++ py_str result_var)%string) in
    run! shell_update
           {[ key_of result_var :=
                if result_is_not_none result then result else NResultSet saved_result ]} in
    ret (NVal VNone)
  else ret result.

(** execute_query, lines 664-690: cache, feedback on saved files, display
    flags, fork results. *)
Definition report_result (result_set : option (nat * ResultSet))
    (options : gmap string pyval) (suppress_results : pyval) (conn : Conn)
    (run : QueryRun) (saved_result : nat) (result : nsval) : M unit :=
  run! when (is_not_none (opt_get options "cache")
             && negb (py_eqb (opt_get options "cache") (opt_get options "use_cache")))
         (let! file_path :=
            cache_save (qr_raw_query_result run) conn (qr_parametrized_query run)
              SaveCache options in
          when (opt_feedback options)
            (append_feedback saved_result "query results cached")) in
  run! when (is_not_none (opt_get options "save_as") && opt_feedback options)
         (append_feedback saved_result
            ("query results saved as " ++ qr_save_as_file_path run)%string) in
  run! when (is_not_none (opt_get options "save_to") && opt_feedback options)
         (append_feedback saved_result
            ("query results saved to " ++ dirname (qr_save_as_file_path run))%string) in
  run! update_result saved_result (rs_set_flags false false) in
  run! when (result_is_not_none result)
         (if truthy suppress_results then
            update_result saved_result (rs_set_flags true false)
          else if opt_auto_dataframe options then
            let! w := get_world in
            emit (EvSuccess (feedback_of w saved_result))
          else update_result saved_result (rs_set_flags false true)) in
  run! emit (EvForkResults saved_result) in
  call_unit (fun w => env_fork_results env w saved_result (is_top_level result_set)).

(** execute_query, line 693: rebind the last-raw-result variable. *)
Definition bind_last_raw_result (options : gmap string pyval) (saved_result : nat) : M unit :=
  shell_update {[ key_of (opt_last_raw_result_var options) := NResultSet saved_result ]}.

(** The test [if result == saved_result] of line 695.  At that point
    [result] is None, the result set itself, or a dataframe; a dataframe
    compares elementwise and the test raises ValueError. *)
Definition result_is (w : World) (result : nsval) (saved_result : nat) : exn + bool :=
  match result with
  | NResultSet x => inr (Nat.eqb x saved_result)
  | NDataFrame df => inl (mkExn OtherException (env_dataframe_eq env w df saved_result))
  | _ => inr false
  end.

(** execute_query, lines 695-697 *)
Definition return_result (saved_result fork_table_id : nat) (result : nsval) : M nsval :=
  let! same := call (fun w => result_is w result saved_result) in
  if (same : bool) then
    let! w := get_world in
    ret (NResultSet (fst (env_fork_result env w saved_result fork_table_id)))
  else ret result.

(** execute_query, lines 592-697: submit the query and shape the result. *)
Definition submit_query (user_ns : namespace) (result_set : option (nat * ResultSet))
    (options : gmap string pyval) (suppress_results : pyval)
    (query : string) (conn : Conn) : M nsval :=
  let! run := run_query user_ns result_set options query conn in
  let! ids := model_query_results result_set options suppress_results conn run in
  let '(fork_table_id, saved_result) := ids in
  let! result := bind_result result_set options saved_result in
  run! report_result result_set options suppress_results conn run saved_result result in
  run! bind_last_raw_result options saved_result in
  return_result saved_result fork_table_id result.

(** execute_query, lines 567-697: what the second [try] does once the
    connection has passed lines 544-565. *)
Definition with_connection (user_ns : namespace) (result_set : option (nat * ResultSet))
    (options : gmap string pyval) (suppress_results : pyval)
    (query : string) (conn : Conn) : M nsval :=
  run! modify (w_set_conn_flag (conn_ref conn) "validate_connection_string_done") in
  run! schema_side_effects conn options in
  if str_empty query then
    (* If NO kql query, just return the current connection *)
    let! connection_string := get_connection_string in
    let! w := get_world in
    run! when (str_empty connection_string && has_connections w
               && negb (truthy suppress_results))
           (_show_connection_info options) in
    ret (NVal VNone)
  else submit_query user_ns result_set options suppress_results query conn.

(** execute_query, lines 543-697: the body of the second [try]. *)
Definition main_block (user_ns : namespace) (result_set : option (nat * ResultSet))
    (options : gmap string pyval) (suppress_results : pyval)
    (query : string) (conn : Conn) : M nsval :=
  let! conn := validate_connection conn user_ns options in
  with_connection user_ns result_set options suppress_results query conn.

(** execute_query, lines 699-708: the handler of the second [try]. *)
Definition outer_handler (options : gmap string pyval) (suppress_results : pyval)
    (e : exn) : M nsval :=
  let! connection_string := get_connection_string in
  let! w := get_world in
  run! when (str_empty connection_string && has_connections w
             && negb (truthy suppress_results))
         (_show_connection_info options) in
  if opt_short_errors options then
    run! emit (EvDanger (exn_msg e)) in
    ret (NVal VNone)
  else raise e.

(** execute_query, lines 517-540: the first [try]; [None] stands for the
    [return None] of its handlers. *)
Definition resolve_connection (connection_string : string) (user_ns : namespace)
    (options : gmap string pyval) : M (option Conn) :=
  try_except
    (let! conn := get_connection connection_string user_ns options in ret (Some conn))
    (fun e =>
       match exn_cls e with
       | KqlEngineError =>
           if opt_short_errors options then
             run! emit (EvDanger (exn_msg e)) in
             run! emit (EvInfo "to get help on connection string formats, run: %kql --help 'conn'") in
             ret None
           else raise e
       | ConnectionError =>
           if opt_short_errors options then
             run! emit (EvDanger (exn_msg e)) in
             run! _show_connection_info {[ "show_conn_info" := VStr "list" ]} in
             ret None
           else raise e
       | OtherException | BaseException => raise e
       end).

(** Kqlmagic.execute_query as a computation on the invocation state. *)
Definition execute_query_m (parsed : Parsed) (user_ns : namespace)
    (result_set : option (nat * ResultSet)) : M nsval :=
  run! help_preamble user_ns in
  let query := strip (p_query parsed) in
  let options := p_options parsed in
  let suppress_results := opt_suppress_results options in
  let connection_string := p_connection parsed in
  if str_empty query && str_empty connection_string then ret (NVal VNone)
  else
    let! c := resolve_connection connection_string user_ns options in
    match c with
    | None => ret (NVal VNone)
    | Some conn =>
        try_except
          (main_block user_ns result_set options suppress_results query conn)
          (outer_handler options suppress_results)
    end.

(** Kqlmagic.execute_query: the value returned or the exception raised, and
    the world afterwards. *)
Definition execute_query (parsed : Parsed) (user_ns : namespace)
    (result_set : option (nat * ResultSet)) (w : World) : res nsval * World :=
  let '(r, s) := execute_query_m parsed user_ns result_set (mkSt w (p_connection parsed)) in
  (r, st_world s).

End Lifecycle.

(* --------------------------------------------------------------------- *)
(* A process: successive top-level invocations on one world              *)
(* --------------------------------------------------------------------- *)

(** The world after one top-level invocation (whatever it returned). *)
Definition invoke (env : Env) (self : Kqlmagic) (w : World)
    (c : Parsed * namespace) : World :=
  snd (execute_query env self (fst c) (snd c) None w).

(** The world after a sequence of top-level invocations. *)
Definition run_session (env : Env) (self : Kqlmagic)
    (calls : list (Parsed * namespace)) (w : World) : World :=
  fold_left (invoke env self) calls w.

(** The events an invocation sequence added to the display and the
    collaborators. *)
Definition new_events (w w' : World) : list Event :=
  drop (length (w_trace w)) (w_trace w').

Definition is_validate (e : Event) : bool :=
  match e with EvValidate _ => true | _ => false end.

Definition is_conn_info (e : Event) : bool :=
  match e with EvConnInfo _ => true | _ => false end.

Definition is_get_connection (e : Event) : bool :=
  match e with EvGetConnection _ => true | _ => false end.

Definition is_popup_of (c : nat) (e : Event) : bool :=
  match e with EvPopupSchema _ c' => Nat.eqb c c' | _ => false end.

Definition is_add_menu_item_of (c : nat) (e : Event) : bool :=
  match e with EvAddMenuItem c' _ _ => Nat.eqb c c' | _ => false end.

Definition is_add_menu_item (e : Event) : bool :=
  match e with EvAddMenuItem _ _ _ => true | _ => false end.

Definition is_get_schema_file_path (e : Event) : bool :=
  match e with EvGetSchemaFilePath _ => true | _ => false end.

(** How many events of a trace satisfy [p]. *)
Definition count_events (p : Event -> bool) (l : list Event) : nat :=
  length (List.filter p l).

(* --------------------------------------------------------------------- *)
(* A concrete notebook session used to run the model                     *)
(* --------------------------------------------------------------------- *)

Module Scenario.

Definition kusto_conn : Conn :=
  mkConn 1 KustoEngine "kusto" "help" "Samples" "Samples@help".

Definition code_conn : Conn :=
  mkConn 2 KustoEngine "kusto" "help" "Samples" "Samples@help".

Definition appinsights_conn : Conn :=
  mkConn 3 AppinsightsEngine "appinsights" "appinsights" "myapp" "myapp@appinsights".

Definition raw : RawResult := mkRaw 7 false 3.

(** A backend that resolves every connection string (to the device-code
    connection when the string asks for code()), keeps the options overlay
    of the connections, and answers every query with [raw];
    [resolve_error] and [probe_error] make resolution, respectively the
    validation probe of the first connection, fail. *)
Definition backend (resolve_error probe_error : option exn) (first : Conn) : Env :=
  {| env_get_connection := fun w cs _ _ =>
       match resolve_error with
       | Some e => inl e
       | None =>
           if String.prefix "kusto://code()" cs
           then inr (code_conn, [conn_ref first; 2%nat], w_conn_options w)
           else inr (first, [conn_ref first], w_conn_options w)
       end;
     env_validate := fun _ c _ =>
       if Nat.eqb (conn_ref c) (conn_ref first) then probe_error else None;
     env_get_schema_file_path := fun _ _ _ => inr (VStr "schema.html");
     env_connection_list_formatted := fun _ => [" * Samples@help"];
     env_current_connection_formatted := fun _ => " * Samples@help";
     env_help_flush := fun _ _ => Some "http://localhost:8888";
     env_expand := fun _ _ _ q => inr q;
     env_execute := fun _ _ _ _ _ => inr raw;
     env_cache_save := fun _ _ _ _ _ _ _ => inr "folder/file";
     env_time := fun w => Z.of_nat (length (w_trace w));
     env_done_message := fun _ _ _ => "Done (00:00.001): 3 records";
     env_to_dict := fun _ _ => {[ KStr "StartTime" := NObject 11; KStr "State" := NObject 12 ]};
     env_to_dataframe := fun _ _ => inr (mkDataFrame 9);
     env_dataframe_eq := fun _ _ _ => "The truth value of a DataFrame is ambiguous.";
     env_fork_result := fun w r _ =>
       (r, default (new_result_set raw "" first) (w_results w !! r));
     env_fork_results := fun _ _ _ => None |}.

(** A backend on which everything succeeds. *)
Definition healthy : Env := backend None None kusto_conn.

(** A process with one registered connection and nothing displayed yet. *)
Definition one_connection : World :=
  mkWorld ∅ [1%nat] ∅ ∅ (Some "http://localhost:8888") [].


Definition invocation (query connection : string) (options : gmap string pyval) : Parsed :=
  mkParsed query options connection.

End Scenario.

(* --------------------------------------------------------------------- *)
(* Kqlmagic.execute: the magic's entry point                             *)
(* --------------------------------------------------------------------- *)

(** One element of Parser.parse's answer, as far as execute reads it.
    Lines 405-406 store the line and the cell in it; no modelled code
    reads them back. *)
Record ParsedCommand : Type := mkParsedCommand {
  pc_parsed : Parsed;              (* parsed["query"], ["options"], ["connection"] *)
  pc_command : option string;      (* parsed["command"].get("command") *)
  pc_param : pyval                 (* parsed["command"].get("param") *)
}.

(** What a command other than a query returns, as far as execute inspects
    it. *)
Record CommandResult : Type := mkCommandResult {
  cr_tag : nat;
  (* isinstance(result, UrlReference): result.name, result.url, result.button_text *)
  cr_url_reference : option (string * string * string);
  (* a callable result._repr_html_, and what calling it gives *)
  cr_repr_html : option (exn + option string)
}.

(** The values execute returns: what execute_query returned, or the result
    of a command. *)
Inductive xval : Type :=
| XValue (v : nsval)
| XCommand (r : CommandResult).

(** [None] *)
Definition XNone : xval := XValue (NVal VNone).

Definition xval_of (r : option CommandResult) : xval :=
  match r with Some c => XCommand c | None => XNone end.

(** Display.show_window(name, url, button_text, onclick_visibility="visible") *)
Record Window : Type := mkWindow {
  win_name : string;
  win_url : string;
  win_button_text : string
}.

(** The magic object, the process-wide state, and the windows that execute
    itself showed through Display.show_window (lines 456 and 471); what
    execute_query and its collaborators display is in the trace of the
    world. *)
Record Shell : Type := mkShell {
  sh_self : Kqlmagic;
  sh_world : World;
  sh_windows : list Window
}.

Definition sh_set_self (self : Kqlmagic) (sh : Shell) : Shell :=
  mkShell self (sh_world sh) (sh_windows sh).

Definition sh_set_world (w : World) (sh : Shell) : Shell :=
  mkShell (sh_self sh) w (sh_windows sh).

Definition sh_show_window (win : Window) (sh : Shell) : Shell :=
  mkShell (sh_self sh) (sh_world sh) (sh_windows sh ++ [win]).

(** The collaborators of execute outside kql_magic.py.  The palette traits
    of the magic object are written by no modelled method; the palette
    collaborators read them as defaults of the like-named options. *)
Record CommandEnv : Type := mkCommandEnv {
  (* Parser.parse("%s\n%s" % (line, cell), self, _ENGINES, user_ns) *)
  cenv_parse :
    World -> string -> string -> Kqlmagic -> namespace -> exn + list ParsedCommand;
  (* execute_version_command() *)
  cenv_version_command : World -> exn + option CommandResult;
  (* execute_usage_command() *)
  cenv_usage_command : World -> exn + option CommandResult;
  (* execute_faq_command() *)
  cenv_faq_command : World -> exn + option CommandResult;
  (* execute_help_command(param) *)
  cenv_help_command : World -> pyval -> exn + option CommandResult;
  (* MarkdownString(text) *)
  cenv_markdown_string : string -> CommandResult;
  (* Palette(palette_name=.., n_colors=.., desaturation=.., to_reverse=..) *)
  cenv_palette : World -> gmap string pyval -> exn + CommandResult;
  (* hashlib.sha1(bytes("#".join(properties), "utf-8")).hexdigest(), lines 433-439 *)
  cenv_palette_digest : gmap string pyval -> exn + string;
  (* Palettes(n_colors=.., desaturation=..) *)
  cenv_palettes : World -> gmap string pyval -> exn + CommandResult;
  (* the digest of lines 447-451 *)
  cenv_palettes_digest : gmap string pyval -> exn + string;
  (* Display._html_to_file_path(html_str, file_name, ..) *)
  cenv_html_to_file_path : World -> string -> string -> gmap string pyval -> exn + string
}.

(** [type(v).__name__] *)
Definition type_name (v : pyval) : string :=
  match v with
  | VNone => "NoneType"
  | VBool _ => "bool"
  | VInt _ => "int"
  | VStr _ => "str"
  end.

(** A cache command called with [param]: [len] of an int or a bool raises
    TypeError. *)
Definition call_cache_command (f : Kqlmagic -> option string -> Kqlmagic * string)
    (self : Kqlmagic) (param : pyval) : exn + (Kqlmagic * string) :=
  match param with
  | VNone => inr (f self None)
  | VStr s => inr (f self (Some s))
  | v => inl (mkExn OtherException ("object of type '" ++ type_name v ++ "' has no len()"))
  end.

(** Lines 440-441: [pname if not pname.startswith("[") else "custom"] *)
Definition palette_popup_text (pname : pyval) : exn + pyval :=
  match pname with
  | VStr s => inr (if String.prefix "[" s then VStr "custom" else VStr s)
  | v => inl (mkExn OtherException
                ("'" ++ type_name v ++ "' object has no attribute 'startswith'"))
  end.

(** What the branches of lines 414-454 leave in the local variables. *)
Record CommandRun : Type := mkCommandRun {
  run_result : option CommandResult;
  run_param : pyval;
  run_popup_text : pyval;
  run_self : Kqlmagic
}.

Section Execute.

Variable cenv : CommandEnv.
Variable env : Env.
Variable MAGIC_PACKAGE_NAME : string.

(** execute, lines 413-454: the command dispatch. *)
Definition run_command (self : Kqlmagic) (w : World) (options : gmap string pyval)
    (command : string) (param : pyval) : exn + CommandRun :=
  if String.eqb command "version" then
    match cenv_version_command cenv w with
    | inl e => inl e
    | inr r => inr (mkCommandRun r param VNone self)
    end
  else if String.eqb command "usage" then
    match cenv_usage_command cenv w with
    | inl e => inl e
    | inr r => inr (mkCommandRun r param VNone self)
    end
  else if String.eqb command "faq" then
    match cenv_faq_command cenv w with
    | inl e => inl e
    | inr r => inr (mkCommandRun r param VNone self)
    end
  else if String.eqb command "help" then
    match cenv_help_command cenv w param with
    | inl e => inl e
    | inr r => inr (mkCommandRun r param VNone self)
    end
  else if String.eqb command "cache" then
    match call_cache_command (execute_cache_command MAGIC_PACKAGE_NAME) self param with
    | inl e => inl e
    | inr (self', text) =>
        inr (mkCommandRun (Some (cenv_markdown_string cenv text)) param VNone self')
    end
  else if String.eqb command "use_cache" then
    match call_cache_command (execute_use_cache_command MAGIC_PACKAGE_NAME) self param with
    | inl e => inl e
    | inr (self', text) =>
        inr (mkCommandRun (Some (cenv_markdown_string cenv text)) param VNone self')
    end
  else if String.eqb command "palette" then
    match cenv_palette cenv w options with
    | inl e => inl e
    | inr r =>
        match cenv_palette_digest cenv options with
        | inl e => inl e
        | inr digest =>
            match palette_popup_text (opt_get options "palette_name") with
            | inl e => inl e
            | inr popup_text => inr (mkCommandRun (Some r) (VStr digest) popup_text self)
            end
        end
    end
  else if String.eqb command "palettes" then
    match cenv_palettes cenv w options with
    | inl e => inl e
    | inr r =>
        match cenv_palettes_digest cenv options with
        | inl e => inl e
        | inr digest => inr (mkCommandRun (Some r) (VStr digest) (VStr " ") self)
        end
    end
  else inl (mkExn OtherException ("command " ++ command ++ " not implemented")).

(** How one turn of the loop of lines 404-472 ends. *)
Inductive turn : Type :=
| Next (result : xval)             (* on to the next parsed query *)
| ReturnNone                       (* return None, lines 457 and 472 *)
| Failed (e : exn).                (* an exception leaves the loop *)

(** Lines 463-469: the window's file name and button text. *)
Definition popup_names (command : string) (param popup_text : pyval) : string * string :=
  let button_text := "popup " ++ command ++ " " in
  let file_name := command ++ "_command" in
  let '(file_name, popup_text) :=
    match param with
    | VStr p =>
        if (0 <? Z.of_nat (String.length p))
        then (file_name ++ "_" ++ p, if truthy popup_text then popup_text else VStr p)
        else (file_name, popup_text)
    | _ => (file_name, popup_text)
    end in
  (file_name,
   if truthy popup_text then button_text ++ " " ++ py_str popup_text else button_text).

(** execute, lines 455-472: show the result of a command in a window. *)
Definition present_command (options : gmap string pyval) (command : string)
    (run : CommandRun) (sh : Shell) : turn * Shell :=
  let keep := Next (xval_of (run_result run)) in
  match run_result run with
  | Some {| cr_url_reference := Some (name, url, button_text) |} =>
      (ReturnNone, sh_show_window (mkWindow name url button_text) sh)
  | _ =>
      if truthy (opt_get options "popup_window") then
        match run_result run with
        | Some {| cr_repr_html := Some (inl e) |} => (Failed e, sh)
        | Some {| cr_repr_html := Some (inr (Some html_str)) |} =>
            let '(file_name, button_text) :=
              popup_names command (run_param run) (run_popup_text run) in
            match cenv_html_to_file_path cenv (sh_world sh) html_str file_name options with
            | inl e => (Failed e, sh)
            | inr file_path =>
                (ReturnNone, sh_show_window (mkWindow file_name file_path button_text) sh)
            end
        | _ => (keep, sh)
        end
      else (keep, sh)
  end.

(** [command is None or command == "submit"] *)
Definition is_submit (command : option string) : bool :=
  match command with
  | None => true
  | Some c => String.eqb c "submit"
  end.

(** One turn of the loop of lines 404-472. *)
Definition execute_parsed (user_ns : namespace) (parsed : ParsedCommand) (sh : Shell)
  : turn * Shell :=
  let options := p_options (pc_parsed parsed) in
  match pc_command parsed with
  | Some command =>
      if String.eqb command "submit" then
        match execute_query env (sh_self sh) (pc_parsed parsed) user_ns None (sh_world sh) with
        | (Ok v, w) => (Next (XValue v), sh_set_world w sh)
        | (Raise e, w) => (Failed e, sh_set_world w sh)
        end
      else
        match run_command (sh_self sh) (sh_world sh) options command (pc_param parsed) with
        | inl e => (Failed e, sh)
        | inr run => present_command options command run (sh_set_self (run_self run) sh)
        end
  | None =>
      match execute_query env (sh_self sh) (pc_parsed parsed) user_ns None (sh_world sh) with
      | (Ok v, w) => (Next (XValue v), sh_set_world w sh)
      | (Raise e, w) => (Failed e, sh_set_world w sh)
      end
  end.

(** How the loop ends: [return], or an exception together with the
    loop variable [parsed] as the handler finds it. *)
Inductive loop_end : Type :=
| Returned (v : xval)
| Raised (e : exn) (parsed : ParsedCommand).

(** Lines 404-473: [for parsed in parsed_queries: ..] and [return result]. *)
Fixpoint execute_loop (user_ns : namespace) (parsed_queries : list ParsedCommand)
    (result : xval) (sh : Shell) : loop_end * Shell :=
  match parsed_queries with
  | [] => (Returned result, sh)
  | parsed :: rest =>
      match execute_parsed user_ns parsed sh with
      | (Next result', sh') => execute_loop user_ns rest result' sh'
      | (ReturnNone, sh') => (Returned XNone, sh')
      | (Failed e, sh') => (Raised e parsed, sh')
      end
  end.

(** Lines 474-482: the handler [except Exception as e], which what is not
    an Exception passes by.  [parsed] is None when Parser.parse raised (or
    returned no query); a parsed query is a non-empty dict, hence true. *)
Definition execute_handler (parsed : option ParsedCommand) (e : exn) (sh : Shell)
  : res xval * Shell :=
  if is_exception e then
    let short :=
      match parsed with
      | Some p => opt_short_errors (sh_self sh) (p_options (pc_parsed p))
      | None => short_errors (sh_self sh)
      end in
    if short
    then (Ok XNone, sh_set_world (w_emit (EvDanger (exn_msg e)) (sh_world sh)) sh)
    else (Raise e, sh)
  else (Raise e, sh).

(** Kqlmagic.execute: the value returned or the exception raised, and the
    state afterwards. *)
Definition execute (line cell : string) (local_ns : namespace) (sh : Shell)
  : res xval * Shell :=
  (* user_ns = self.shell.user_ns.copy(); user_ns.update(local_ns) *)
  let user_ns := local_ns ∪ w_shell_ns (sh_world sh) in
  match cenv_parse cenv (sh_world sh) line cell (sh_self sh) user_ns with
  | inl e => execute_handler None e sh
  | inr parsed_queries =>
      match execute_loop user_ns parsed_queries XNone sh with
      | (Returned v, sh') => (Ok v, sh')
      | (Raised e parsed, sh') => execute_handler (Some parsed) e sh'
      end
  end.

End Execute.

(* --------------------------------------------------------------------- *)
(* Module-level functions: settings read from the process environment    *)
(* --------------------------------------------------------------------- *)

(** Letters below code point 256: str.lower() moves A-Z and the code
    points 192-214 and 216-222 up by 32, str.upper() moves a-z and the code
    points 224-246 and 248-254 down by 32. *)

Definition is_upper (c : ascii) : bool :=
  let n := nat_of_ascii c in
  ((65 <=? n)%nat && (n <=? 90)%nat)
  || ((192 <=? n)%nat && (n <=? 222)%nat && negb (n =? 215)%nat).

Definition is_lower (c : ascii) : bool :=
  let n := nat_of_ascii c in
  ((97 <=? n)%nat && (n <=? 122)%nat)
  || ((224 <=? n)%nat && (n <=? 254)%nat && negb (n =? 247)%nat).

Definition lower_char (c : ascii) : ascii :=
  if is_upper c then ascii_of_nat (nat_of_ascii c + 32) else c.

Definition upper_char (c : ascii) : ascii :=
  if is_lower c then ascii_of_nat (nat_of_ascii c - 32) else c.

Fixpoint map_string (f : ascii -> ascii) (s : string) : string :=
  match s with
  | EmptyString => EmptyString
  | String c s' => String (f c) (map_string f s')
  end.

(** [s.lower()] *)
Definition lower (s : string) : string := map_string lower_char s.

(** [s.upper()]: the sharp s (223) becomes SS.  The upper case of the micro
    sign (181) and of the y with diaeresis (255) lies beyond code point
    255: text that holds them is outside the model. *)
Fixpoint upper (s : string) : string :=
  match s with
  | EmptyString => EmptyString
  | String c s' =>
      if (nat_of_ascii c =? 223)%nat then String "S" (String "S" (upper s'))
      else String (upper_char c) (upper s')
  end.

(** [s.replace(c, "")] for a one-character [c] *)
Fixpoint remove_char (c : ascii) (s : string) : string :=
  match s with
  | EmptyString => EmptyString
  | String x s' => if Ascii.eqb x c then remove_char c s' else String x (remove_char c s')
  end.

(** [s[:-1]] *)
Fixpoint drop_last (s : string) : string :=
  match s with
  | EmptyString => EmptyString
  | String c EmptyString => EmptyString
  | String c s' => String c (drop_last s')
  end.

(** [s[1:-1]] *)
Definition unwrap (s : string) : string :=
  match s with
  | EmptyString => EmptyString
  | String _ s' => drop_last s'
  end.

Definition squote : ascii := "'"%char.
Definition dquote : ascii := "034"%char.

(** [s] starts with a single or a double quote (lines 722, 742, 751). *)
Definition quoted (s : string) : bool :=
  match s with
  | EmptyString => false
  | String c _ => Ascii.eqb c squote || Ascii.eqb c dquote
  end.

(** [s.strip(chars)] where [chars] are the two quote characters *)
Fixpoint lstrip_quotes (s : string) : string :=
  match s with
  | EmptyString => EmptyString
  | String c s' => if Ascii.eqb c squote || Ascii.eqb c dquote then lstrip_quotes s' else s
  end.

Fixpoint rstrip_quotes (s : string) : string :=
  match s with
  | EmptyString => EmptyString
  | String c s' =>
      match rstrip_quotes s' with
      | EmptyString =>
          if Ascii.eqb c squote || Ascii.eqb c dquote then EmptyString
          else String c EmptyString
      | r => String c r
      end
  end.

Definition strip_quotes (s : string) : string := rstrip_quotes (lstrip_quotes s).

(** [s.split(sep)] for a one-character [sep] *)
Fixpoint split_on (sep : ascii) (s : string) : list string :=
  match s with
  | EmptyString => [EmptyString]
  | String c s' =>
      if Ascii.eqb c sep then EmptyString :: split_on sep s'
      else match split_on sep s' with
           | piece :: pieces => String c piece :: pieces
           | [] => [String c EmptyString]
           end
  end.

(** [ip.run_line_magic("config", line)] for each line in turn, up to the
    first one that raises: the exception, if any, and the lines issued. *)
Fixpoint run_config (ip : list string -> string -> option exn) (lines : list string)
    (issued : list string) : option exn * list string :=
  match lines with
  | [] => (None, issued)
  | line :: rest =>
      match ip issued line with
      | Some e => (Some e, (issued ++ [line])%list)
      | None => run_config ip rest (issued ++ [line])%list
      end
  end.

Section Environment.

(** Constants.MAGIC_CLASS_NAME, declared in Kqlmagic.constants. *)
Variable MAGIC_CLASS_NAME : string.

(** os.getenv *)
Variable getenv : string -> option string.

(** ["{0}_SUFFIX".format(Constants.MAGIC_CLASS_NAME.upper())] *)
Definition env_name (suffix : string) : string := upper MAGIC_CLASS_NAME ++ suffix.

(** _get_kql_magic_load_mode *)
Definition _get_kql_magic_load_mode : option string :=
  match getenv (env_name "_LOAD_MODE") with
  | Some load_mode =>
      if negb (str_empty load_mode) then
        let load_mode := remove_char "-" (remove_char "_" (lower (strip load_mode))) in
        if quoted load_mode then Some (strip (unwrap load_mode)) else Some load_mode
      else Some load_mode
  | None => None
  end.

(** Lines 720-728: the config lines of the CONFIGURATION variable. *)
Definition configuration_lines : list string :=
  match getenv (env_name "_CONFIGURATION") with
  | Some kql_magic_configuration =>
      if negb (str_empty kql_magic_configuration) then
        let kql_magic_configuration := strip kql_magic_configuration in
        let kql_magic_configuration :=
          if quoted kql_magic_configuration then unwrap kql_magic_configuration
          else kql_magic_configuration in
        let pairs := split_on ";" kql_magic_configuration in
        map (fun pair => MAGIC_CLASS_NAME ++ "." ++ strip pair)
          (List.filter (fun pair => negb (str_empty pair)) pairs)
      else []
  | None => []
  end.

(** Line 732 *)
Definition notebook_app_lookup_key (app : string) : string :=
  remove_char "/" (remove_char "-" (remove_char "_" (strip_quotes (strip (lower app))))).

(** Line 733: the dictionary lookup. *)
Definition notebook_app_of_key (lookup_key : string) : option string :=
  if String.eqb lookup_key "jupyterlab" then Some "jupyterlab"
  else if String.eqb lookup_key "jupyternotebook" then Some "jupyternotebook"
  else if String.eqb lookup_key "lab" then Some "jupyterlab"
  else if String.eqb lookup_key "notebook" then Some "jupyternotebook"
  else None.

(** Lines 730-735: the config line of the NOTEBOOK_APP variable. *)
Definition notebook_app_lines : list string :=
  match getenv (env_name "_NOTEBOOK_APP") with
  | Some app =>
      match notebook_app_of_key (notebook_app_lookup_key app) with
      | Some app =>
          [MAGIC_CLASS_NAME ++ ".notebook_app = " ++ String dquote (strip app)
             ++ String dquote EmptyString]
      | None => []
      end
  | None => []
  end.

(** _override_default_configuration: the exception that leaves it, if any,
    and the config lines issued.  [load_mode] is not read. *)
Definition _override_default_configuration (ip : list string -> string -> option exn)
    (load_mode : option string) : option exn * list string :=
  run_config ip (configuration_lines ++ notebook_app_lines)%list [].

(** _set_default_connections: the exception that leaves it, if any, the
    connection strings handed to the Connection constructor and the lines
    printed.  The handler of line 760 is [except Exception]. *)
Definition _set_default_connections (Connection : string -> option exn)
  : option exn * list string * list string :=
  match getenv (env_name "_CONNECTION_STR") with
  | Some connection_str =>
      if negb (str_empty connection_str) then
        let connection_str := strip connection_str in
        let connection_str :=
          if quoted connection_str then unwrap connection_str else connection_str in
        match Connection connection_str with
        | Some err =>
            if is_exception err then (None, [connection_str], [exn_msg err])
            else (Some err, [connection_str], [])
        | None => (None, [connection_str], [])
        end
      else (None, [], [])
  | None => (None, [], [])
  end.

End Environment.

(* --------------------------------------------------------------------- *)
(* A notebook front end used to run the model of execute                 *)
(* --------------------------------------------------------------------- *)

(** A notebook front end used to run the model of execute: a parser that
    takes the line for the connection text and the cell for the query, and
    reads a line that starts with "--" as a command. *)
Module Notebook.

Definition faq : CommandResult :=
  mkCommandResult 21 (Some ("faq", "http://aka.ms/kqlmagic-faq", "popup faq")) None.

Definition version : CommandResult :=
  mkCommandResult 22 None (Some (inr (Some "<p>version</p>"))).

Definition parse (line cell : string) : list ParsedCommand :=
  if String.prefix "--" line
  then [mkParsedCommand (mkParsed "" ∅ "")
          (Some (String.substring 2 (String.length line - 2) line))
          (if String.eqb cell "" then VNone else VStr cell)]
  else [mkParsedCommand (mkParsed cell ∅ line) None VNone].

Definition commands : CommandEnv :=
  {| cenv_parse := fun _ line cell _ _ => inr (parse line cell);
     cenv_version_command := fun _ => inr (Some version);
     cenv_usage_command := fun _ => inr None;
     cenv_faq_command := fun _ => inr (Some faq);
     cenv_help_command := fun _ _ => inr None;
     cenv_markdown_string := fun _ => mkCommandResult 23 None None;
     cenv_palette := fun _ _ => inr (mkCommandResult 24 None None);
     cenv_palette_digest := fun _ => inr "0a1b";
     cenv_palettes := fun _ _ => inr (mkCommandResult 25 None None);
     cenv_palettes_digest := fun _ => inr "2c3d";
     cenv_html_to_file_path := fun _ _ name _ => inr ("temp/" ++ name ++ ".html") |}.

(** A fresh kernel: the magic object with its default traits, one
    registered connection, no window shown. *)
Definition shell : Shell := mkShell default_magic Scenario.one_connection [].

Definition partial_raw : RawResult := mkRaw 8 true 2.

(** The healthy backend, except that every query comes back with a
    partial table. *)
Definition partial_backend : Env :=
  {| env_get_connection := env_get_connection Scenario.healthy;
     env_validate := env_validate Scenario.healthy;
     env_get_schema_file_path := env_get_schema_file_path Scenario.healthy;
     env_connection_list_formatted := env_connection_list_formatted Scenario.healthy;
     env_current_connection_formatted := env_current_connection_formatted Scenario.healthy;
     env_help_flush := env_help_flush Scenario.healthy;
     env_expand := env_expand Scenario.healthy;
     env_execute := fun _ _ _ _ _ => inr partial_raw;
     env_cache_save := env_cache_save Scenario.healthy;
     env_time := env_time Scenario.healthy;
     env_done_message := env_done_message Scenario.healthy;
     env_to_dict := env_to_dict Scenario.healthy;
     env_to_dataframe := env_to_dataframe Scenario.healthy;
     env_dataframe_eq := env_dataframe_eq Scenario.healthy;
     env_fork_result := env_fork_result Scenario.healthy;
     env_fork_results := env_fork_results Scenario.healthy |}.

End Notebook.

(* --------------------------------------------------------------------- *)
(* Vocabulary of the statements                                          *)
(* --------------------------------------------------------------------- *)

Local Open Scope list_scope.

(** [R] relates the world before a step to the world after it: every run
    of [m], whatever it returns or raises, is an [R]-step. *)
Definition steps (R : relation World) {A : Type} (m : M A) : Prop :=
  forall s r s', m s = (r, s') -> R (st_world s) (st_world s').

(** The step from [w] to [w'] only adds events, all of them in [P]. *)
Definition emits (P : Event -> bool) (w w' : World) : Prop :=
  exists evs, w_trace w' = w_trace w ++ evs /\ forallb P evs = true.

(** The invocation resolves its connection text to [conn], leaving the
    invocation in state [s1]: lines 502-521 return normally. *)
Definition resolves (env : Env) (self : Kqlmagic) (parsed : Parsed)
    (user_ns : namespace) (w : World) (conn : Conn) (s1 : St) : Prop :=
  bind (help_preamble env self user_ns)
       (fun _ => resolve_connection env self (p_connection parsed) user_ns
                   (p_options parsed))
       (mkSt w (p_connection parsed))
  = (Ok (Some conn), s1).

Definition not_validate (e : Event) : bool := negb (is_validate e).

(** The invocation resolves a connection and the body of its second [try]
    returns [v] without raising, leaving the world [w']. *)
Definition main_block_returns (env : Env) (self : Kqlmagic) (parsed : Parsed)
    (user_ns : namespace) (result_set : option (nat * ResultSet))
    (w : World) (v : nsval) (w' : World) : Prop :=
  exists conn s1 s2,
    resolves env self parsed user_ns w conn s1
    /\ main_block env self user_ns result_set (p_options parsed)
         (opt_suppress_results self (p_options parsed))
         (strip (p_query parsed)) conn s1 = (Ok v, s2)
    /\ w' = st_world s2.

Definition any_event (e : Event) : bool := true.

(** The step from [w] to [w'] adds events, [e] among them. *)
Definition emitted (e : Event) (w w' : World) : Prop :=
  exists evs, w_trace w' = w_trace w ++ evs /\ In e evs.

(** A step that keeps [I] once it holds. *)
Definition preserving (I : World -> Prop) : relation World :=
  fun w w' => I w -> I w'.

(** The result set at [ref] wraps the raw result [raw]. *)
Definition holds_raw (ref : nat) (raw : RawResult) (w : World) : Prop :=
  exists rs, w_results w !! ref = Some rs /\ rs_raw rs = raw.

(** A step that leaves the shell namespace alone. *)
Definition same_shell_ns : relation World :=
  fun w w' => w_shell_ns w' = w_shell_ns w.

(** Connection.get_connection raises [e] at line 521, leaving state [s]. *)
Definition resolution_raises (env : Env) (self : Kqlmagic) (parsed : Parsed)
    (user_ns : namespace) (w : World) (e : exn) (s : St) : Prop :=
  bind (help_preamble env self user_ns)
       (fun _ => get_connection env (p_connection parsed) user_ns (p_options parsed))
       (mkSt w (p_connection parsed))
  = (Raise e, s).

(** The body of the second [try] raises [e], leaving state [s]. *)
Definition main_block_raises (env : Env) (self : Kqlmagic) (parsed : Parsed)
    (user_ns : namespace) (result_set : option (nat * ResultSet))
    (w : World) (e : exn) (s : St) : Prop :=
  exists conn s1,
    resolves env self parsed user_ns w conn s1
    /\ main_block env self user_ns result_set (p_options parsed)
         (opt_suppress_results self (p_options parsed))
         (strip (p_query parsed)) conn s1 = (Raise e, s).

(** What _show_connection_info displays in the outer handler: something
    only without connection string (as the local variable stands when the
    error arrives), with a registered connection, without suppression and
    with a non-empty connection info for the show_conn_info mode. *)
Definition conn_info_events (env : Env) (self : Kqlmagic)
    (options : gmap string pyval) (s : St) : list Event :=
  if str_empty (st_connection_string s) && has_connections (st_world s)
     && negb (truthy (opt_suppress_results self options))
  then match _get_connection_info env self options (st_world s) with
       | [] => []
       | msg => [EvConnInfo msg]
       end
  else [].

(** The handlers of the first [try] (lines 524 and 534) catch [e]. *)
Definition caught_at_resolution (e : exn) : bool :=
  match exn_cls e with
  | KqlEngineError | ConnectionError => true
  | _ => false
  end.

(** Connection.get_connection never clears a flag of the options overlay
    of a connection: what is truthy before the call is truthy after it. *)
Definition registry_keeps_flags (env : Env) : Prop :=
  forall w cs user_ns options conn registry overlays,
    env_get_connection env w cs user_ns options = inr (conn, registry, overlays) ->
    forall c flag,
      truthy (conn_flag w c flag) = true ->
      truthy (opt_get (default ∅ (overlays !! c)) flag) = true.

(** A step that emits no event in [p] and keeps the flag [flag] of
    connection [c] once it is set. *)
Definition quiet (p : Event -> bool) (flag : string) (c : nat) : relation World :=
  fun w w' =>
    emits (fun e => negb (p e)) w w'
    /\ (truthy (conn_flag w c flag) = true -> truthy (conn_flag w' c flag) = true).

(** Since the world [w0], at most one event in [p] was emitted, and if one
    was, the flag [flag] of connection [c] is set. *)
Definition gate_inv (p : Event -> bool) (flag : string) (c : nat)
    (w0 w : World) : Prop :=
  exists evs,
    w_trace w = w_trace w0 ++ evs
    /\ (count_events p evs <= 1)%nat
    /\ (count_events p evs = 1%nat -> truthy (conn_flag w c flag) = true).

(** No invocation of the sequence passes the popup_schema option. *)
Definition no_explicit_popup (calls : list (Parsed * namespace)) : Prop :=
  Forall (fun call => truthy (opt_get (p_options (fst call)) "popup_schema") = false) calls.

(** The condition of lines 570-572 in world [w]. *)
Definition popup_wanted (self : Kqlmagic) (conn : Conn) (options : gmap string pyval)
    (w : World) : bool :=
  truthy (opt_get options "popup_schema")
  || (negb (truthy (conn_flag w (conn_ref conn) "auto_popup_schema_done"))
      && opt_auto_popup_schema self options).

(** The condition of line 577 in world [w]. *)
Definition help_wanted (conn : Conn) (options : gmap string pyval) (w : World) : bool :=
  negb (truthy (conn_flag w (conn_ref conn) "add_schema_to_help_done"))
  && truthy (opt_get options "add_schema_to_help").

(** The state [s] after the events [evs]. *)
Definition st_emit (evs : list Event) (s : St) : St :=
  mkSt (fold_left (fun w e => w_emit e w) evs (st_world s)) (st_connection_string s).

(** The state [s] once the flag [flag] of connection [c] is set. *)
Definition st_set_flag (c : nat) (flag : string) (s : St) : St :=
  mkSt (w_set_conn_flag c flag (st_world s)) (st_connection_string s).

(* --------------------------------------------------------------------- *)
(* Further vocabulary: phases, counts, frames                            *)
(* --------------------------------------------------------------------- *)

Definition is_executed (e : Event) : bool :=
  match e with EvExecuted _ => true | _ => false end.

Definition is_cache_save (e : Event) : bool :=
  match e with EvCacheSave _ => true | _ => false end.

Definition not_cache_save (e : Event) : bool := negb (is_cache_save e).

Definition is_warning (e : Event) : bool :=
  match e with EvWarning _ => true | _ => false end.

(** The events of lines 502-507. *)
Definition is_help_event (e : Event) : bool :=
  match e with EvHelpFlush _ | EvGetNotebookUrl => true | _ => false end.

(** The events of lines 592-697: query expansion and execution, cache
    writes, result shaping and display. *)
Definition is_query_event (e : Event) : bool :=
  match e with
  | EvExpand _ | EvExecute _ _ | EvExecuted _ | EvCacheSave _ | EvWarning _
  | EvSuccess _ | EvToDict _ _ | EvToDataframe _ | EvDataframe _ _
  | EvForkResults _ => true
  | _ => false
  end.

(** A step that removes no name from the shell namespace. *)
Definition shell_ns_grows : relation World :=
  fun w w' => dom (w_shell_ns w) ⊆ dom (w_shell_ns w').

(** A step that only adds events and leaves the shell namespace alone
    unless conn.execute has returned during it. *)
Definition unbound_until_executed : relation World :=
  fun w w' =>
    emits any_event w w'
    /\ (w_shell_ns w' = w_shell_ns w \/ exists raw, emitted (EvExecuted raw) w w').

(** In a continuation of a result set whose stored query is [q], no query
    text is expanded and the only query executed is [q]. *)
Definition continues_query (q : string) (e : Event) : bool :=
  match e with
  | EvExpand _ => false
  | EvExecute _ q' => String.eqb q' q
  | _ => true
  end.

(** A step that stays in the connection phase: no query event, the shell
    namespace and the result sets as they were. *)
Definition connect_only : relation World :=
  fun w w' =>
    emits (fun e => negb (is_query_event e)) w w'
    /\ w_shell_ns w' = w_shell_ns w
    /\ w_results w' = w_results w.

(** The step from [w] to [w'] only adds events, [n] of them in [p]. *)
Definition adds (p : Event -> bool) (n : nat) (w w' : World) : Prop :=
  exists evs, w_trace w' = w_trace w ++ evs /\ count_events p evs = n.

(** Every run of [m] that returns adds exactly [n] events in [p]. *)
Definition counted (p : Event -> bool) (n : nat) {A : Type} (m : M A) : Prop :=
  forall s a s', m s = (Ok a, s') -> adds p n (st_world s) (st_world s').

(** The step from [w] to [w'] only adds events, at most [n] of them in [p]. *)
Definition at_most (p : Event -> bool) (n : nat) (w w' : World) : Prop :=
  exists evs, w_trace w' = w_trace w ++ evs /\ (count_events p evs <= n)%nat.

(** Every run of [m], whatever it returns or raises, adds at most [n]
    events in [p]. *)
Definition bounded (p : Event -> bool) (n : nat) {A : Type} (m : M A) : Prop :=
  forall s r s', m s = (r, s') -> at_most p n (st_world s) (st_world s').

(** The condition of line 664. *)
Definition cache_wanted (options : gmap string pyval) : bool :=
  is_not_none (opt_get options "cache")
  && negb (py_eqb (opt_get options "cache") (opt_get options "use_cache")).

(** The result set at [ref] carries the display flags [suppress] and [info]. *)
Definition has_flags (ref : nat) (suppress info : bool) (w : World) : Prop :=
  exists rs, w_results w !! ref = Some rs
             /\ rs_suppress_result rs = suppress /\ rs_display_info rs = info.

(** A partial-results warning names [var]. *)
Definition warns_about (var : pyval) (e : Event) : bool :=
  match e with
  | EvWarning x => bool_decide (x = var)
  | _ => true
  end.

(** [R] relates the invocation state before a run of [m] to the state
    after it, local connection string included. *)
Definition steps_st (R : relation St) {A : Type} (m : M A) : Prop :=
  forall s r s', m s = (r, s') -> R s s'.

(** A step that, started with a connection string, still has one
    afterwards and has not displayed the connection info. *)
Definition explicit_connection : relation St :=
  fun s s' =>
    st_connection_string s <> EmptyString ->
    st_connection_string s' <> EmptyString
    /\ emits (fun e => negb (is_conn_info e)) (st_world s) (st_world s').

(** A step that leaves Help_html.showfiles_base_url alone and neither
    flushes the help files nor asks the front end for the notebook URL. *)
Definition base_url_kept : relation World :=
  fun w w' =>
    w_showfiles_base_url w' = w_showfiles_base_url w
    /\ emits (fun e => negb (is_help_event e)) w w'.

(** The condition of line 657. *)
Definition result_var_wanted (result_set : option (nat * ResultSet))
    (options : gmap string pyval) : bool :=
  truthy (opt_get options "result_var") && is_top_level result_set.

(** The feedback of the result set at [ref] holds [msg]. *)
Definition has_feedback (ref : nat) (msg : string) (w : World) : Prop :=
  In msg (feedback_of w ref).

(** The calls that reach a connection: Connection.get_connection and
    conn.validate. *)
Definition is_probe (e : Event) : bool := is_get_connection e || is_validate e.

(** The world in which line 563 resolves the code() connection string of
    [conn]: the world [w] in which [conn] was probed, after the probe, the
    danger message for [e] and the info message. *)
Definition retry_world (conn : Conn) (e : exn) (w : World) : World :=
  w_emit (EvGetConnection (code_connection_string conn))
    (w_emit (EvInfo "replaced connection with code authentication")
       (w_emit (EvDanger (exn_msg e))
          (w_emit (EvValidate (conn_ref conn)) w))).

(** A value other than a dataframe, or an exception. *)
Definition no_dataframe (r : res nsval) : Prop :=
  match r with
  | Ok (NDataFrame _) => False
  | _ => True
  end.

(** Every run of [m] gives a value other than a dataframe, or raises. *)
Definition returns_no_dataframe (m : M nsval) : Prop :=
  forall s r s', m s = (r, s') -> no_dataframe r.

(** What is raised, if anything, is not an Exception. *)
Definition raises_no_exception {A : Type} (r : res A) : Prop :=
  match r with
  | Ok _ => True
  | Raise e => is_exception e = false
  end.

(** Database_html.popup_schema was called. *)
Definition is_popup_schema (e : Event) : bool :=
  match e with EvPopupSchema _ _ => true | _ => false end.

(** How many of the parsed queries execute submits to execute_query
    (line 411). *)
Definition submitted (parsed_queries : list ParsedCommand) : nat :=
  length (List.filter (fun parsed => is_submit (pc_command parsed)) parsed_queries).

(** The commands execute knows (lines 410-452). *)
Definition known_command (command : string) : bool :=
  existsb (String.eqb command)
    ["submit"; "version"; "usage"; "faq"; "help"; "cache"; "use_cache";
     "palette"; "palettes"].

(** Two states of the magic object that differ at most in [cache]. *)
Definition same_traits_but_cache (a b : Kqlmagic) : Prop :=
  set_cache a None = set_cache b None.

(** An environment in which the variable [name] holds [value] and no
    other variable is set. *)
Definition setenv (name value : string) : string -> option string :=
  fun n => if String.eqb n name then Some value else None.

(** Every character of [s] satisfies [p]. *)
Fixpoint all_chars (p : ascii -> bool) (s : string) : bool :=
  match s with
  | EmptyString => true
  | String c s' => p c && all_chars p s'
  end.

(** What a normalised load mode is made of: no upper-case letter, no
    underscore, no hyphen. *)
Definition load_mode_char (c : ascii) : bool :=
  negb (is_upper c) && negb (Ascii.eqb c "_") && negb (Ascii.eqb c "-").

(* ===================================================================== *)
(* Theorems                                                              *)
(* ===================================================================== *)

(* --------------------------------------------------------------------- *)
(* The use_cache command                                                 *)
(* --------------------------------------------------------------------- *)

Lemma cache_name_given_spec (cache_name : option string) :
  cache_name_given cache_name = true <->
  exists s, cache_name = Some s /\ s <> "" /\ s <> "None".
Proof.
  unfold cache_name_given. destruct cache_name as [s|].
  - rewrite andb_true_iff, negb_true_iff, String.eqb_neq, Z.ltb_lt.
    split.
    + intros [Hn Hl]. exists s. repeat split; auto.
      intros ->. simpl in Hl. lia.
    + intros (s' & [= <-] & He & Hn). split; auto.
      destruct s; [congruence | simpl; lia].
  - split; [discriminate | intros (s & [=] & _)].
Qed.

(** C10: execute_use_cache_command leaves the use_cache attribute (and every
    other trait but cache) as it was; it assigns cache: to cache_name when
    cache_name is a non-empty string other than "None", to None otherwise. *)
Theorem execute_use_cache_command_frame :
  forall (pkg : string) (self : Kqlmagic) (cache_name : option string),
    let self' := fst (execute_use_cache_command pkg self cache_name) in
    use_cache self' = use_cache self
    /\ cache self' =
         match cache_name with
         | Some s => if decide (s <> "" /\ s <> "None") then Some s else None
         | None => None
         end
    /\ set_cache self' (cache self) = self.
Proof.
  intros pkg self cache_name self'. subst self'.
  unfold execute_use_cache_command.
  destruct (cache_name_given cache_name) eqn:Hg; simpl.
  - apply cache_name_given_spec in Hg as (s & -> & He & Hn).
    rewrite decide_True by auto. destruct self; auto.
  - split; [reflexivity|]. split; [|destruct self; reflexivity].
    destruct cache_name as [s|]; [|reflexivity].
    case_decide as Hd; [|reflexivity].
    assert (cache_name_given (Some s) = true) as Ht
      by (apply cache_name_given_spec; eauto).
    congruence.
Qed.

(* --------------------------------------------------------------------- *)
(* Runs of the model on the concrete session                             *)
(* --------------------------------------------------------------------- *)

(** C4: with an empty query and an empty connection text execute_query
    returns None at line 515, before anything is displayed: the connection
    list is shown zero times although a connection exists, and the world is
    left exactly as it was. *)
Theorem empty_invocation_displays_nothing :
  has_connections Scenario.one_connection = true
  /\ execute_query Scenario.healthy default_magic (Scenario.invocation "" "" ∅) ∅ None
       Scenario.one_connection
     = (Ok (NVal VNone), Scenario.one_connection)
  /\ count_events is_conn_info (w_trace Scenario.one_connection) = 0%nat.
Proof. vm_compute. repeat split; reflexivity. Qed.

(** C9: add_schema_to_help is read at line 577 without its trait as
    fallback: with the trait at its default True and the option absent, no
    help-menu item is registered; it is registered when the option itself
    is supplied. *)
Theorem add_schema_to_help_ignores_trait :
  add_schema_to_help default_magic = true
  /\ count_events is_add_menu_item
       (w_trace (snd (execute_query Scenario.healthy default_magic
                        (Scenario.invocation "T | take 1" "" ∅) ∅ None
                        Scenario.one_connection))) = 0%nat
  /\ count_events is_add_menu_item
       (w_trace (snd (execute_query Scenario.healthy default_magic
                        (Scenario.invocation "T | take 1" ""
                           {[ "add_schema_to_help" := VBool true ]}) ∅ None
                        Scenario.one_connection))) = 1%nat.
Proof. vm_compute. repeat split; reflexivity. Qed.

(** C1: a validation error whose message starts with the AADSTS50079 code
    and contains "multi-factor authentication", on a Kusto connection, is
    not retried: [find] returns 0 for the code and line 551 asks for an
    index greater than 0.  One resolution, one probe, and the error goes
    to the outer handler. *)
Theorem mfa_code_at_index_zero_not_retried :
  let msg := "AADSTS50079: The user is required to use multi-factor authentication." in
  let r := execute_query
             (Scenario.backend None (Some (mkExn OtherException msg)) Scenario.kusto_conn)
             default_magic
             (Scenario.invocation "T | take 1" "kusto://cluster('help').database('Samples')" ∅)
             ∅ None Scenario.one_connection in
  find msg "AADSTS50079" = 0
  /\ find msg "multi-factor authentication" = 41
  /\ is_kusto Scenario.kusto_conn = true
  /\ fst r = Ok (NVal VNone)
  /\ w_trace (snd r) =
       [EvGetConnection "kusto://cluster('help').database('Samples')";
        EvValidate 1; EvDanger msg].
Proof. vm_compute. repeat split; reflexivity. Qed.

(* --------------------------------------------------------------------- *)
(* Reasoning about computations: inversion and step relations            *)
(* --------------------------------------------------------------------- *)

Lemma bind_ok {A B : Type} (m : M A) (k : A -> M B) (s s' : St) (b : B) :
  bind m k s = (Ok b, s') ->
  exists a s1, m s = (Ok a, s1) /\ k a s1 = (Ok b, s').
Proof.
  unfold bind. destruct (m s) as [[a|e] s1]; [eauto | discriminate].
Qed.

Lemma bind_raise {A B : Type} (m : M A) (k : A -> M B) (s s' : St) (e : exn) :
  bind m k s = (Raise e, s') ->
  m s = (Raise e, s') \/ exists a s1, m s = (Ok a, s1) /\ k a s1 = (Raise e, s').
Proof.
  unfold bind. destruct (m s) as [[a|e'] s1]; [eauto | intros [= <- <-]; auto].
Qed.

Lemma bind_eq {A B : Type} (m : M A) (k : A -> M B) (s s1 : St) (a : A) :
  m s = (Ok a, s1) -> bind m k s = k a s1.
Proof. unfold bind. intros ->. reflexivity. Qed.

Lemma try_except_ok {A : Type} (m : M A) (h : exn -> M A) (s s1 : St) (a : A) :
  m s = (Ok a, s1) -> try_except m h s = (Ok a, s1).
Proof. unfold try_except. intros ->. reflexivity. Qed.

(** An Exception reaches the handler. *)
Lemma try_except_caught {A : Type} (m : M A) (h : exn -> M A) (s s1 : St) (e : exn) :
  m s = (Raise e, s1) -> is_exception e = true -> try_except m h s = h e s1.
Proof. unfold try_except. intros -> ->. reflexivity. Qed.

(** What is not an Exception passes the handler by. *)
Lemma try_except_passed {A : Type} (m : M A) (h : exn -> M A) (s s1 : St) (e : exn) :
  m s = (Raise e, s1) -> is_exception e = false -> try_except m h s = (Raise e, s1).
Proof. unfold try_except. intros -> ->. reflexivity. Qed.

Section Steps.

Context (R : relation World) `{!PreOrder R}.

Lemma steps_ret {A : Type} (a : A) : steps R (ret a).
Proof. intros s r s' [= <- <-]. reflexivity. Qed.

Lemma steps_raise {A : Type} (e : exn) : steps R (@raise A e).
Proof. intros s r s' [= <- <-]. reflexivity. Qed.

Lemma steps_bind {A B : Type} (m : M A) (k : A -> M B) :
  steps R m -> (forall a, steps R (k a)) -> steps R (bind m k).
Proof.
  intros Hm Hk s r s'. unfold bind.
  destruct (m s) as [[a|e] s1] eqn:E.
  - intros H. etransitivity; [eapply Hm, E | eapply Hk, H].
  - intros [= <- <-]. eapply Hm, E.
Qed.

Lemma steps_try_except {A : Type} (m : M A) (h : exn -> M A) :
  steps R m -> (forall e, steps R (h e)) -> steps R (try_except m h).
Proof.
  intros Hm Hh s r s'. unfold try_except.
  destruct (m s) as [[a|e] s1] eqn:E.
  - intros [= <- <-]. eapply Hm, E.
  - destruct (is_exception e).
    + intros H. etransitivity; [eapply Hm, E | eapply Hh, H].
    + intros [= <- <-]. eapply Hm, E.
Qed.

Lemma steps_get_world : steps R get_world.
Proof. intros s r s' [= <- <-]. reflexivity. Qed.

Lemma steps_get_connection_string : steps R get_connection_string.
Proof. intros s r s' [= <- <-]. reflexivity. Qed.

Lemma steps_set_connection_string (cs : string) : steps R (set_connection_string cs).
Proof. intros s r s' [= <- <-]. reflexivity. Qed.

Lemma steps_modify (f : World -> World) :
  (forall w, R w (f w)) -> steps R (modify f).
Proof. intros Hf s r s' [= <- <-]. apply Hf. Qed.

Lemma steps_call {A : Type} (f : World -> exn + A) : steps R (call f).
Proof.
  intros s r s'. unfold call.
  destruct (f (st_world s)); intros [= <- <-]; reflexivity.
Qed.

Lemma steps_call_unit (f : World -> option exn) : steps R (call_unit f).
Proof.
  intros s r s'. unfold call_unit.
  destruct (f (st_world s)); intros [= <- <-]; reflexivity.
Qed.

Lemma steps_when (b : bool) (m : M unit) : steps R m -> steps R (when b m).
Proof. intros Hm. destruct b; [exact Hm | apply steps_ret]. Qed.

End Steps.

(** Decompose a [steps] goal along the structure of the computation;
    [prim] proves the obligations [R w (f w)] of the state updates, and a
    component that has a lemma of its own is closed by that lemma when it
    is among the hypotheses. *)
Ltac steps_with prim :=
  repeat first
    [ solve [auto 1]
    | apply steps_ret; apply _
    | apply steps_raise; apply _
    | apply steps_get_world; apply _
    | apply steps_get_connection_string; apply _
    | apply steps_set_connection_string; apply _
    | apply steps_call; apply _
    | apply steps_call_unit; apply _
    | apply steps_when; [apply _ | ]
    | apply steps_bind; [apply _ | | intros ?]
    | apply steps_try_except; [apply _ | | intros ?]
    | apply steps_modify; intros ?; prim
    | match goal with
      | |- steps _ (match ?x with _ => _ end) => destruct x
      | |- steps _ (let '(_, _) := ?x in _) => destruct x
      end ].

(* --------------------------------------------------------------------- *)
(* Traces                                                                *)
(* --------------------------------------------------------------------- *)

#[global] Instance emits_preorder (P : Event -> bool) : PreOrder (emits P).
Proof.
  split.
  - intros w. exists []. split; [symmetry; apply app_nil_r | reflexivity].
  - intros w1 w2 w3 (e1 & H1 & F1) (e2 & H2 & F2). exists (e1 ++ e2). split.
    + rewrite H2, H1. symmetry. apply app_assoc.
    + rewrite forallb_app, F1, F2. reflexivity.
Qed.

Lemma emits_same_trace (P : Event -> bool) (w w' : World) :
  w_trace w' = w_trace w -> emits P w w'.
Proof.
  intros H. exists []. split; [rewrite H; symmetry; apply app_nil_r | reflexivity].
Qed.

Lemma emits_emit (P : Event -> bool) (e : Event) (w : World) :
  P e = true -> emits P w (w_emit e w).
Proof. intros H. exists [e]. simpl. rewrite H. auto. Qed.

Lemma emits_new_events (P : Event -> bool) (w w' : World) :
  emits P w w' ->
  w_trace w' = w_trace w ++ new_events w w' /\ forallb P (new_events w w') = true.
Proof.
  intros (evs & H & F). unfold new_events. rewrite H, drop_app_length. auto.
Qed.

Lemma count_events_none (p : Event -> bool) (l : list Event) :
  forallb (fun e => negb (p e)) l = true -> count_events p l = 0%nat.
Proof.
  unfold count_events. induction l as [|e l IH]; simpl; [reflexivity|].
  rewrite andb_true_iff, negb_true_iff. intros [-> F]. auto.
Qed.

Lemma emits_weaken (P Q : Event -> bool) (w w' : World) :
  (forall e, P e = true -> Q e = true) -> emits P w w' -> emits Q w w'.
Proof.
  intros HPQ (evs & H & F). exists evs. split; [exact H|].
  rewrite forallb_forall in *. auto.
Qed.

Ltac emits_prim :=
  first [ apply emits_same_trace; reflexivity
        | apply emits_emit; reflexivity ].

Ltac unfold_outer :=
  unfold execute_query_m, resolve_connection, outer_handler, main_block,
    with_connection, submit_query, return_result, bind_last_raw_result,
    report_result, bind_result, model_query_results, run_query, cache_save,
    validate_connection, validate, help_preamble, submit_get_notebook_url,
    _show_connection_info, update_result, shell_update, append_feedback, emit.

Ltac unfold_lifecycle :=
  unfold execute_query_m, resolve_connection, outer_handler, main_block,
    with_connection, submit_query, return_result, bind_last_raw_result,
    report_result, bind_result, model_query_results, run_query, cache_save,
    schema_side_effects, popup_schema_step, help_menu_step,
    get_schema_file_path, validate_connection,
    get_connection, help_preamble, submit_get_notebook_url,
    _show_connection_info, update_result, shell_update, append_feedback, emit.

(* --------------------------------------------------------------------- *)
(* Validation happens once per connection                                *)
(* --------------------------------------------------------------------- *)

Section NoProbe.

Variables (env : Env) (self : Kqlmagic).

Lemma help_preamble_ok (user_ns : namespace) (s : St) :
  exists s0, help_preamble env self user_ns s = (Ok tt, s0)
             /\ st_connection_string s0 = st_connection_string s.
Proof.
  unfold help_preamble, submit_get_notebook_url, when, emit, modify, bind,
    get_world, ret.
  destruct (w_showfiles_base_url (st_world s)); [eauto|].
  destruct (result_is_not_none _); [eauto|].
  destruct (negb _); eauto.
Qed.

Lemma help_preamble_no_probe (user_ns : namespace) :
  steps (emits not_validate) (help_preamble env self user_ns).
Proof. unfold_lifecycle. steps_with emits_prim. Qed.

Lemma resolve_connection_no_probe (cs : string) (user_ns : namespace)
    (options : gmap string pyval) :
  steps (emits not_validate) (resolve_connection env self cs user_ns options).
Proof. unfold_lifecycle. steps_with emits_prim. Qed.

Lemma with_connection_no_probe (user_ns : namespace)
    (result_set : option (nat * ResultSet)) (options : gmap string pyval)
    (suppress_results : pyval) (query : string) (conn : Conn) :
  steps (emits not_validate)
    (with_connection env self user_ns result_set options suppress_results query conn).
Proof. unfold_lifecycle. steps_with emits_prim. Qed.



End NoProbe.



(** Two queries on a fresh connection: the probe runs in the first one only. *)
Example probe_runs_once_in_two_queries :
  let q := (Scenario.invocation "T | take 1" "" ∅, (∅ : namespace)) in
  count_events is_validate
    (w_trace (run_session Scenario.healthy default_magic [q; q] Scenario.one_connection))
  = 1%nat.
Proof. vm_compute. reflexivity. Qed.

(* --------------------------------------------------------------------- *)
(* The result-shaping pipeline                                           *)
(* --------------------------------------------------------------------- *)

#[global] Instance preserving_preorder (I : World -> Prop) : PreOrder (preserving I).
Proof. split; unfold preserving; [intros w; auto | intros w1 w2 w3; auto]. Qed.

#[global] Instance same_shell_ns_preorder : PreOrder same_shell_ns.
Proof.
  split; unfold same_shell_ns; [intros w; reflexivity | intros w1 w2 w3; congruence].
Qed.

Lemma emitted_new_events (e : Event) (w w' : World) :
  emitted e w w' -> In e (new_events w w').
Proof.
  intros (evs & H & Hin). unfold new_events. rewrite H, drop_app_length. exact Hin.
Qed.

Lemma emits_emitted (P : Event -> bool) (e : Event) (w1 w2 w3 : World) :
  emits P w1 w2 -> emitted e w2 w3 -> emitted e w1 w3.
Proof.
  intros (e1 & H1 & _) (e2 & H2 & Hin). exists (e1 ++ e2). split.
  - rewrite H2, H1. symmetry. apply app_assoc.
  - apply in_or_app. auto.
Qed.

Lemma emitted_emits (P : Event -> bool) (e : Event) (w1 w2 w3 : World) :
  emitted e w1 w2 -> emits P w2 w3 -> emitted e w1 w3.
Proof.
  intros (e1 & H1 & Hin) (e2 & H2 & _). exists (e1 ++ e2). split.
  - rewrite H2, H1. symmetry. apply app_assoc.
  - apply in_or_app. auto.
Qed.

Lemma emitted_emit (e : Event) (w : World) : emitted e w (w_emit e w).
Proof. exists [e]. split; [reflexivity | left; reflexivity]. Qed.

Lemma emitted_any (e : Event) (w w' : World) : emitted e w w' -> emits any_event w w'.
Proof.
  intros (evs & Hev & _). exists evs. split; [exact Hev|].
  clear. induction evs; simpl; auto.
Qed.

Ltac same_ns_prim := reflexivity.

Lemma holds_raw_alter (ref : nat) (raw : RawResult) (f : ResultSet -> ResultSet)
    (w : World) :
  (forall r, rs_raw (f r) = rs_raw r) ->
  holds_raw ref raw w ->
  holds_raw ref raw (w_set_results (alter f ref (w_results w)) w).
Proof.
  intros Hf (rs & Hl & Hr). exists (f rs). simpl.
  rewrite lookup_alter_eq, Hl. simpl. split; [reflexivity | rewrite Hf; exact Hr].
Qed.

Ltac holds_raw_prim :=
  first [ apply holds_raw_alter; [intros ?; reflexivity | assumption]
        | assumption ].

Section Pipeline.

Variables (env : Env) (self : Kqlmagic).

Lemma help_preamble_emits (user_ns : namespace) :
  steps (emits any_event) (help_preamble env self user_ns).
Proof. unfold_lifecycle. steps_with emits_prim. Qed.

Lemma resolve_connection_emits (cs : string) (user_ns : namespace)
    (options : gmap string pyval) :
  steps (emits any_event) (resolve_connection env self cs user_ns options).
Proof. unfold_lifecycle. steps_with emits_prim. Qed.

Lemma main_block_emits (user_ns : namespace) (result_set : option (nat * ResultSet))
    (options : gmap string pyval) (suppress_results : pyval) (query : string)
    (conn : Conn) :
  steps (emits any_event)
    (main_block env self user_ns result_set options suppress_results query conn).
Proof. unfold_lifecycle. unfold validate, emit. steps_with emits_prim. Qed.

Lemma steps_run {A : Type} (R : relation World) (m : M A) (s s' : St) (r : res A) :
  steps R m -> m s = (r, s') -> R (st_world s) (st_world s').
Proof. intros H. apply H. Qed.

Lemma run_query_executed (user_ns : namespace) (result_set : option (nat * ResultSet))
    (options : gmap string pyval) (query : string) (conn : Conn)
    (s s' : St) (run : QueryRun) :
  run_query env user_ns result_set options query conn s = (Ok run, s') ->
  emitted (EvExecuted (qr_raw_query_result run)) (st_world s) (st_world s').
Proof.
  intros H. unfold run_query in H.
  apply bind_ok in H as (w0 & s0 & H0 & H). injection H0 as <- <-.
  apply bind_ok in H as (pq & s1 & H1 & H).
  apply bind_ok in H as ([] & s2 & H2 & H).
  apply bind_ok in H as (raw & s3 & H3 & H).
  apply bind_ok in H as ([] & s4 & H4 & H).
  apply bind_ok in H as (w4 & s5 & H5 & H). injection H5 as <- <-.
  apply bind_ok in H as (p1 & s6 & H6 & H).
  apply bind_ok in H as (p2 & s7 & H7 & H).
  injection H as <- <-. simpl.
  assert (emits any_event (st_world s) (st_world s3)) as E03.
  { etransitivity; [eapply steps_run; [|exact H1]|].
    - unfold_lifecycle. steps_with emits_prim.
    - etransitivity; [eapply steps_run; [|exact H2]|eapply steps_run; [|exact H3]];
        unfold_lifecycle; steps_with emits_prim. }
  assert (emits any_event (st_world s4) (st_world s7)) as E47.
  { etransitivity; [eapply steps_run; [|exact H6]|eapply steps_run; [|exact H7]];
      unfold_lifecycle; steps_with emits_prim. }
  eapply emits_emitted; [exact E03|].
  eapply emitted_emits; [|exact E47].
  injection H4 as <-. apply emitted_emit.
Qed.

Lemma model_query_results_holds (result_set : option (nat * ResultSet))
    (options : gmap string pyval) (suppress_results : pyval) (conn : Conn)
    (run : QueryRun) (s s' : St) (fork_table_id saved_result : nat) :
  model_query_results env self result_set options suppress_results conn run s
  = (Ok (fork_table_id, saved_result), s') ->
  holds_raw saved_result (qr_raw_query_result run) (st_world s').
Proof.
  intros H. unfold model_query_results in H.
  apply bind_ok in H as (w0 & s0 & H0 & H). injection H0 as <- <-.
  set (I := fun ref => holds_raw ref (qr_raw_query_result run)).
  assert (forall ft ref obj s1,
             rs_raw obj = qr_raw_query_result run ->
             bind (modify (fun w => w_set_results (<[ref := obj]> (w_results w)) w))
               (fun _ =>
                  let! connection_string := get_connection_string in
                  let! w := get_world in
                  run! update_result ref
                         (rs_set_conn_info
                            (if str_empty connection_string && has_connections w
                             then _get_connection_info env self options w else [])) in
                  run! update_result ref
                         (rs_set_times (qr_start_time run) (qr_end_time run)) in
                  run! when (raw_is_partial_table (qr_raw_query_result run)
                             && negb (truthy suppress_results))
                         (emit (EvWarning (opt_get options "last_raw_result_var"))) in
                  run! when (opt_feedback self options)
                         (append_feedback ref
                            (env_done_message env (qr_start_time run) (qr_end_time run)
                               (raw_records_count (qr_raw_query_result run)))) in
                  ret (ft, ref)) s
             = (Ok (fork_table_id, saved_result), s1) ->
             I saved_result (st_world s1)) as Hgen.
  { clear H. intros ft ref obj s1 Hobj H.
    apply bind_ok in H as ([] & sa & Ha & H). injection Ha as <-.
    assert (I ref (w_set_results (<[ref := obj]> (w_results (st_world s))) (st_world s)))
      as HI.
    { exists obj. simpl. rewrite lookup_insert_eq. auto. }
    assert (saved_result = ref) as ->.
    { repeat (apply bind_ok in H as (? & ? & _ & H)). injection H as _ <- _. reflexivity. }
    eapply (steps_run (preserving (I ref))) in H; [apply H; exact HI|].
    unfold_lifecycle.
    steps_with ltac:(intros ?; unfold I in *; holds_raw_prim). }
  destruct result_set as [[ref rs]|].
  - destruct (env_fork_result env (st_world s) ref 0) as [ref0 rs0].
    eapply Hgen; [|exact H]. reflexivity.
  - eapply Hgen; [|exact H]. reflexivity.
Qed.

Lemma bind_result_holds (result_set : option (nat * ResultSet))
    (options : gmap string pyval) (saved_result : nat) (raw : RawResult) :
  steps (preserving (holds_raw saved_result raw))
    (bind_result env self result_set options saved_result).
Proof. unfold_lifecycle. steps_with ltac:(intros ?; holds_raw_prim). Qed.

Lemma report_result_holds (result_set : option (nat * ResultSet))
    (options : gmap string pyval) (suppress_results : pyval) (conn : Conn)
    (run : QueryRun) (saved_result : nat) (result : nsval) (raw : RawResult) :
  steps (preserving (holds_raw saved_result raw))
    (report_result env self result_set options suppress_results conn run
       saved_result result).
Proof. unfold_lifecycle. steps_with ltac:(intros ?; holds_raw_prim). Qed.

Lemma report_result_same_shell_ns (result_set : option (nat * ResultSet))
    (options : gmap string pyval) (suppress_results : pyval) (conn : Conn)
    (run : QueryRun) (saved_result : nat) (result : nsval) :
  steps same_shell_ns
    (report_result env self result_set options suppress_results conn run
       saved_result result).
Proof. unfold_lifecycle. steps_with same_ns_prim. Qed.

Lemma resolves_emits (parsed : Parsed) (user_ns : namespace) (w : World)
    (conn : Conn) (s1 : St) :
  resolves env self parsed user_ns w conn s1 -> emits any_event w (st_world s1).
Proof.
  unfold resolves. intros H.
  eapply (steps_run (emits any_event)) in H; [exact H|].
  unfold_lifecycle. steps_with emits_prim.
Qed.

(** An invocation whose main block returns: execute_query returns the
    same value and leaves the same world. *)
Lemma execute_query_of_main_block (parsed : Parsed) (user_ns : namespace)
    (result_set : option (nat * ResultSet)) (w : World) (v : nsval) (w' : World) :
  main_block_returns env self parsed user_ns result_set w v w' ->
  str_empty (strip (p_query parsed)) && str_empty (p_connection parsed) = false ->
  execute_query env self parsed user_ns result_set w = (Ok v, w').
Proof.
  intros (conn & s1 & s2 & Hres & Hmain & ->) Hne.
  unfold resolves in Hres. apply bind_ok in Hres as (u & s0 & Hpre & Hres).
  unfold execute_query, execute_query_m.
  rewrite (bind_eq _ _ _ _ _ Hpre), Hne, (bind_eq _ _ _ _ _ Hres).
  rewrite (try_except_ok _ _ _ _ _ Hmain). reflexivity.
Qed.

(** The phases of a query that returns. *)
Lemma submit_query_ok (user_ns : namespace) (result_set : option (nat * ResultSet))
    (options : gmap string pyval) (suppress_results : pyval) (query : string)
    (conn : Conn) (s s' : St) (v : nsval) :
  submit_query env self user_ns result_set options suppress_results query conn s
  = (Ok v, s') ->
  exists run fork_table_id saved_result result sc sd se sf sg,
    run_query env user_ns result_set options query conn s = (Ok run, sc)
    /\ model_query_results env self result_set options suppress_results conn run sc
        = (Ok (fork_table_id, saved_result), sd)
    /\ bind_result env self result_set options saved_result sd = (Ok result, se)
    /\ report_result env self result_set options suppress_results conn run
          saved_result result se = (Ok tt, sf)
    /\ bind_last_raw_result self options saved_result sf = (Ok tt, sg)
    /\ return_result env saved_result fork_table_id result sg = (Ok v, s').
Proof.
  intros H. unfold submit_query in H.
  apply bind_ok in H as (run & sc & H1 & H).
  apply bind_ok in H as ([ft saved] & sd & H2 & H).
  apply bind_ok in H as (result & se & H3 & H).
  apply bind_ok in H as ([] & sf & H4 & H).
  apply bind_ok in H as ([] & sg & H5 & H).
  exists run, ft, saved, result, sc, sd, se, sf, sg. auto 10.
Qed.

(** A main block that returns on a non-empty query went through
    submit_query. *)
Lemma main_block_query_ok (user_ns : namespace) (result_set : option (nat * ResultSet))
    (options : gmap string pyval) (suppress_results : pyval) (query : string)
    (conn : Conn) (s1 s2 : St) (v : nsval) :
  main_block env self user_ns result_set options suppress_results query conn s1
  = (Ok v, s2) ->
  str_empty query = false ->
  exists conn' sb,
    emits any_event (st_world s1) (st_world sb)
    /\ submit_query env self user_ns result_set options suppress_results query conn' sb
        = (Ok v, s2).
Proof.
  intros H Hq. unfold main_block in H.
  apply bind_ok in H as (conn' & sa & Ha & H).
  unfold with_connection in H.
  apply bind_ok in H as ([] & sa' & Ha' & H).
  apply bind_ok in H as ([] & sb & Hb & H).
  rewrite Hq in H. exists conn', sb. split; [|exact H].
  etransitivity; [eapply steps_run; [|exact Ha]|].
  { unfold_lifecycle. unfold validate, emit. steps_with emits_prim. }
  etransitivity; [eapply steps_run; [|exact Ha']|eapply steps_run; [|exact Hb]];
    unfold_lifecycle; steps_with emits_prim.
Qed.

Lemma return_result_state (saved_result fork_table_id : nat) (result : nsval)
    (s s' : St) (r : res nsval) :
  return_result env saved_result fork_table_id result s = (r, s') -> s' = s.
Proof.
  unfold return_result, bind, call, get_world, ret.
  destruct (result_is _ _ _ _) as [e|[|]]; intros [= _ <-]; reflexivity.
Qed.

Lemma bind_last_raw_result_state (options : gmap string pyval) (saved_result : nat)
    (s s' : St) (r : res unit) :
  bind_last_raw_result self options saved_result s = (r, s') ->
  w_shell_ns (st_world s')
  = {[ key_of (opt_last_raw_result_var self options) := NResultSet saved_result ]}
      ∪ w_shell_ns (st_world s)
  /\ w_results (st_world s') = w_results (st_world s)
  /\ w_trace (st_world s') = w_trace (st_world s).
Proof.
  unfold bind_last_raw_result, shell_update, modify. intros [= _ <-]. auto.
Qed.

End Pipeline.

(** C5: when the main block of an invocation with a non-empty query returns
    without raising, the shell namespace binds the last-raw-result name
    (the last_raw_result_var option, else the trait) to the ResultSet that
    wraps the raw result the invocation obtained from conn.execute,
    whatever the value execute_query returns. *)
Theorem last_raw_result_rebound :
  forall (env : Env) (self : Kqlmagic) (parsed : Parsed) (user_ns : namespace)
         (result_set : option (nat * ResultSet)) (w : World) (v : nsval) (w' : World),
    main_block_returns env self parsed user_ns result_set w v w' ->
    strip (p_query parsed) <> EmptyString ->
    execute_query env self parsed user_ns result_set w = (Ok v, w')
    /\ exists ref rs,
         w_shell_ns w' !! key_of (opt_last_raw_result_var self (p_options parsed))
         = Some (NResultSet ref)
         /\ w_results w' !! ref = Some rs
         /\ In (EvExecuted (rs_raw rs)) (new_events w w').
Proof.
  intros env self parsed user_ns result_set w v w' Hret Hq.
  assert (str_empty (strip (p_query parsed)) = false) as Hq'
    by (unfold str_empty; apply String.eqb_neq; exact Hq).
  split.
  { apply execute_query_of_main_block; [exact Hret | rewrite Hq'; reflexivity]. }
  destruct Hret as (conn & s1 & s2 & Hres & Hmain & ->).
  apply resolves_emits in Hres.
  apply main_block_query_ok in Hmain as (conn' & sb & Eb & Hsub); [|exact Hq'].
  apply submit_query_ok in Hsub
    as (run & ft & saved & result & sc & sd & se & sf & sg
        & H1 & H2 & H3 & H4 & H5 & H6).
  apply run_query_executed in H1 as Ex.
  apply model_query_results_holds in H2 as Hh.
  pose proof (bind_result_holds env self _ _ _ (qr_raw_query_result run) _ _ _ H3) as Hh3.
  pose proof (report_result_holds env self _ _ _ _ _ _ _ (qr_raw_query_result run)
                _ _ _ H4) as Hh4.
  apply bind_last_raw_result_state in H5 as (Hns & Hrs & Htr).
  apply return_result_state in H6 as ->.
  destruct (Hh4 (Hh3 Hh)) as (rs & Hl & Hraw).
  exists saved, rs. split; [|split].
  - rewrite Hns. apply lookup_union_Some_l. apply lookup_singleton_eq.
  - rewrite Hrs. exact Hl.
  - rewrite Hraw. apply emitted_new_events.
    eapply emits_emitted; [exact Hres|].
    eapply emits_emitted; [exact Eb|].
    eapply emitted_emits; [exact Ex|].
    instantiate (1 := any_event).
    etransitivity; [eapply steps_run; [|exact H2]|].
    { unfold_lifecycle. steps_with emits_prim. }
    etransitivity; [eapply steps_run; [|exact H3]|].
    { unfold_lifecycle. steps_with emits_prim. }
    etransitivity; [eapply steps_run; [|exact H4]|].
    { unfold_lifecycle. steps_with emits_prim. }
    apply emits_same_trace. exact Htr.
Qed.

Lemma last_raw_result_rebound_witness :
  let parsed := Scenario.invocation "T | take 1" ""
                  {[ "suppress_results" := VBool true ]} in
  let w := Scenario.one_connection in
  let run := execute_query Scenario.healthy default_magic parsed ∅ None w in
  strip (p_query parsed) <> EmptyString
  /\ run = (Ok (NResultSet 0), snd run)
  /\ exists ref rs,
       w_shell_ns (snd run) !! KStr "_kql_raw_result_" = Some (NResultSet ref)
       /\ w_results (snd run) !! ref = Some rs
       /\ In (EvExecuted (rs_raw rs)) (new_events w (snd run)).
Proof.
  intros parsed w run.
  assert (strip (p_query parsed) <> EmptyString) as Hq by (vm_compute; discriminate).
  split; [exact Hq|].
  assert (main_block_returns Scenario.healthy default_magic parsed ∅ None w
            (NResultSet 0) (snd run)) as Hret.
  { eexists Scenario.kusto_conn, _, _. split; [|split].
    - unfold resolves. vm_compute. reflexivity.
    - vm_compute. reflexivity.
    - vm_compute. reflexivity. }
  exact (last_raw_result_rebound Scenario.healthy default_magic parsed ∅ None w
           (NResultSet 0) (snd run) Hret Hq).
Defined.

(* --------------------------------------------------------------------- *)
(* Binding the result: columns, dataframe, result variable               *)
(* --------------------------------------------------------------------- *)

Section Binding.

Variables (env : Env) (self : Kqlmagic).

Lemma when_feedback_state (b : bool) (ref : nat) (msg : string) (s s' : St)
    (r : res unit) :
  when b (append_feedback ref msg) s = (r, s') ->
  r = Ok tt
  /\ w_shell_ns (st_world s') = w_shell_ns (st_world s)
  /\ w_trace (st_world s') = w_trace (st_world s).
Proof.
  unfold when, append_feedback, modify, ret.
  destruct b; intros [= <- <-]; auto.
Qed.


(** Lines 642-662 with auto_dataframe on and a result_var on a top-level
    invocation: what saved_result.to_dataframe() returns, called in the
    world [wd], goes to that variable, and result is None. *)
Lemma bind_result_dataframe (options : gmap string pyval) (saved_result : nat)
    (s s' : St) (result : nsval) :
  opt_auto_dataframe self options = true ->
  truthy (opt_get options "result_var") = true ->
  bind_result env self None options saved_result s = (Ok result, s') ->
  result = NVal VNone
  /\ exists df wd,
       env_to_dataframe env wd saved_result = inr df
       /\ emits any_event (st_world s) wd
       /\ (forall raw, holds_raw saved_result raw (st_world s) ->
                       holds_raw saved_result raw wd)
       /\ emitted (EvDataframe saved_result df) (st_world s) (st_world s')
       /\ w_shell_ns (st_world s') !! key_of (opt_get options "result_var")
          = Some (NDataFrame df).
Proof.
  intros Hd Hr H. unfold bind_result in H. rewrite Hd, Hr in H. simpl in H.
  apply bind_ok in H as (r1 & s1 & H1 & H).
  apply bind_ok in H as (r2 & s2 & H2 & H).
  apply bind_ok in H2 as ([] & sa & Ha & H2).
  apply bind_ok in H2 as ([] & sb & Hb & H2).
  apply bind_ok in H2 as (df & sc & Hc & H2).
  apply bind_ok in H2 as ([] & sd & Hd' & H2).
  injection H2 as <- <-.
  apply bind_ok in H as ([] & se & He & H).
  apply when_feedback_state in He as (_ & _ & Hte).
  unfold bind, shell_update, modify, ret in H. injection H as <- <-.
  assert (emits any_event (st_world s) (st_world sb)) as E1.
  { etransitivity; [eapply steps_run; [|exact H1]|].
    { unfold_lifecycle. steps_with emits_prim. }
    etransitivity; [eapply steps_run; [|exact Ha]|eapply steps_run; [|exact Hb]];
      unfold_lifecycle; steps_with emits_prim. }
  assert (env_to_dataframe env (st_world sb) saved_result = inr df /\ sc = sb)
    as [Hcall ->].
  { unfold call in Hc. destruct (env_to_dataframe env (st_world sb) saved_result);
      [discriminate | injection Hc as -> ->; auto]. }
  split; [reflexivity|]. exists df, (st_world sb). split; [exact Hcall|].
  split; [exact E1|]. split; [|split].
  - intros raw Hraw.
    assert (forall A (m : M A) (x y : St) (r : res A),
               steps (preserving (holds_raw saved_result raw)) m ->
               m x = (r, y) -> holds_raw saved_result raw (st_world x) ->
               holds_raw saved_result raw (st_world y)) as Hkeep.
    { intros A m x y r Hm Hrun. exact (Hm _ _ _ Hrun). }
    eapply Hkeep; [|exact Hb|].
    { unfold_lifecycle. steps_with ltac:(intros ?; holds_raw_prim). }
    eapply Hkeep; [|exact Ha|].
    { unfold_lifecycle. steps_with ltac:(intros ?; holds_raw_prim). }
    eapply Hkeep; [|exact H1|exact Hraw].
    unfold_lifecycle. steps_with ltac:(intros ?; holds_raw_prim).
  - eapply emits_emitted; [exact E1|].
    eapply (emitted_emits any_event); [|apply emits_same_trace; simpl; exact Hte].
    injection Hd' as <-. apply emitted_emit.
  - simpl. apply lookup_union_Some_l. apply lookup_singleton_eq.
Qed.

(** A query that returns: the invocation up to line 642, where the result
    set [saved_result] wraps the raw result conn.execute returned and the
    shell namespace is still as the invocation found it, and the steps
    after it. *)
Lemma query_phases (parsed : Parsed) (user_ns : namespace)
    (result_set : option (nat * ResultSet)) (w : World) (v : nsval) (w' : World) :
  main_block_returns env self parsed user_ns result_set w v w' ->
  str_empty (strip (p_query parsed)) = false ->
  exists conn run fork_table_id saved_result result sd se sf s2,
    emits any_event w (st_world sd)
    /\ w_shell_ns (st_world sd) = w_shell_ns w
    /\ holds_raw saved_result (qr_raw_query_result run) (st_world sd)
    /\ emitted (EvExecuted (qr_raw_query_result run)) w (st_world sd)
    /\ bind_result env self result_set (p_options parsed) saved_result sd = (Ok result, se)
    /\ report_result env self result_set (p_options parsed)
         (opt_suppress_results self (p_options parsed)) conn run saved_result result se
       = (Ok tt, sf)
    /\ w_shell_ns (st_world s2)
       = {[ key_of (opt_last_raw_result_var self (p_options parsed))
              := NResultSet saved_result ]} ∪ w_shell_ns (st_world sf)
    /\ w_trace (st_world s2) = w_trace (st_world sf)
    /\ return_result env saved_result fork_table_id result s2 = (Ok v, s2)
    /\ w' = st_world s2.
Proof.
  intros (conn & s1 & s2 & Hres & Hmain & ->) Hq.
  assert (w_shell_ns (st_world s1) = w_shell_ns w) as Hns1.
  { unfold resolves in Hres.
    eapply (steps_run same_shell_ns) in Hres; [exact Hres|].
    unfold_lifecycle. steps_with same_ns_prim. }
  apply resolves_emits in Hres.
  unfold main_block in Hmain.
  apply bind_ok in Hmain as (conn' & sa & Ha & Hmain).
  unfold with_connection in Hmain.
  apply bind_ok in Hmain as ([] & sa' & Ha' & Hmain).
  apply bind_ok in Hmain as ([] & sb & Hb & Hsub).
  rewrite Hq in Hsub.
  assert (emits any_event (st_world s1) (st_world sb)
          /\ same_shell_ns (st_world s1) (st_world sb)) as [Eb Nb].
  { split.
    - etransitivity; [eapply steps_run; [|exact Ha]|].
      { unfold_lifecycle. unfold validate, emit. steps_with emits_prim. }
      etransitivity; [eapply steps_run; [|exact Ha']|eapply steps_run; [|exact Hb]];
        unfold_lifecycle; steps_with emits_prim.
    - etransitivity; [eapply steps_run; [|exact Ha]|].
      { unfold_lifecycle. unfold validate, emit. steps_with same_ns_prim. }
      etransitivity; [eapply steps_run; [|exact Ha']|eapply steps_run; [|exact Hb]];
        unfold_lifecycle; steps_with same_ns_prim. }
  apply submit_query_ok in Hsub
    as (run & ft & saved & result & sc & sd & se & sf & sg
        & H1 & H2 & H3 & H4 & H5 & H6).
  apply run_query_executed in H1 as Ex.
  apply model_query_results_holds in H2 as Hh.
  assert (same_shell_ns (st_world sb) (st_world sd)) as Nd.
  { etransitivity; [eapply steps_run; [|exact H1]|eapply steps_run; [|exact H2]];
      unfold_lifecycle; steps_with same_ns_prim. }
  assert (emits any_event (st_world sc) (st_world sd)) as Ed.
  { eapply steps_run; [|exact H2]. unfold_lifecycle. steps_with emits_prim. }
  apply bind_last_raw_result_state in H5 as (Hns5 & _ & Htr5).
  pose proof H6 as Hs. apply return_result_state in Hs. subst s2.
  exists conn', run, ft, saved, result, sd, se, sf, sg.
  split; [|split; [|split; [|split]]].
  - etransitivity; [exact Hres|]. etransitivity; [exact Eb|].
    etransitivity; [|exact Ed]. eapply emitted_any, Ex.
  - unfold same_shell_ns in Nb, Nd. congruence.
  - exact Hh.
  - eapply emits_emitted; [exact Hres|].
    eapply emits_emitted; [exact Eb|].
    eapply emitted_emits; [exact Ex | exact Ed].
  - auto 10.
Qed.

End Binding.



(** C7, as far as it holds: on a successful top-level query with
    auto_dataframe active and result_var naming x, execute_query returns
    None and x is bound to the dataframe that saved_result.to_dataframe()
    returned, unless x is also the last-raw-result name: line 693 then
    rebinds it to the ResultSet.  The dataframe is the one to_dataframe()
    gives for the result set that wraps what conn.execute returned, which
    is the one bound to the last-raw-result name, asked in a world [wd] of
    the invocation. *)
Theorem dataframe_bound_to_result_var :
  forall (env : Env) (self : Kqlmagic) (parsed : Parsed) (user_ns : namespace)
         (w : World) (v : nsval) (w' : World) (x : pyval),
    opt_auto_dataframe self (p_options parsed) = true ->
    opt_get (p_options parsed) "result_var" = x ->
    truthy x = true ->
    main_block_returns env self parsed user_ns None w v w' ->
    strip (p_query parsed) <> EmptyString ->
    execute_query env self parsed user_ns None w = (Ok (NVal VNone), w')
    /\ exists saved df wd,
         let last := key_of (opt_last_raw_result_var self (p_options parsed)) in
         env_to_dataframe env wd saved = inr df
         /\ emits any_event w wd
         /\ (exists rs, w_results wd !! saved = Some rs
                        /\ In (EvExecuted (rs_raw rs)) (new_events w w'))
         /\ In (EvDataframe saved df) (new_events w w')
         /\ w_shell_ns w' !! last = Some (NResultSet saved)
         /\ w_shell_ns w' !! key_of x
            = Some (if decide (key_of x = last) then NResultSet saved else NDataFrame df).
Proof.
  intros env self parsed user_ns w v w' x Hd Hx Ht Hret Hq. subst x.
  assert (str_empty (strip (p_query parsed)) = false) as Hq'
    by (unfold str_empty; apply String.eqb_neq; exact Hq).
  pose proof (execute_query_of_main_block env self _ _ _ _ _ _ Hret) as Hrun.
  rewrite Hq' in Hrun. specialize (Hrun eq_refl).
  destruct (query_phases env self _ _ _ _ _ _ Hret Hq')
    as (conn & run & ft & saved & result & sd & se & sf & s2
        & Ed & Nd & Hh & Ex & H3 & H4 & Hns5 & Htr5 & H6 & ->).
  apply bind_result_dataframe in H3
    as (-> & df & wd & Hcall & Ewd & Hhd & Hdf & Hns); try assumption.
  pose proof (report_result_same_shell_ns env self _ _ _ _ _ _ _ _ _ _ H4) as Hns4.
  unfold same_shell_ns in Hns4.
  assert (emits any_event (st_world se) (st_world s2)) as Epost.
  { etransitivity; [eapply steps_run; [|exact H4]|apply emits_same_trace; exact Htr5].
    unfold_lifecycle. steps_with emits_prim. }
  unfold return_result, bind, call, ret in H6. simpl in H6.
  injection H6 as <-. split; [exact Hrun|].
  exists saved, df, wd. cbv zeta.
  split; [exact Hcall|]. split; [etransitivity; eassumption|].
  split; [|split; [|split]].
  - destruct (Hhd _ Hh) as (rs & Hl & Hraw). exists rs. split; [exact Hl|].
    rewrite Hraw. apply emitted_new_events.
    eapply (emitted_emits any_event); [exact Ex|].
    etransitivity; [|exact Epost]. eapply emitted_any, Hdf.
  - apply emitted_new_events.
    eapply emits_emitted; [exact Ed|].
    eapply (emitted_emits any_event); [exact Hdf | exact Epost].
  - rewrite Hns5. apply lookup_union_Some_l. apply lookup_singleton_eq.
  - rewrite Hns5. case_decide as Hk.
    + rewrite Hk. apply lookup_union_Some_l. apply lookup_singleton_eq.
    + rewrite lookup_union_r by (apply lookup_singleton_ne; congruence).
      rewrite Hns4. exact Hns.
Qed.

Lemma dataframe_bound_to_result_var_witness :
  let parsed := Scenario.invocation "StormEvents | take 3" ""
                  {[ "auto_dataframe" := VBool true; "result_var" := VStr "x" ]} in
  let w := Scenario.one_connection in
  let run := execute_query Scenario.healthy default_magic parsed ∅ None w in
  run = (Ok (NVal VNone), snd run)
  /\ exists saved df wd,
       env_to_dataframe Scenario.healthy wd saved = inr df
       /\ emits any_event w wd
       /\ (exists rs, w_results wd !! saved = Some rs
                      /\ In (EvExecuted (rs_raw rs)) (new_events w (snd run)))
       /\ In (EvDataframe saved df) (new_events w (snd run))
       /\ w_shell_ns (snd run) !! KStr "_kql_raw_result_" = Some (NResultSet saved)
       /\ w_shell_ns (snd run) !! KStr "x" = Some (NDataFrame df).
Proof.
  intros parsed w run.
  assert (main_block_returns Scenario.healthy default_magic parsed ∅ None w
            (NVal VNone) (snd run)) as Hret.
  { eexists Scenario.kusto_conn, _, _. split; [|split].
    - unfold resolves. vm_compute. reflexivity.
    - vm_compute. reflexivity.
    - vm_compute. reflexivity. }
  apply (dataframe_bound_to_result_var Scenario.healthy default_magic parsed ∅ w
           (NVal VNone) (snd run) (VStr "x")).
  - vm_compute. reflexivity.
  - vm_compute. reflexivity.
  - vm_compute. reflexivity.
  - exact Hret.
  - vm_compute. discriminate.
Defined.

(** C7 as stated fails for the result_var "_kql_raw_result_" (the default
    last-raw-result name): after the query the variable holds the
    ResultSet, not the dataframe bound at line 661. *)
Lemma result_var_rebound_by_last_raw_result :
  let parsed := Scenario.invocation "StormEvents | take 3" ""
                  {[ "auto_dataframe" := VBool true;
                     "result_var" := VStr "_kql_raw_result_" ]} in
  let run := execute_query Scenario.healthy default_magic parsed ∅ None
               Scenario.one_connection in
  fst run = Ok (NVal VNone)
  /\ In (EvDataframe 0 (mkDataFrame 9)) (w_trace (snd run))
  /\ w_shell_ns (snd run) !! KStr "_kql_raw_result_" = Some (NResultSet 0)
  /\ ~ (exists df, w_shell_ns (snd run) !! KStr "_kql_raw_result_" = Some (NDataFrame df)).
Proof.
  vm_compute. repeat split; try reflexivity.
  - do 9 right. left. reflexivity.
  - intros (df & H). discriminate H.
Qed.

(* --------------------------------------------------------------------- *)
(* Error handling                                                        *)
(* --------------------------------------------------------------------- *)

Section Errors.

Variables (env : Env) (self : Kqlmagic).

Lemma show_connection_info_run (options : gmap string pyval) (s : St) :
  _show_connection_info env self options s
  = (Ok tt,
     mkSt (match _get_connection_info env self options (st_world s) with
           | [] => st_world s
           | msg => w_emit (EvConnInfo msg) (st_world s)
           end) (st_connection_string s)).
Proof.
  unfold _show_connection_info, bind, get_world, when, emit, modify, ret.
  destruct (_get_connection_info env self options (st_world s)); simpl.
  - destruct s; reflexivity.
  - reflexivity.
Qed.

(** The handler of the second [try], run on the exception [e]. *)
Lemma outer_handler_run (options : gmap string pyval) (e : exn) (s : St) :
  exists s',
    outer_handler env self options (opt_suppress_results self options) e s
    = (if opt_short_errors self options then Ok (NVal VNone) else Raise e, s')
    /\ w_trace (st_world s')
       = w_trace (st_world s) ++ conn_info_events env self options s
           ++ (if opt_short_errors self options then [EvDanger (exn_msg e)] else []).
Proof.
  unfold outer_handler, conn_info_events, bind, get_connection_string, get_world.
  destruct (str_empty (st_connection_string s) && has_connections (st_world s)
            && negb (truthy (opt_suppress_results self options))); simpl.
  - rewrite show_connection_info_run.
    destruct (_get_connection_info env self options (st_world s)) as [|m l];
      destruct (opt_short_errors self options); simpl;
      eexists; (split; [reflexivity|]); simpl;
      rewrite <- ?app_assoc, ?app_nil_r; reflexivity.
  - destruct (opt_short_errors self options); simpl;
      eexists; (split; [reflexivity|]); simpl; rewrite ?app_nil_r; reflexivity.
Qed.

Lemma In_new_events (e : Event) (w w' : World) (pre post : list Event) :
  emits any_event w w' ->
  In e post ->
  In e (drop (length (w_trace w)) (w_trace w' ++ pre ++ post)).
Proof.
  intros (evs & H & _) Hin. rewrite H, <- app_assoc, drop_app_length.
  apply in_or_app. right. apply in_or_app. right. exact Hin.
Qed.

Lemma resolution_raises_inv (parsed : Parsed) (user_ns : namespace) (w : World)
    (e : exn) (s : St) :
  resolution_raises env self parsed user_ns w e s ->
  exists s0,
    help_preamble env self user_ns (mkSt w (p_connection parsed)) = (Ok tt, s0)
    /\ get_connection env (p_connection parsed) user_ns (p_options parsed) s0
        = (Raise e, s)
    /\ emits any_event w (st_world s).
Proof.
  unfold resolution_raises. intros H.
  pose proof H as E.
  eapply (steps_run (emits any_event)) in E;
    [|unfold_lifecycle; steps_with emits_prim].
  apply bind_raise in H as [H | (u & s0 & H0 & H)].
  - destruct (help_preamble_ok env self user_ns (mkSt w (p_connection parsed)))
      as (s0 & H0 & _). congruence.
  - destruct u. eauto.
Qed.

Lemma bind_raise_eq {A B : Type} (m : M A) (k : A -> M B) (s s1 : St) (e : exn) :
  m s = (Raise e, s1) -> bind m k s = (Raise e, s1).
Proof. unfold bind. intros ->. reflexivity. Qed.

(** The handlers of the first [try], run on what get_connection raised. *)
Lemma resolve_connection_raise (cs : string) (user_ns : namespace)
    (options : gmap string pyval) (s0 s : St) (e : exn) :
  get_connection env cs user_ns options s0 = (Raise e, s) ->
  caught_at_resolution e = true ->
  exists s',
    resolve_connection env self cs user_ns options s0
    = (if opt_short_errors self options then Ok None else Raise e, s')
    /\ (if opt_short_errors self options
        then exists post,
               w_trace (st_world s') = w_trace (st_world s) ++ EvDanger (exn_msg e) :: post
        else s' = s).
Proof.
  intros Hget Hcls. unfold resolve_connection.
  assert (is_exception e = true) as Hex
    by (unfold caught_at_resolution in Hcls; unfold is_exception;
        destruct (exn_cls e); congruence).
  rewrite (try_except_caught _ _ _ _ _ (bind_raise_eq _ _ _ _ _ Hget) Hex).
  unfold caught_at_resolution in Hcls.
  destruct (exn_cls e); try discriminate Hcls;
    destruct (opt_short_errors self options).
  - unfold bind, emit, modify, ret. simpl. eexists. split; [reflexivity|].
    simpl. rewrite <- app_assoc. eexists. reflexivity.
  - eexists. split; reflexivity.
  - unfold bind at 1. unfold emit, modify. unfold bind.
    rewrite show_connection_info_run. unfold ret. eexists. split; [reflexivity|].
    simpl.
    destruct (_get_connection_info _ _ _ _); simpl.
    + eexists. reflexivity.
    + rewrite <- app_assoc. eexists. reflexivity.
  - eexists. split; reflexivity.
Qed.

(** What the handlers of the first [try] do not name leaves it as it is. *)
Lemma resolve_connection_propagates (cs : string) (user_ns : namespace)
    (options : gmap string pyval) (s0 s : St) (e : exn) :
  get_connection env cs user_ns options s0 = (Raise e, s) ->
  caught_at_resolution e = false ->
  resolve_connection env self cs user_ns options s0 = (Raise e, s).
Proof.
  intros Hget Hcls. unfold resolve_connection, try_except.
  rewrite (bind_raise_eq _ _ _ _ _ Hget).
  unfold caught_at_resolution in Hcls. unfold is_exception.
  destruct (exn_cls e); try discriminate Hcls; reflexivity.
Qed.

End Errors.

(** C2, as far as it holds.  An exception [e] out of
    Connection.get_connection (line 521): a KqlEngineError or a
    ConnectionError is displayed as a danger message with None returned
    when short_errors (the option, else the trait) is on, and propagates
    with nothing displayed when it is off; an exception of any other class
    propagates with nothing displayed, whatever short_errors says.  An
    exception [e] out of the main block: an Exception is handled by the
    outer handler, which first displays what _show_connection_info selects
    (see [conn_info_events]), then displays the danger message and returns
    None when short_errors is on, and re-raises [e] otherwise, adding
    nothing else; what is not an Exception (KeyboardInterrupt, SystemExit)
    propagates with nothing displayed, whatever short_errors says. *)
Theorem errors_shortened_or_propagated :
  forall (env : Env) (self : Kqlmagic) (parsed : Parsed) (user_ns : namespace)
         (result_set : option (nat * ResultSet)) (w : World) (e : exn) (s : St)
         (r : res nsval) (w' : World),
    str_empty (strip (p_query parsed)) && str_empty (p_connection parsed) = false ->
    execute_query env self parsed user_ns result_set w = (r, w') ->
    (resolution_raises env self parsed user_ns w e s ->
     if caught_at_resolution e
     then r = (if opt_short_errors self (p_options parsed)
               then Ok (NVal VNone) else Raise e)
          /\ (if opt_short_errors self (p_options parsed)
              then In (EvDanger (exn_msg e)) (new_events w w')
              else w' = st_world s)
     else r = Raise e /\ w' = st_world s)
    /\ (main_block_raises env self parsed user_ns result_set w e s ->
        if is_exception e
        then r = (if opt_short_errors self (p_options parsed)
                  then Ok (NVal VNone) else Raise e)
             /\ w_trace w'
                = w_trace (st_world s) ++ conn_info_events env self (p_options parsed) s
                    ++ (if opt_short_errors self (p_options parsed)
                        then [EvDanger (exn_msg e)] else [])
        else r = Raise e /\ w' = st_world s).
Proof.
  intros env self parsed user_ns result_set w e s r w' Hne Hrun. split.
  - intros Hres.
    apply resolution_raises_inv in Hres as (s0 & Hpre & Hget & Hem).
    unfold execute_query, execute_query_m in Hrun.
    rewrite (bind_eq _ _ _ _ _ Hpre), Hne in Hrun.
    destruct (caught_at_resolution e) eqn:Hcls.
    + destruct (resolve_connection_raise env self _ _ _ _ _ _ Hget Hcls)
        as (s' & Hres & Hd).
      destruct (opt_short_errors self (p_options parsed)).
      * rewrite (bind_eq _ _ _ _ _ Hres) in Hrun. injection Hrun as <- <-.
        split; [reflexivity|]. destruct Hd as (post & Htr).
        unfold new_events. rewrite Htr.
        apply (In_new_events _ _ _ [] (EvDanger (exn_msg e) :: post) Hem).
        left. reflexivity.
      * rewrite (bind_raise_eq _ _ _ _ _ Hres) in Hrun. injection Hrun as <- <-.
        subst s'. split; reflexivity.
    + rewrite (bind_raise_eq _ _ _ _ _
                 (resolve_connection_propagates env self _ _ _ _ _ _ Hget Hcls)) in Hrun.
      injection Hrun as <- <-. split; reflexivity.
  - intros (conn & s1 & Hres & Hm). unfold resolves in Hres.
    apply bind_ok in Hres as (u & s0 & Hpre & Hres).
    unfold execute_query, execute_query_m in Hrun.
    rewrite (bind_eq _ _ _ _ _ Hpre), Hne, (bind_eq _ _ _ _ _ Hres) in Hrun.
    destruct (is_exception e) eqn:Hex.
    + rewrite (try_except_caught _ _ _ _ _ Hm Hex) in Hrun.
      destruct (outer_handler_run env self (p_options parsed) e s) as (s' & Hh & Htr).
      rewrite Hh in Hrun. injection Hrun as <- <-. auto.
    + rewrite (try_except_passed _ _ _ _ _ Hm Hex) in Hrun.
      injection Hrun as <- <-. split; reflexivity.
Qed.

Lemma errors_shortened_or_propagated_witness :
  let env := Scenario.backend None (Some (mkExn OtherException "Forbidden"))
               Scenario.kusto_conn in
  let parsed := Scenario.invocation "T | take 1" "" ∅ in
  let w := Scenario.one_connection in
  let run := execute_query env default_magic parsed ∅ None w in
  fst run = Ok (NVal VNone)
  /\ w_trace (snd run)
     = [EvGetConnection ""; EvValidate 1] ++ [EvConnInfo [" * Samples@help"]]
         ++ [EvDanger "Forbidden"].
Proof.
  intros env parsed w run.
  set (e := mkExn OtherException "Forbidden").
  set (s1 := snd (bind (help_preamble env default_magic ∅)
                    (fun _ => resolve_connection env default_magic
                                (p_connection parsed) ∅ (p_options parsed))
                    (mkSt w (p_connection parsed)))).
  set (s := snd (main_block env default_magic ∅ None (p_options parsed)
                   (opt_suppress_results default_magic (p_options parsed))
                   (strip (p_query parsed)) Scenario.kusto_conn s1)).
  assert (main_block_raises env default_magic parsed ∅ None w e s) as Hraise.
  { exists Scenario.kusto_conn, s1. split.
    - unfold resolves. vm_compute. reflexivity.
    - vm_compute. reflexivity. }
  destruct (errors_shortened_or_propagated env default_magic parsed ∅ None w e s
              (fst run) (snd run)) as (_ & Hmain).
  - vm_compute. reflexivity.
  - vm_compute. reflexivity.
  - destruct (Hmain Hraise) as (Hr & Ht).
    split; [exact Hr|]. rewrite Ht. vm_compute. reflexivity.
Defined.

(** C2 as stated fails twice on the concrete session.  With short_errors on,
    an exception out of Connection.get_connection that is neither a
    KqlEngineError nor a ConnectionError leaves execute_query as it is.  And
    with show_conn_info set to "None", an error in the main block of an
    invocation without connection string, with a registered connection and
    without suppression, is displayed without any connection list before it. *)
Lemma unlisted_resolution_error_propagates :
  let e := mkExn OtherException "KeyError: 'MY_CLUSTER'" in
  (opt_short_errors default_magic ∅ = true
   /\ fst (execute_query (Scenario.backend (Some e) None Scenario.kusto_conn)
             default_magic (Scenario.invocation "T | take 1" "%MY_CLUSTER%" ∅) ∅ None
             Scenario.one_connection)
      = Raise e)
  /\ (let run := execute_query
                   (Scenario.backend None (Some (mkExn OtherException "Forbidden"))
                      Scenario.kusto_conn)
                   default_magic
                   (Scenario.invocation "T | take 1" ""
                      {[ "show_conn_info" := VStr "None" ]})
                   ∅ None Scenario.one_connection in
      has_connections Scenario.one_connection = true
      /\ fst run = Ok (NVal VNone)
      /\ w_trace (snd run) = [EvGetConnection ""; EvValidate 1; EvDanger "Forbidden"]).
Proof. vm_compute. repeat split; reflexivity. Qed.

(** With short_errors on, a KeyboardInterrupt during the validation probe
    leaves execute_query as it is, and no handler displays anything. *)
Example keyboard_interrupt_propagates :
  let e := mkExn BaseException "KeyboardInterrupt" in
  let run := execute_query (Scenario.backend None (Some e) Scenario.kusto_conn)
               default_magic (Scenario.invocation "T | take 1" "" ∅) ∅ None
               Scenario.one_connection in
  opt_short_errors default_magic ∅ = true
  /\ fst run = Raise e
  /\ w_trace (snd run) = [EvGetConnection ""; EvValidate 1].
Proof. vm_compute. repeat split; reflexivity. Qed.

(* --------------------------------------------------------------------- *)
(* One-time side effects per connection                                  *)
(* --------------------------------------------------------------------- *)

Lemma conn_flag_set_mono (c c' : nat) (flag flag' : string) (w : World) :
  truthy (conn_flag w c flag) = true ->
  truthy (conn_flag (w_set_conn_flag c' flag' w) c flag) = true.
Proof.
  unfold conn_flag, conn_options_of, w_set_conn_flag, opt_get. simpl. intros H.
  destruct (decide (c' = c)) as [->|Hc].
  - rewrite lookup_insert_eq. simpl.
    destruct (decide (flag' = flag)) as [->|Hf].
    + rewrite lookup_insert_eq. reflexivity.
    + rewrite lookup_insert_ne by exact Hf. exact H.
  - rewrite lookup_insert_ne by exact Hc. exact H.
Qed.

Lemma conn_flag_set_eq (c : nat) (flag : string) (w : World) :
  truthy (conn_flag (w_set_conn_flag c flag w) c flag) = true.
Proof.
  unfold conn_flag, conn_options_of, w_set_conn_flag, opt_get. simpl.
  rewrite lookup_insert_eq. simpl. rewrite lookup_insert_eq. reflexivity.
Qed.

#[global] Instance quiet_preorder (p : Event -> bool) (flag : string) (c : nat) :
  PreOrder (quiet p flag c).
Proof.
  split.
  - intros w. split; [reflexivity | auto].
  - intros w1 w2 w3 [E1 F1] [E2 F2]. split; [etransitivity; eassumption | auto].
Qed.

Lemma count_events_app (p : Event -> bool) (l1 l2 : list Event) :
  count_events p (l1 ++ l2) = (count_events p l1 + count_events p l2)%nat.
Proof. unfold count_events. rewrite List.filter_app, length_app. reflexivity. Qed.

(** A quiet step keeps the gate invariant. *)
Lemma gate_step (p : Event -> bool) (flag : string) (c : nat) (w0 w w' : World) :
  quiet p flag c w w' -> gate_inv p flag c w0 w -> gate_inv p flag c w0 w'.
Proof.
  intros [(new & Hn & Fn) Hflag] (evs & He & Hc & Hd).
  exists (evs ++ new). split; [rewrite Hn, He; symmetry; apply app_assoc|].
  rewrite count_events_app, (count_events_none p new Fn), Nat.add_0_r. auto.
Qed.

Lemma steps_weaken {A : Type} (R R' : relation World) (m : M A) :
  (forall w w', R w w' -> R' w w') -> steps R m -> steps R' m.
Proof. intros HR Hm s r s' H. apply HR. eapply Hm, H. Qed.

Lemma quiet_same (p : Event -> bool) (flag : string) (c : nat) (w w' : World) :
  w_trace w' = w_trace w ->
  w_conn_options w' = w_conn_options w ->
  quiet p flag c w w'.
Proof.
  intros Ht Ho. split; [apply emits_same_trace; exact Ht|].
  unfold conn_flag, conn_options_of. rewrite Ho. auto.
Qed.

Lemma quiet_emit (p : Event -> bool) (flag : string) (c : nat) (e : Event) (w : World) :
  p e = false -> quiet p flag c w (w_emit e w).
Proof.
  intros Hp. split; [apply emits_emit; rewrite Hp; reflexivity | auto].
Qed.

Lemma quiet_set_flag (p : Event -> bool) (flag flag' : string) (c c' : nat) (w : World) :
  quiet p flag c w (w_set_conn_flag c' flag' w).
Proof.
  split; [apply emits_same_trace; reflexivity | apply conn_flag_set_mono].
Qed.

Ltac quiet_prim :=
  first [ apply quiet_same; reflexivity
        | apply quiet_emit; reflexivity
        | apply quiet_set_flag ].

Section Gates.

Variables (env : Env) (self : Kqlmagic).
Hypothesis keeps : registry_keeps_flags env.

Variables (p : Event -> bool) (flag : string) (c : nat).

(** Resolution is quiet for every gate, by the hypothesis on the registry. *)
Lemma get_connection_quiet (cs : string) (user_ns : namespace)
    (options : gmap string pyval) :
  (forall e, p (EvGetConnection e) = false) ->
  steps (quiet p flag c) (get_connection env cs user_ns options).
Proof.
  intros Hp s r s'. unfold get_connection, bind, emit, modify, call, ret. simpl.
  destruct (env_get_connection env _ cs user_ns options)
    as [e|[[conn registry] overlays]] eqn:E.
  - intros [= <- <-]. simpl. apply quiet_emit, Hp.
  - intros [= <- <-]. simpl. split.
    + exists [EvGetConnection cs]. simpl. rewrite Hp. auto.
    + intros Hf. unfold conn_flag, conn_options_of. simpl.
      eapply keeps in E. apply E.
      unfold conn_flag, conn_options_of. simpl. exact Hf.
Qed.

End Gates.

Section SchemaRuns.

Variables (env : Env) (self : Kqlmagic).

Lemma st_eta (s : St) : mkSt (st_world s) (st_connection_string s) = s.
Proof. destruct s; reflexivity. Qed.

(** The three ways lines 569-574 can run. *)
Lemma popup_schema_step_run (conn : Conn) (options : gmap string pyval)
    (s s1 : St) (r : res pyval) :
  popup_schema_step env self conn options s = (r, s1) ->
  (popup_wanted self conn options (st_world s) = false /\ r = Ok VNone /\ s1 = s)
  \/ (popup_wanted self conn options (st_world s) = true
      /\ exists e, r = Raise e /\ s1 = st_emit [EvGetSchemaFilePath (conn_ref conn)] s)
  \/ (popup_wanted self conn options (st_world s) = true
      /\ exists p, r = Ok p
                   /\ s1 = st_emit [EvGetSchemaFilePath (conn_ref conn);
                                    EvPopupSchema p (conn_ref conn)] s).
Proof.
  unfold popup_schema_step, popup_wanted, get_schema_file_path, st_emit.
  unfold bind at 1. unfold get_world.
  destruct (truthy (opt_get options "popup_schema")
            || (negb (truthy (conn_flag (st_world s) (conn_ref conn)
                                "auto_popup_schema_done"))
                && opt_auto_popup_schema self options)).
  - unfold bind, emit, modify, call, ret. simpl.
    destruct (env_get_schema_file_path env _ conn options) as [e|p];
      intros [= <- <-]; right; [left | right]; eauto.
  - intros [= <- <-]. left. auto.
Qed.

(** The four ways lines 577-580 can run. *)
Lemma help_menu_step_run (conn : Conn) (options : gmap string pyval)
    (schema_file_path : pyval) (s s' : St) (r : res unit) :
  help_menu_step env conn options schema_file_path s = (r, s') ->
  (help_wanted conn options (st_world s) = false /\ r = Ok tt /\ s' = s)
  \/ (help_wanted conn options (st_world s) = true
      /\ ((truthy schema_file_path = true /\ r = Ok tt
           /\ s' = st_set_flag (conn_ref conn) "add_schema_to_help_done"
                     (st_emit [EvAddMenuItem (conn_ref conn) (conn_name conn)
                                 schema_file_path] s))
          \/ (truthy schema_file_path = false
              /\ exists e, r = Raise e
                           /\ s' = st_emit [EvGetSchemaFilePath (conn_ref conn)] s)
          \/ (truthy schema_file_path = false
              /\ exists p, r = Ok tt
                   /\ s' = st_set_flag (conn_ref conn) "add_schema_to_help_done"
                             (st_emit [EvGetSchemaFilePath (conn_ref conn);
                                       EvAddMenuItem (conn_ref conn) (conn_name conn) p]
                                s)))).
Proof.
  unfold help_menu_step, help_wanted, get_schema_file_path, st_emit, st_set_flag.
  unfold bind at 1. unfold get_world.
  destruct (negb (truthy (conn_flag (st_world s) (conn_ref conn)
                            "add_schema_to_help_done"))
            && truthy (opt_get options "add_schema_to_help")).
  - destruct (truthy schema_file_path).
    + unfold bind, emit, modify, ret. simpl. intros [= <- <-]. right. split; [reflexivity|].
      left. auto.
    + unfold bind, emit, modify, call, ret. simpl.
      destruct (env_get_schema_file_path env _ conn options) as [e|p];
        intros [= <- <-]; right; (split; [reflexivity|]); right; [left | right]; eauto.
  - intros [= <- <-]. left. auto.
Qed.

End SchemaRuns.

Lemma emit_all_trace (evs : list Event) (w : World) :
  w_trace (fold_left (fun w e => w_emit e w) evs w) = w_trace w ++ evs.
Proof.
  revert w. induction evs as [|e evs IH]; intros w; simpl.
  - symmetry. apply app_nil_r.
  - rewrite IH. simpl. rewrite <- app_assoc. reflexivity.
Qed.

Lemma emit_all_conn_options (evs : list Event) (w : World) :
  w_conn_options (fold_left (fun w e => w_emit e w) evs w) = w_conn_options w.
Proof. revert w. induction evs as [|e evs IH]; intros w; simpl; [|rewrite IH]; reflexivity. Qed.

Lemma emit_all_conn_flag (evs : list Event) (w : World) (c : nat) (flag : string) :
  conn_flag (fold_left (fun w e => w_emit e w) evs w) c flag = conn_flag w c flag.
Proof. unfold conn_flag, conn_options_of. rewrite emit_all_conn_options. reflexivity. Qed.

Lemma emit_all_quiet (p : Event -> bool) (flag : string) (c : nat)
    (evs : list Event) (w : World) :
  forallb (fun e => negb (p e)) evs = true ->
  quiet p flag c w (fold_left (fun w e => w_emit e w) evs w).
Proof.
  intros F. split.
  - exists evs. split; [apply emit_all_trace | exact F].
  - rewrite emit_all_conn_flag. auto.
Qed.

(** The gated emission: events outside [p], then an event that is in [p]
    only for connection [c] with its flag unset, then the flag is set. *)
Lemma gate_fire (p : Event -> bool) (flag : string) (c c' : nat)
    (pre : list Event) (e : Event) (w0 w : World) :
  gate_inv p flag c w0 w ->
  forallb (fun e => negb (p e)) pre = true ->
  (p e = true -> c' = c /\ truthy (conn_flag w c flag) = false) ->
  gate_inv p flag c w0
    (w_set_conn_flag c' flag (fold_left (fun w e => w_emit e w) (pre ++ [e]) w)).
Proof.
  intros HJ Fpre He. destruct (p e) eqn:Hp.
  - destruct (He eq_refl) as [-> Hoff].
    destruct HJ as (evs & Ht & Hc & Hd).
    assert (count_events p evs = 0%nat) as H0.
    { destruct (count_events p evs) as [|[|n]]; [reflexivity | | lia].
      rewrite Hd in Hoff by reflexivity. discriminate. }
    exists (evs ++ pre ++ [e]). split; [|split].
    + simpl. rewrite emit_all_trace, Ht, <- app_assoc. reflexivity.
    + rewrite !count_events_app, H0, (count_events_none p pre Fpre).
      unfold count_events. simpl. rewrite Hp. simpl. lia.
    + intros _. apply conn_flag_set_eq.
  - eapply gate_step; [|exact HJ].
    etransitivity; [apply emit_all_quiet | apply quiet_set_flag].
    rewrite forallb_app, Fpre. simpl. rewrite Hp. reflexivity.
Qed.

Section SchemaGates.

Variables (env : Env) (self : Kqlmagic) (c : nat) (w0 : World).

Local Abbreviation popup_gate := (gate_inv (is_popup_of c) "auto_popup_schema_done" c w0).
Local Abbreviation help_gate := (gate_inv (is_add_menu_item_of c) "add_schema_to_help_done" c w0).

Lemma help_menu_step_quiet_for_popup (conn : Conn) (options : gmap string pyval)
    (schema_file_path : pyval) :
  steps (quiet (is_popup_of c) "auto_popup_schema_done" c)
    (help_menu_step env conn options schema_file_path).
Proof. unfold_lifecycle. steps_with quiet_prim. Qed.

Lemma popup_schema_step_quiet_for_help (conn : Conn) (options : gmap string pyval) :
  steps (quiet (is_add_menu_item_of c) "add_schema_to_help_done" c)
    (popup_schema_step env self conn options).
Proof. unfold_lifecycle. steps_with quiet_prim. Qed.

Lemma is_popup_of_true (p : pyval) (c' : nat) :
  is_popup_of c (EvPopupSchema p c') = true -> c' = c.
Proof. simpl. intros H. apply Nat.eqb_eq in H. congruence. Qed.

Lemma is_add_menu_item_of_true (name : string) (p : pyval) (c' : nat) :
  is_add_menu_item_of c (EvAddMenuItem c' name p) = true -> c' = c.
Proof. simpl. intros H. apply Nat.eqb_eq in H. congruence. Qed.

(** Lines 569-580 keep the popup gate when popup_schema is not passed. *)
Lemma schema_side_effects_popup_gate (conn : Conn) (options : gmap string pyval) :
  truthy (opt_get options "popup_schema") = false ->
  steps (preserving popup_gate) (schema_side_effects env self conn options).
Proof.
  intros Hno s r s' H HJ. unfold schema_side_effects in H. unfold bind at 1 in H.
  destruct (popup_schema_step env self conn options s) as [rp s1] eqn:E1.
  apply popup_schema_step_run in E1
    as [(Hw & -> & ->) | [(Hw & e & -> & ->) | (Hw & p & -> & ->)]].
  - unfold bind at 1 in H. unfold modify in H.
    eapply (steps_run _ _ _ _ _ (help_menu_step_quiet_for_popup _ _ _)) in H.
    eapply gate_step; [exact H|]. simpl.
    eapply gate_step; [apply quiet_set_flag | exact HJ].
  - injection H as <- <-. simpl.
    eapply gate_step; [apply quiet_emit; reflexivity | exact HJ].
  - unfold bind at 1 in H. unfold modify in H.
    eapply (steps_run _ _ _ _ _ (help_menu_step_quiet_for_popup _ _ _)) in H.
    eapply gate_step; [exact H|]. simpl.
    apply (gate_fire _ _ c (conn_ref conn) [EvGetSchemaFilePath (conn_ref conn)]
             (EvPopupSchema p (conn_ref conn)) w0 (st_world s) HJ eq_refl).
    intros Hp. apply is_popup_of_true in Hp. split; [exact Hp|].
    unfold popup_wanted in Hw. rewrite Hno in Hw. simpl in Hw.
    apply andb_true_iff in Hw as [Hoff _]. apply negb_true_iff in Hoff.
    rewrite <- Hp. exact Hoff.
Qed.

(** Lines 577-580 keep the help gate. *)
Lemma help_menu_step_help_gate (conn : Conn) (options : gmap string pyval)
    (schema_file_path : pyval) :
  steps (preserving help_gate) (help_menu_step env conn options schema_file_path).
Proof.
  intros s r s' H HJ.
  assert (help_wanted conn options (st_world s) = true ->
          forall name p,
            is_add_menu_item_of c (EvAddMenuItem (conn_ref conn) name p) = true ->
            conn_ref conn = c
            /\ truthy (conn_flag (st_world s) c "add_schema_to_help_done") = false)
    as Hoff.
  { intros Hw name p Hp. apply is_add_menu_item_of_true in Hp. split; [exact Hp|].
    unfold help_wanted in Hw. apply andb_true_iff in Hw as [Hoff _].
    apply negb_true_iff in Hoff. rewrite <- Hp. exact Hoff. }
  apply help_menu_step_run in H
    as [(Hw & -> & ->) | (Hw & [(Ht & -> & ->) | [(Ht & e & -> & ->) | (Ht & p & -> & ->)]])].
  - exact HJ.
  - simpl.
    apply (gate_fire _ _ c (conn_ref conn) []
             (EvAddMenuItem (conn_ref conn) (conn_name conn) schema_file_path)
             w0 (st_world s) HJ eq_refl).
    apply Hoff, Hw.
  - simpl. eapply gate_step; [apply quiet_emit; reflexivity | exact HJ].
  - simpl.
    apply (gate_fire _ _ c (conn_ref conn) [EvGetSchemaFilePath (conn_ref conn)]
             (EvAddMenuItem (conn_ref conn) (conn_name conn) p)
             w0 (st_world s) HJ eq_refl).
    apply Hoff, Hw.
Qed.

(** Lines 569-580 keep the help gate. *)
Lemma schema_side_effects_help_gate (conn : Conn) (options : gmap string pyval) :
  steps (preserving help_gate) (schema_side_effects env self conn options).
Proof.
  unfold schema_side_effects.
  apply steps_bind; [apply _ | | intros sfp; apply steps_bind; [apply _ | |intros _]].
  - eapply steps_weaken; [|apply popup_schema_step_quiet_for_help].
    intros w w' Hq HJ. eapply gate_step; eassumption.
  - apply steps_modify. intros w HJ.
    eapply gate_step; [apply quiet_set_flag | exact HJ].
  - apply help_menu_step_help_gate.
Qed.

End SchemaGates.

Ltac gate_prim := intros ?; eapply gate_step; [ | eassumption]; quiet_prim.

Section SessionGates.

Variables (env : Env) (self : Kqlmagic).
Hypothesis keeps : registry_keeps_flags env.

Variables (c : nat) (w0 : World).

Lemma get_connection_gate (p : Event -> bool) (flag : string) (cs : string)
    (user_ns : namespace) (options : gmap string pyval) :
  (forall e, p (EvGetConnection e) = false) ->
  steps (preserving (gate_inv p flag c w0)) (get_connection env cs user_ns options).
Proof.
  intros Hp. eapply steps_weaken; [|apply (get_connection_quiet env keeps p flag c), Hp].
  intros w w' Hq HJ. eapply gate_step; eassumption.
Qed.

Lemma execute_query_popup_gate (parsed : Parsed) (user_ns : namespace)
    (result_set : option (nat * ResultSet)) :
  truthy (opt_get (p_options parsed) "popup_schema") = false ->
  steps (preserving (gate_inv (is_popup_of c) "auto_popup_schema_done" c w0))
    (execute_query_m env self parsed user_ns result_set).
Proof.
  intros Hno.
  pose proof (fun cs ns o =>
                get_connection_gate (is_popup_of c) "auto_popup_schema_done" cs ns o
                  (fun _ => eq_refl)) as Hget.
  pose proof (fun conn =>
                schema_side_effects_popup_gate env self c w0 conn (p_options parsed) Hno)
    as Hsch.
  unfold_outer. steps_with gate_prim.
Qed.

Lemma execute_query_help_gate (parsed : Parsed) (user_ns : namespace)
    (result_set : option (nat * ResultSet)) :
  steps (preserving (gate_inv (is_add_menu_item_of c) "add_schema_to_help_done" c w0))
    (execute_query_m env self parsed user_ns result_set).
Proof.
  pose proof (fun cs ns o =>
                get_connection_gate (is_add_menu_item_of c) "add_schema_to_help_done"
                  cs ns o (fun _ => eq_refl)) as Hget.
  pose proof (fun conn =>
                schema_side_effects_help_gate env self c w0 conn (p_options parsed))
    as Hsch.
  unfold_outer. steps_with gate_prim.
Qed.

Lemma invoke_world (w : World) (call : Parsed * namespace) :
  invoke env self w call
  = st_world (snd (execute_query_m env self (fst call) (snd call) None
                     (mkSt w (p_connection (fst call))))).
Proof.
  unfold invoke, execute_query.
  destruct (execute_query_m _ _ _ _ _ _) as [r s]. reflexivity.
Qed.

Lemma run_session_gate (p : Event -> bool) (flag : string)
    (calls : list (Parsed * namespace)) (w : World) :
  Forall (fun call =>
            steps (preserving (gate_inv p flag c w0))
              (execute_query_m env self (fst call) (snd call) None)) calls ->
  gate_inv p flag c w0 w ->
  gate_inv p flag c w0 (run_session env self calls w).
Proof.
  unfold run_session. intros Hall. revert w.
  induction Hall as [|call calls Hcall _ IH]; intros w HJ; simpl; [exact HJ|].
  apply IH. rewrite invoke_world.
  destruct (execute_query_m env self (fst call) (snd call) None
              (mkSt w (p_connection (fst call)))) as [r s] eqn:E.
  exact (Hcall _ _ _ E HJ).
Qed.

End SessionGates.

Lemma gate_inv_init (p : Event -> bool) (flag : string) (c : nat) (w : World) :
  gate_inv p flag c w w.
Proof.
  exists []. unfold count_events. simpl.
  split; [symmetry; apply app_nil_r|]. split; [lia | discriminate].
Qed.

Lemma gate_inv_count (p : Event -> bool) (flag : string) (c : nat) (w w' : World) :
  gate_inv p flag c w w' -> (count_events p (new_events w w') <= 1)%nat.
Proof.
  intros (evs & Ht & Hc & _). unfold new_events. rewrite Ht, drop_app_length. exact Hc.
Qed.

Lemma new_events_app (w w' : World) (l : list Event) :
  w_trace w' = w_trace w ++ l -> new_events w w' = l.
Proof. intros H. unfold new_events. rewrite H. apply drop_app_length. Qed.

Ltac explicit_new_events :=
  match goal with
  | |- context [new_events ?w ?w'] =>
      let Hl := fresh "Hl" in
      eassert (new_events w w' = _) as Hl
        by (apply new_events_app; simpl; rewrite <- ?app_assoc; simpl;
            first [reflexivity | symmetry; apply app_nil_r]);
      rewrite !Hl in *; clear Hl
  end.

(** Lines 569-580 in one invocation: when the popup branch computed a
    non-empty path, the schema file path is computed once and the help
    registration, if any, uses that path. *)
Lemma schema_file_path_reused (env : Env) (self : Kqlmagic) (conn : Conn)
    (options : gmap string pyval) (s s' : St) (r : res unit) (p : pyval) :
  schema_side_effects env self conn options s = (r, s') ->
  In (EvPopupSchema p (conn_ref conn)) (new_events (st_world s) (st_world s')) ->
  truthy p = true ->
  count_events is_get_schema_file_path (new_events (st_world s) (st_world s')) = 1%nat
  /\ forall c' name p',
       In (EvAddMenuItem c' name p') (new_events (st_world s) (st_world s')) -> p' = p.
Proof.
  intros H. unfold schema_side_effects in H. unfold bind at 1 in H.
  destruct (popup_schema_step env self conn options s) as [rp s1] eqn:E1.
  assert (forall sfp s1,
             help_menu_step env conn options sfp
               (st_set_flag (conn_ref conn) "auto_popup_schema_done" s1) = (r, s') ->
             forall l,
               w_trace (st_world s1) = w_trace (st_world s) ++ l ->
               (forall q, In (EvPopupSchema q (conn_ref conn)) l -> q = sfp) ->
               count_events is_get_schema_file_path l = 1%nat ->
               (forall c' name p', ~ In (EvAddMenuItem c' name p') l) ->
               In (EvPopupSchema p (conn_ref conn)) (new_events (st_world s) (st_world s')) ->
               truthy p = true ->
               count_events is_get_schema_file_path
                 (new_events (st_world s) (st_world s')) = 1%nat
               /\ forall c' name p',
                    In (EvAddMenuItem c' name p')
                      (new_events (st_world s) (st_world s')) -> p' = p) as Hhelp.
  { clear. intros sfp s1 H l Hl Hpop Hcnt Hno.
    assert (forall l', In (EvPopupSchema p (conn_ref conn)) (l ++ l') ->
                       (forall q, ~ In (EvPopupSchema q (conn_ref conn)) l') -> p = sfp)
      as Hsfp.
    { intros l' Hin Hn. apply in_app_or in Hin as [Hin|Hin]; [auto | destruct (Hn _ Hin)]. }
    apply help_menu_step_run in H
      as [(_ & -> & ->) | (_ & [(Ht & -> & ->) | [(Ht & e & -> & ->) | (Ht & q & -> & ->)]])].
    - rewrite (new_events_app _ _ l) by (simpl; exact Hl).
      intros Hin Hp. split; [exact Hcnt|]. intros c' name p' Hq. destruct (Hno _ _ _ Hq).
    - rewrite (new_events_app _ _ (l ++ [EvAddMenuItem (conn_ref conn) (conn_name conn) sfp]))
        by (simpl; rewrite Hl, <- !app_assoc; reflexivity).
      intros Hin Hp.
      assert (p = sfp) as -> by (apply (Hsfp _ Hin); intros q [Hq|[]]; discriminate Hq).
      split.
      + rewrite count_events_app, Hcnt. reflexivity.
      + intros c' name p' Hq. apply in_app_or in Hq as [Hq|[Hq|[]]];
          [destruct (Hno _ _ _ Hq) | congruence].
    - rewrite (new_events_app _ _ (l ++ [EvGetSchemaFilePath (conn_ref conn)]))
        by (simpl; rewrite Hl, <- !app_assoc; reflexivity).
      intros Hin Hp.
      assert (p = sfp) as -> by (apply (Hsfp _ Hin); intros q0 [Hq|[]]; discriminate Hq).
      congruence.
    - rewrite (new_events_app _ _
                 (l ++ [EvGetSchemaFilePath (conn_ref conn);
                        EvAddMenuItem (conn_ref conn) (conn_name conn) q]))
        by (simpl; rewrite Hl, <- !app_assoc; reflexivity).
      intros Hin Hp.
      assert (p = sfp) as ->
          by (apply (Hsfp _ Hin); intros q0 [Hq|[Hq|[]]]; discriminate Hq).
      congruence. }
  apply popup_schema_step_run in E1
    as [(Hw & -> & ->) | [(Hw & e & -> & ->) | (Hw & p0 & -> & ->)]].
  - unfold bind at 1 in H. unfold modify in H.
    intros Hin. exfalso. revert Hin.
    apply help_menu_step_run in H
      as [(_ & -> & ->) | (_ & [(Ht & -> & ->) | [(Ht & e & -> & ->) | (Ht & q & -> & ->)]])];
      try discriminate Ht; explicit_new_events; simpl; intuition discriminate.
  - injection H as <- <-. explicit_new_events. simpl. intuition discriminate.
  - unfold bind at 1 in H. unfold modify in H.
    apply (Hhelp p0 _ H [EvGetSchemaFilePath (conn_ref conn);
                         EvPopupSchema p0 (conn_ref conn)]).
    + simpl. rewrite <- app_assoc. reflexivity.
    + intros q [Hq|[Hq|[]]]; [discriminate Hq | congruence].
    + reflexivity.
    + intros c' name p' [Hq|[Hq|[]]]; discriminate Hq.
Qed.

(** C8, as far as it holds.  On a registry that never clears a flag of a
    connection's options overlay, over any sequence of top-level
    invocations and for every connection: the help-menu registration of
    the schema happens at most once, and the schema popup happens at most
    once provided no invocation passes the explicit popup_schema option
    (which pops up whatever the auto_popup_schema_done flag says).  And
    within one invocation, a non-empty schema file path computed for the
    popup is the one the help registration uses, without a second
    computation. *)
Theorem schema_side_effects_at_most_once :
  forall (env : Env) (self : Kqlmagic),
    registry_keeps_flags env ->
    (forall (calls : list (Parsed * namespace)) (w : World) (c : nat),
        (count_events (is_add_menu_item_of c)
           (new_events w (run_session env self calls w)) <= 1)%nat
        /\ (no_explicit_popup calls ->
            (count_events (is_popup_of c)
               (new_events w (run_session env self calls w)) <= 1)%nat))
    /\ (forall (conn : Conn) (options : gmap string pyval) (s s' : St)
               (r : res unit) (p : pyval),
          schema_side_effects env self conn options s = (r, s') ->
          In (EvPopupSchema p (conn_ref conn)) (new_events (st_world s) (st_world s')) ->
          truthy p = true ->
          count_events is_get_schema_file_path
            (new_events (st_world s) (st_world s')) = 1%nat
          /\ forall c' name p',
               In (EvAddMenuItem c' name p') (new_events (st_world s) (st_world s')) ->
               p' = p).
Proof.
  intros env self keeps. split; [|apply schema_file_path_reused].
  intros calls w c. split.
  - eapply gate_inv_count, (run_session_gate env self c w); [|apply gate_inv_init].
    apply Forall_forall. intros call _.
    apply execute_query_help_gate, keeps.
  - intros Hno.
    eapply gate_inv_count, (run_session_gate env self c w); [|apply gate_inv_init].
    unfold no_explicit_popup in Hno. rewrite Forall_forall in *.
    intros call Hin. apply execute_query_popup_gate; [exact keeps | exact (Hno _ Hin)].
Qed.

Lemma healthy_registry_keeps_flags : registry_keeps_flags Scenario.healthy.
Proof.
  intros w cs user_ns options conn registry overlays H c flag Hf.
  simpl in H. destruct (String.prefix _ cs); injection H as _ _ <-; exact Hf.
Qed.

Lemma schema_side_effects_at_most_once_witness :
  let q := (Scenario.invocation "T | take 1" ""
              {[ "add_schema_to_help" := VBool true ]}, (∅ : namespace)) in
  let w' := run_session Scenario.healthy default_magic [q; q] Scenario.one_connection in
  registry_keeps_flags Scenario.healthy
  /\ no_explicit_popup [q; q]
  /\ (count_events (is_add_menu_item_of 1) (new_events Scenario.one_connection w') <= 1)%nat
  /\ (count_events (is_popup_of 1) (new_events Scenario.one_connection w') <= 1)%nat.
Proof.
  intros q w'.
  assert (no_explicit_popup [q; q]) as Hno by (repeat constructor).
  destruct (schema_side_effects_at_most_once Scenario.healthy default_magic
              healthy_registry_keeps_flags) as [Hsession _].
  destruct (Hsession [q; q] Scenario.one_connection 1%nat) as [Hhelp Hpopup].
  split; [exact healthy_registry_keeps_flags|]. split; [exact Hno|].
  split; [exact Hhelp | exact (Hpopup Hno)].
Defined.

(** The two gates do fire, once, over two queries on a fresh connection. *)
Example schema_side_effects_fire_once :
  let q := (Scenario.invocation "T | take 1" ""
              {[ "add_schema_to_help" := VBool true ]}, (∅ : namespace)) in
  let w' := run_session Scenario.healthy default_magic [q; q] Scenario.one_connection in
  count_events (is_add_menu_item_of 1) (w_trace w') = 1%nat
  /\ count_events (is_popup_of 1) (w_trace w') = 1%nat
  /\ count_events is_get_schema_file_path (w_trace w') = 1%nat.
Proof. vm_compute. repeat split; reflexivity. Qed.

(** C8 as stated fails for the popup: with the explicit popup_schema option
    the popup is triggered on every invocation, also on a connection whose
    auto_popup_schema_done flag is set. *)
Lemma explicit_popup_schema_pops_up_again :
  let q := (Scenario.invocation "T | take 1" "" {[ "popup_schema" := VBool true ]},
            (∅ : namespace)) in
  let w1 := run_session Scenario.healthy default_magic [q] Scenario.one_connection in
  let w2 := run_session Scenario.healthy default_magic [q; q] Scenario.one_connection in
  truthy (conn_flag w1 1 "auto_popup_schema_done") = true
  /\ count_events (is_popup_of 1) (new_events Scenario.one_connection w2) = 2%nat.
Proof. vm_compute. split; reflexivity. Qed.

(* --------------------------------------------------------------------- *)
(* The retry of lines 544-565, the early return, the option fallbacks    *)
(* --------------------------------------------------------------------- *)

Section Retry.

Variables (env : Env) (self : Kqlmagic).

Lemma retry_condition_spec (msg : string) (conn : Conn) :
  retry_condition msg conn = true <->
  0 < find msg "AADSTS50079"
  /\ 0 < find msg "multi-factor authentication"
  /\ conn_kind conn = KustoEngine.
Proof.
  unfold retry_condition, is_kusto.
  rewrite !andb_true_iff, !Z.ltb_lt.
  destruct (conn_kind conn); intuition congruence.
Qed.

(** The probe of an unvalidated connection fails with [e] and the test of
    line 551 does not hold: no retry, [e] leaves the validation as it is. *)
Lemma validate_connection_no_retry (conn : Conn) (user_ns : namespace)
    (options : gmap string pyval) (s : St) (e : exn) :
  truthy (conn_flag (st_world s) (conn_ref conn) "validate_connection_string_done") = false ->
  opt_validate_connection_string self options = true ->
  env_validate env (w_emit (EvValidate (conn_ref conn)) (st_world s)) conn options = Some e ->
  retry_condition (exn_msg e) conn = false ->
  validate_connection env self conn user_ns options s
  = (Raise e, mkSt (w_emit (EvValidate (conn_ref conn)) (st_world s))
                (st_connection_string s)).
Proof.
  intros Hflag Hopt Hval Hcond.
  unfold validate_connection, validate, try_except, bind, get_world, emit, modify,
    call_unit, raise. simpl.
  rewrite Hflag, Hopt. simpl. rewrite Hval, Hcond.
  destruct (is_exception e); reflexivity.
Qed.

(** The probe of an unvalidated connection fails with the Exception [e]
    and the test of line 551 holds: what is left to run. *)
Lemma validate_connection_retry (conn : Conn) (user_ns : namespace)
    (options : gmap string pyval) (s : St) (e : exn) :
  truthy (conn_flag (st_world s) (conn_ref conn) "validate_connection_string_done") = false ->
  opt_validate_connection_string self options = true ->
  env_validate env (w_emit (EvValidate (conn_ref conn)) (st_world s)) conn options = Some e ->
  is_exception e = true ->
  retry_condition (exn_msg e) conn = true ->
  validate_connection env self conn user_ns options s
  = bind (get_connection env (code_connection_string conn) user_ns options)
      (fun conn' => bind (validate env conn' options) (fun _ => ret conn'))
      (mkSt (w_emit (EvInfo "replaced connection with code authentication")
               (w_emit (EvDanger (exn_msg e))
                  (w_emit (EvValidate (conn_ref conn)) (st_world s))))
         (code_connection_string conn)).
Proof.
  intros Hflag Hopt Hval Hex Hcond.
  unfold validate_connection, try_except, get_world.
  unfold bind at 1. rewrite Hflag, Hopt. simpl.
  unfold bind at 1. unfold validate at 1. unfold bind at 1 2 3.
  unfold emit at 1, modify at 1, call_unit at 1. simpl. rewrite Hval, Hex, Hcond.
  unfold bind at 1, emit at 1, modify at 1, ret at 1. simpl.
  unfold bind at 1, emit at 1, modify at 1. simpl.
  unfold bind at 1, set_connection_string. simpl. reflexivity.
Qed.

(** The early return of lines 514-515: nothing but the preamble runs. *)
Lemma execute_query_empty_invocation (parsed : Parsed) (user_ns : namespace)
    (result_set : option (nat * ResultSet)) (w : World) :
  strip (p_query parsed) = EmptyString ->
  p_connection parsed = EmptyString ->
  exists w',
    execute_query env self parsed user_ns result_set w = (Ok (NVal VNone), w')
    /\ count_events is_conn_info (new_events w w') = 0%nat.
Proof.
  intros Hq Hc.
  destruct (help_preamble_ok env self user_ns (mkSt w (p_connection parsed)))
    as (s0 & Hpre & _).
  exists (st_world s0). split.
  - unfold execute_query, execute_query_m.
    rewrite (bind_eq _ _ _ _ _ Hpre), Hq, Hc. reflexivity.
  - apply count_events_none.
    eapply (steps_run (emits (fun e => negb (is_conn_info e)))) in Hpre.
    + apply emits_new_events in Hpre. tauto.
    + unfold_lifecycle. steps_with emits_prim.
Qed.

(** The options that execute_query reads with their trait as default. *)
Lemma options_fall_back_to_traits (options : gmap string pyval) :
  (options !! "feedback" = None -> opt_feedback self options = feedback self)
  /\ (options !! "short_errors" = None ->
      opt_short_errors self options = short_errors self)
  /\ (options !! "auto_dataframe" = None ->
      opt_auto_dataframe self options = auto_dataframe self)
  /\ (options !! "columns_to_local_vars" = None ->
      opt_columns_to_local_vars self options = columns_to_local_vars self)
  /\ (options !! "validate_connection_string" = None ->
      opt_validate_connection_string self options = validate_connection_string self)
  /\ (options !! "auto_popup_schema" = None ->
      opt_auto_popup_schema self options = auto_popup_schema self)
  /\ (options !! "last_raw_result_var" = None ->
      opt_last_raw_result_var self options = VStr (last_raw_result_var self))
  /\ (options !! "enable_suppress_result" = None ->
      truthy (opt_get options "suppress_results") = true ->
      truthy (opt_suppress_results self options) = enable_suppress_result self).
Proof.
  unfold opt_feedback, opt_short_errors, opt_auto_dataframe, opt_columns_to_local_vars,
    opt_validate_connection_string, opt_auto_popup_schema, opt_last_raw_result_var,
    opt_suppress_results, opt_get_d, opt_get, py_and.
  repeat split; intros H; rewrite ?H; try reflexivity.
  intros Hs. destruct (options !! "suppress_results") as [v|]; simpl in *;
    [rewrite Hs; reflexivity | discriminate].
Qed.

(** add_schema_to_help is the exception: the trait is not read at all. *)
Lemma help_menu_step_ignores_trait (conn : Conn) (options : gmap string pyval)
    (schema_file_path : pyval) (s : St) :
  options !! "add_schema_to_help" = None ->
  help_menu_step env conn options schema_file_path s = (Ok tt, s).
Proof.
  intros H. unfold help_menu_step, bind, get_world, opt_get. rewrite H. simpl.
  rewrite andb_false_r. reflexivity.
Qed.

End Retry.

(** One retry, with the device-code connection string of the same cluster
    and database, when the signature sits inside the message. *)
Example mfa_retry_once :
  let msg := "Error: AADSTS50079: you must use multi-factor authentication." in
  let r := execute_query
             (Scenario.backend None (Some (mkExn OtherException msg)) Scenario.kusto_conn)
             default_magic
             (Scenario.invocation "T | take 1" "kusto://cluster('help').database('Samples')" ∅)
             ∅ None Scenario.one_connection in
  List.filter (fun e => is_get_connection e || is_validate e) (w_trace (snd r))
  = [EvGetConnection "kusto://cluster('help').database('Samples')";
     EvValidate 1;
     EvGetConnection "kusto://code().cluster('help').database('Samples')";
     EvValidate 2].
Proof. vm_compute. reflexivity. Qed.

(** No retry on an engine other than Kusto, whatever the message. *)
Example mfa_error_on_other_engine_not_retried :
  let msg := "Error: AADSTS50079: you must use multi-factor authentication." in
  let r := execute_query
             (Scenario.backend None (Some (mkExn OtherException msg))
                Scenario.appinsights_conn)
             default_magic
             (Scenario.invocation "requests | take 1" "appinsights://appid('myapp')" ∅)
             ∅ None Scenario.one_connection in
  fst r = Ok (NVal VNone)
  /\ w_trace (snd r)
     = [EvGetConnection "appinsights://appid('myapp')"; EvValidate 3; EvDanger msg].
Proof. vm_compute. split; reflexivity. Qed.

(* ===================================================================== *)
(* Further properties of execute_query                                   *)
(* ===================================================================== *)

#[global] Instance shell_ns_grows_preorder : PreOrder shell_ns_grows.
Proof.
  split; unfold shell_ns_grows; [intros w; reflexivity | intros w1 w2 w3; set_solver].
Qed.

Ltac grows_prim :=
  unfold shell_ns_grows; simpl; first [reflexivity | rewrite dom_union; set_solver].

Lemma execute_query_m_grows env self parsed user_ns result_set :
  steps shell_ns_grows (execute_query_m env self parsed user_ns result_set).
Proof. unfold_lifecycle. unfold validate, emit. steps_with grows_prim. Qed.

(** X2: execute_query touches the shell namespace only through
    user_ns.update (lines 649, 661 and 693): whatever it returns or
    raises, every name bound in the shell namespace before the call is
    still bound after it. *)
Theorem execute_query_keeps_bindings :
  forall (env : Env) (self : Kqlmagic) (parsed : Parsed) (user_ns : namespace)
         (result_set : option (nat * ResultSet)) (w : World),
    dom (w_shell_ns w)
    ⊆ dom (w_shell_ns (snd (execute_query env self parsed user_ns result_set w))).
Proof.
  intros. unfold execute_query.
  destruct (execute_query_m _ _ _ _ _ _) as [r s] eqn:E. simpl.
  exact (steps_run shell_ns_grows _ _ _ _ (execute_query_m_grows _ _ _ _ _) E).
Qed.

#[global] Instance unbound_until_executed_preorder : PreOrder unbound_until_executed.
Proof.
  split.
  - intros w. split; [reflexivity | left; reflexivity].
  - intros w1 w2 w3 [E1 H1] [E2 H2]. split; [etransitivity; eassumption|].
    destruct H2 as [H2|[raw H2]].
    + destruct H1 as [H1|[raw H1]].
      * left. congruence.
      * right. exists raw. eapply emitted_emits; eassumption.
    + right. exists raw. eapply emits_emitted; eassumption.
Qed.

Ltac unbound_prim := split; [emits_prim | left; reflexivity].

Lemma count_events_In (p : Event -> bool) (l : list Event) (e : Event) :
  count_events p l = 0%nat -> In e l -> p e = false.
Proof.
  unfold count_events. induction l as [|x l IH]; simpl; [tauto|].
  destruct (p x) eqn:Hx; simpl; [discriminate|].
  intros H [<-|Hin]; auto.
Qed.

Section Unbound.

Variables (env : Env) (self : Kqlmagic).

Lemma run_query_unbound (user_ns : namespace) (result_set : option (nat * ResultSet))
    (options : gmap string pyval) (query : string) (conn : Conn) :
  steps unbound_until_executed (run_query env user_ns result_set options query conn).
Proof. unfold_lifecycle. steps_with unbound_prim. Qed.

Lemma submit_query_unbound (user_ns : namespace) (result_set : option (nat * ResultSet))
    (options : gmap string pyval) (suppress_results : pyval) (query : string)
    (conn : Conn) :
  steps unbound_until_executed
    (submit_query env self user_ns result_set options suppress_results query conn).
Proof.
  intros s r s' H. unfold submit_query in H. unfold bind at 1 in H.
  destruct (run_query env user_ns result_set options query conn s) as [[run|e] s1] eqn:E1.
  - apply run_query_executed in E1 as Ex.
    eapply (steps_run (emits any_event)) in H.
    + split.
      * etransitivity; [|exact H]. destruct Ex as (evs & Hev & _).
        exists evs. split; [exact Hev|]. apply forallb_forall. reflexivity.
      * right. eexists. eapply emitted_emits; eassumption.
    + unfold_lifecycle. steps_with emits_prim.
  - injection H as <- <-. eapply steps_run; [apply run_query_unbound | exact E1].
Qed.

Lemma execute_query_m_unbound (parsed : Parsed) (user_ns : namespace)
    (result_set : option (nat * ResultSet)) :
  steps unbound_until_executed (execute_query_m env self parsed user_ns result_set).
Proof.
  pose proof submit_query_unbound as Hsub.
  unfold execute_query_m, resolve_connection, outer_handler, main_block,
    with_connection, schema_side_effects, popup_schema_step, help_menu_step,
    get_schema_file_path, validate_connection, validate, get_connection,
    help_preamble, submit_get_notebook_url, _show_connection_info, emit.
  steps_with unbound_prim.
Qed.

Lemma steps_bind_ret {A B : Type} (R : relation World) (a : A) (k : A -> M B) :
  steps R (k a) -> steps R (bind (ret a) k).
Proof. intros H s r s' E. exact (H s r s' E). Qed.

Lemma execute_query_m_continues (parsed : Parsed) (user_ns : namespace)
    (ref : nat) (rs : ResultSet) :
  steps (emits (continues_query (rs_parametrized_query rs)))
    (execute_query_m env self parsed user_ns (Some (ref, rs))).
Proof.
  assert (forall options query conn,
             steps (emits (continues_query (rs_parametrized_query rs)))
               (run_query env user_ns (Some (ref, rs)) options query conn)) as Hrun.
  { intros options query conn. unfold run_query.
    apply steps_bind; [apply _ | apply steps_get_world; apply _ | intros w0].
    apply steps_bind_ret. cbv beta.
    apply steps_bind; [apply _ | | intros ?].
    { unfold emit. apply steps_modify. intros w.
      apply emits_emit. apply String.eqb_refl. }
    unfold_lifecycle. steps_with emits_prim. }
  unfold execute_query_m, resolve_connection, outer_handler, main_block,
    with_connection, submit_query, return_result, bind_last_raw_result,
    report_result, bind_result, model_query_results, cache_save,
    schema_side_effects, popup_schema_step, help_menu_step,
    get_schema_file_path, validate_connection, validate,
    get_connection, help_preamble, submit_get_notebook_url,
    _show_connection_info, update_result, shell_update, append_feedback, emit.
  steps_with emits_prim.
Qed.

End Unbound.

(** X1: the updates of the shell namespace (lines 649, 661 and 693) all
    come after conn.execute has returned at line 596: an invocation during
    which conn.execute returned no result, whatever else it did and however
    it ended, leaves the shell namespace exactly as it was. *)
Theorem variables_bound_only_after_execution :
  forall (env : Env) (self : Kqlmagic) (parsed : Parsed) (user_ns : namespace)
         (result_set : option (nat * ResultSet)) (w : World),
    let w' := snd (execute_query env self parsed user_ns result_set w) in
    count_events is_executed (new_events w w') = 0%nat ->
    w_shell_ns w' = w_shell_ns w.
Proof.
  intros env self parsed user_ns result_set w w'. subst w'. unfold execute_query.
  destruct (execute_query_m _ _ _ _ _ _) as [r s] eqn:E. simpl.
  apply (steps_run unbound_until_executed) in E; [|apply execute_query_m_unbound].
  destruct E as [_ [E|[raw E]]]; [auto|].
  intros H. apply emitted_new_events in E.
  apply (count_events_In _ _ _ H) in E. discriminate.
Qed.

Lemma variables_bound_only_after_execution_witness :
  let parsed := Scenario.invocation "" "kusto://cluster('help').database('Samples')" ∅ in
  let w := Scenario.one_connection in
  let w' := snd (execute_query Scenario.healthy default_magic parsed ∅ None w) in
  count_events is_executed (new_events w w') = 0%nat
  /\ w_shell_ns w' = w_shell_ns w.
Proof.
  intros parsed w w'.
  assert (count_events is_executed (new_events w w') = 0%nat) as H
    by (vm_compute; reflexivity).
  split; [exact H|].
  exact (variables_bound_only_after_execution Scenario.healthy default_magic parsed ∅
           None w H).
Defined.

(** X3: when execute_query continues a result set (result_set is given),
    line 595 takes the stored parametrized_query of that result set:
    Parameterizer.expand is never called, and any query handed to
    conn.execute is that stored query, whatever parsed["query"] holds. *)
Theorem continuation_reuses_parametrized_query :
  forall (env : Env) (self : Kqlmagic) (parsed : Parsed) (user_ns : namespace)
         (ref : nat) (rs : ResultSet) (w : World),
    forallb (continues_query (rs_parametrized_query rs))
      (new_events w (snd (execute_query env self parsed user_ns (Some (ref, rs)) w)))
    = true.
Proof.
  intros. unfold execute_query.
  destruct (execute_query_m _ _ _ _ _ _) as [r s] eqn:E. simpl.
  apply (steps_run (emits (continues_query (rs_parametrized_query rs)))) in E;
    [|apply execute_query_m_continues].
  apply emits_new_events in E. tauto.
Qed.

#[global] Instance connect_only_preorder : PreOrder connect_only.
Proof.
  split.
  - intros w. split; [reflexivity | auto].
  - intros w1 w2 w3 (E1 & N1 & R1) (E2 & N2 & R2).
    split; [etransitivity; eassumption | split; congruence].
Qed.

Ltac connect_prim := split; [emits_prim | split; reflexivity].

Section Connect.

Variables (env : Env) (self : Kqlmagic).

Lemma validate_connection_disabled (conn : Conn) (user_ns : namespace)
    (options : gmap string pyval) (s : St) :
  opt_validate_connection_string self options = false ->
  validate_connection env self conn user_ns options s = (Ok conn, s).
Proof.
  intros H. unfold validate_connection, bind, get_world.
  rewrite H, andb_false_r. reflexivity.
Qed.

Lemma with_connection_marks (user_ns : namespace)
    (result_set : option (nat * ResultSet)) (options : gmap string pyval)
    (suppress_results : pyval) (query : string) (conn : Conn)
    (s s' : St) (r : res nsval) :
  with_connection env self user_ns result_set options suppress_results query conn s
  = (r, s') ->
  truthy (conn_flag (st_world s') (conn_ref conn) "validate_connection_string_done") = true.
Proof.
  intros H. unfold with_connection in H. unfold bind at 1 in H. simpl in H.
  eapply (steps_run (quiet is_validate "validate_connection_string_done" (conn_ref conn)))
    in H.
  - apply H. simpl. apply conn_flag_set_eq.
  - unfold_lifecycle. steps_with quiet_prim.
Qed.

Lemma outer_handler_quiet (p : Event -> bool) (flag : string) (c : nat)
    (options : gmap string pyval) (suppress_results : pyval) (e : exn) :
  (forall m, p (EvDanger m) = false) ->
  (forall m, p (EvConnInfo m) = false) ->
  steps (quiet p flag c) (outer_handler env self options suppress_results e).
Proof.
  intros Hd Hc. unfold_lifecycle.
  steps_with ltac:(first [quiet_prim | apply quiet_emit; auto]).
Qed.

Lemma execute_query_m_connect_only (parsed : Parsed) (user_ns : namespace)
    (result_set : option (nat * ResultSet)) :
  strip (p_query parsed) = EmptyString ->
  steps connect_only (execute_query_m env self parsed user_ns result_set).
Proof.
  intros Hq. unfold execute_query_m, main_block, with_connection. rewrite Hq.
  change (str_empty "") with true. cbv iota.
  unfold_lifecycle. unfold validate, emit. steps_with connect_prim.
Qed.

End Connect.

(** X4: line 567 sets validate_connection_string_done outside the test of
    line 544.  When validation is switched off for an invocation that
    resolves its connection (the validate_connection_string option, else
    the trait, is false), no probe is sent and the connection is marked
    validate_connection_string_done all the same, whether the invocation
    then returns or raises. *)
Theorem connection_marked_validated_without_probe :
  forall (env : Env) (self : Kqlmagic) (parsed : Parsed) (user_ns : namespace)
         (result_set : option (nat * ResultSet)) (w : World) (conn : Conn) (s1 : St),
    resolves env self parsed user_ns w conn s1 ->
    str_empty (strip (p_query parsed)) && str_empty (p_connection parsed) = false ->
    opt_validate_connection_string self (p_options parsed) = false ->
    let w' := snd (execute_query env self parsed user_ns result_set w) in
    truthy (conn_flag w' (conn_ref conn) "validate_connection_string_done") = true
    /\ count_events is_validate (new_events w w') = 0%nat.
Proof.
  intros env self parsed user_ns result_set w conn s1 Hres Hne Hoff w'. subst w'.
  assert (emits not_validate w (st_world s1)) as E1.
  { unfold resolves in Hres.
    eapply (steps_run (emits not_validate)) in Hres; [exact Hres|].
    apply steps_bind; [apply _ | apply help_preamble_no_probe | intros ?].
    apply resolve_connection_no_probe. }
  unfold resolves in Hres. apply bind_ok in Hres as (u & s0 & Hpre & Hres).
  unfold execute_query, execute_query_m.
  rewrite (bind_eq _ _ _ _ _ Hpre), Hne, (bind_eq _ _ _ _ _ Hres).
  assert (forall rs o sup q,
             opt_validate_connection_string self o = false ->
             main_block env self user_ns rs o sup q conn s1
             = with_connection env self user_ns rs o sup q conn s1) as Hmb.
  { intros rs o sup q Ho. unfold main_block, bind.
    rewrite validate_connection_disabled by exact Ho. reflexivity. }
  unfold try_except. rewrite Hmb by exact Hoff.
  set (c := conn_ref conn).
  destruct (with_connection _ _ _ _ _ _ _ _ s1) as [[v|e] s2] eqn:Ew.
  - simpl. split; [eapply with_connection_marks; exact Ew|].
    apply count_events_none.
    eapply (steps_run (emits not_validate)) in Ew; [|apply with_connection_no_probe].
    apply (emits_new_events not_validate). etransitivity; eassumption.
  - pose proof Ew as Hm. apply with_connection_marks in Hm.
    eapply (steps_run (emits not_validate)) in Ew; [|apply with_connection_no_probe].
    destruct (is_exception e).
    + destruct (outer_handler _ _ _ _ _ s2) as [r s3] eqn:Eh. simpl.
      eapply (steps_run (quiet is_validate "validate_connection_string_done" c)) in Eh;
        [|apply outer_handler_quiet; reflexivity].
      destruct Eh as [E3 Hk]. split; [apply Hk, Hm|].
      apply count_events_none.
      apply (emits_new_events not_validate).
      etransitivity; [exact E1|]. etransitivity; [exact Ew|exact E3].
    + simpl. split; [exact Hm|].
      apply count_events_none.
      apply (emits_new_events not_validate). etransitivity; eassumption.
Qed.

Lemma connection_marked_validated_without_probe_witness :
  let parsed := Scenario.invocation "T | take 1" ""
                  {[ "validate_connection_string" := VBool false ]} in
  let w := Scenario.one_connection in
  let w' := snd (execute_query Scenario.healthy default_magic parsed ∅ None w) in
  truthy (conn_flag w' 1 "validate_connection_string_done") = true
  /\ count_events is_validate (new_events w w') = 0%nat.
Proof.
  intros parsed w.
  refine (connection_marked_validated_without_probe Scenario.healthy default_magic
            parsed ∅ None w Scenario.kusto_conn _ _ _ _).
  - unfold resolves. vm_compute. reflexivity.
  - vm_compute. reflexivity.
  - vm_compute. reflexivity.
Defined.

(** X5: lines 582-588.  An invocation whose query is empty once stripped
    stays in the connection phase: nothing is expanded, executed, saved,
    converted or displayed as a result, and the shell namespace and the
    result sets are left as they were, however the invocation ends. *)
Theorem empty_query_only_connects :
  forall (env : Env) (self : Kqlmagic) (parsed : Parsed) (user_ns : namespace)
         (result_set : option (nat * ResultSet)) (w : World),
    strip (p_query parsed) = EmptyString ->
    connect_only w (snd (execute_query env self parsed user_ns result_set w)).
Proof.
  intros env self parsed user_ns result_set w Hq. unfold execute_query.
  destruct (execute_query_m _ _ _ _ _ _) as [r s] eqn:E. simpl.
  exact (steps_run connect_only _ _ _ _
           (execute_query_m_connect_only env self _ _ _ Hq) E).
Qed.

Lemma empty_query_only_connects_witness :
  let parsed := Scenario.invocation "   " "kusto://cluster('help').database('Samples')" ∅ in
  connect_only Scenario.one_connection
    (snd (execute_query Scenario.healthy default_magic parsed ∅ None
            Scenario.one_connection)).
Proof.
  intros parsed.
  apply (empty_query_only_connects Scenario.healthy default_magic parsed ∅ None
           Scenario.one_connection).
  vm_compute. reflexivity.
Defined.

Lemma adds_of_emits (p : Event -> bool) (w w' : World) :
  emits (fun e => negb (p e)) w w' -> adds p 0 w w'.
Proof.
  intros (evs & H & F). exists evs. split; [exact H | apply count_events_none, F].
Qed.

Lemma adds_trans (p : Event -> bool) (n m : nat) (w1 w2 w3 : World) :
  adds p n w1 w2 -> adds p m w2 w3 -> adds p (n + m) w1 w3.
Proof.
  intros (e1 & H1 & C1) (e2 & H2 & C2). exists (e1 ++ e2). split.
  - rewrite H2, H1. symmetry. apply app_assoc.
  - rewrite count_events_app. congruence.
Qed.

Lemma adds_new_events (p : Event -> bool) (n : nat) (w w' : World) :
  adds p n w w' -> count_events p (new_events w w') = n.
Proof.
  intros (evs & H & C). unfold new_events. rewrite H, drop_app_length. exact C.
Qed.

Section Saves.

Variables (env : Env) (self : Kqlmagic).

Lemma cache_save_ok (raw : RawResult) (conn : Conn) (query : string)
    (target : save_target) (options : gmap string pyval) (s s' : St) (path : string) :
  cache_save env raw conn query target options s = (Ok path, s') ->
  adds is_cache_save 1 (st_world s) (st_world s').
Proof.
  unfold cache_save, bind, emit, modify, call. simpl.
  destruct (env_cache_save env _ raw _ _ query target options); [discriminate|].
  intros [= _ <-]. exists [EvCacheSave raw]. auto.
Qed.

Lemma optional_save_ok (b : bool) (raw : RawResult) (conn : Conn) (query : string)
    (target : save_target) (options : gmap string pyval) (dflt : string)
    (s s' : St) (path : string) :
  (if b then cache_save env raw conn query target options else ret dflt) s
  = (Ok path, s') ->
  adds is_cache_save (Nat.b2n b) (st_world s) (st_world s').
Proof.
  destruct b; simpl.
  - apply cache_save_ok.
  - intros [= _ <-]. apply adds_of_emits. reflexivity.
Qed.

Lemma run_query_saves (user_ns : namespace) (result_set : option (nat * ResultSet))
    (options : gmap string pyval) (query : string) (conn : Conn)
    (s s' : St) (run : QueryRun) :
  run_query env user_ns result_set options query conn s = (Ok run, s') ->
  adds is_cache_save
    (Nat.b2n (is_not_none (opt_get options "save_as"))
     + Nat.b2n (is_not_none (opt_get options "save_to")))
    (st_world s) (st_world s').
Proof.
  intros H. unfold run_query in H.
  apply bind_ok in H as (w0 & s0 & H0 & H). injection H0 as <- <-.
  apply bind_ok in H as (pq & s1 & H1 & H).
  apply bind_ok in H as ([] & s2 & H2 & H).
  apply bind_ok in H as (raw & s3 & H3 & H).
  apply bind_ok in H as ([] & s4 & H4 & H).
  apply bind_ok in H as (w4 & s5 & H5 & H). injection H5 as <- <-.
  apply bind_ok in H as (p1 & s6 & H6 & H).
  apply bind_ok in H as (p2 & s7 & H7 & H).
  injection H as <- <-. simpl.
  assert (emits not_cache_save (st_world s) (st_world s4)) as E04.
  { etransitivity; [eapply steps_run; [|exact H1]|].
    { unfold_lifecycle. steps_with emits_prim. }
    etransitivity; [eapply steps_run; [|exact H2]|].
    { unfold_lifecycle. steps_with emits_prim. }
    etransitivity; [eapply steps_run; [|exact H3]|eapply steps_run; [|exact H4]];
      unfold_lifecycle; steps_with emits_prim. }
  apply adds_of_emits in E04.
  apply optional_save_ok in H6. apply optional_save_ok in H7.
  exact (adds_trans _ 0 _ _ _ _ E04 (adds_trans _ _ _ _ _ _ H6 H7)).
Qed.

Lemma report_result_saves (result_set : option (nat * ResultSet))
    (options : gmap string pyval) (suppress_results : pyval) (conn : Conn)
    (run : QueryRun) (saved_result : nat) (result : nsval) (s s' : St) :
  report_result env self result_set options suppress_results conn run
    saved_result result s = (Ok tt, s') ->
  adds is_cache_save (Nat.b2n (cache_wanted options)) (st_world s) (st_world s').
Proof.
  intros H. unfold report_result in H. fold (cache_wanted options) in H.
  apply bind_ok in H as ([] & s1 & H1 & H).
  assert (adds is_cache_save (Nat.b2n (cache_wanted options)) (st_world s) (st_world s1))
    as A1.
  { destruct (cache_wanted options); simpl in *.
    - apply bind_ok in H1 as (path & sa & Ha & H1).
      apply cache_save_ok in Ha.
      eapply (steps_run (emits not_cache_save)) in H1.
      + apply adds_of_emits in H1. exact (adds_trans _ 1 0 _ _ _ Ha H1).
      + unfold_lifecycle. steps_with emits_prim.
    - injection H1 as <-. apply adds_of_emits. reflexivity. }
  eapply (steps_run (emits not_cache_save)) in H.
  - apply adds_of_emits in H.
    rewrite <- (Nat.add_0_r (Nat.b2n _)). exact (adds_trans _ _ 0 _ _ _ A1 H).
  - unfold_lifecycle. steps_with emits_prim.
Qed.

Lemma resolves_no_query_event (parsed : Parsed) (user_ns : namespace) (w : World)
    (conn : Conn) (s1 : St) :
  resolves env self parsed user_ns w conn s1 ->
  emits (fun e => negb (is_query_event e)) w (st_world s1).
Proof.
  unfold resolves. intros H.
  eapply (steps_run (emits (fun e => negb (is_query_event e)))) in H; [exact H|].
  unfold_lifecycle. steps_with emits_prim.
Qed.

(** A main block that returns on a non-empty query went through
    submit_query, after a connection phase without query events. *)
Lemma main_block_query_phase (user_ns : namespace)
    (result_set : option (nat * ResultSet)) (options : gmap string pyval)
    (suppress_results : pyval) (query : string) (conn : Conn) (s1 s2 : St) (v : nsval) :
  main_block env self user_ns result_set options suppress_results query conn s1
  = (Ok v, s2) ->
  str_empty query = false ->
  exists conn' sb,
    emits (fun e => negb (is_query_event e)) (st_world s1) (st_world sb)
    /\ w_results (st_world sb) = w_results (st_world s1)
    /\ submit_query env self user_ns result_set options suppress_results query conn' sb
        = (Ok v, s2).
Proof.
  intros H Hq. unfold main_block in H.
  apply bind_ok in H as (conn' & sa & Ha & H).
  unfold with_connection in H.
  apply bind_ok in H as ([] & sa' & Ha' & H).
  apply bind_ok in H as ([] & sb & Hb & H).
  rewrite Hq in H. exists conn', sb.
  assert (connect_only (st_world s1) (st_world sb)) as (E & _ & R).
  { etransitivity; [eapply steps_run; [|exact Ha]|].
    { unfold_lifecycle. unfold validate, emit. steps_with connect_prim. }
    etransitivity; [eapply steps_run; [|exact Ha']|eapply steps_run; [|exact Hb]];
      unfold_lifecycle; steps_with connect_prim. }
  auto.
Qed.

End Saves.

(** X7: the calls of CacheClient().save in a query that returns: one for
    a save_as option that is not None (line 600), one for a save_to option
    that is not None (line 604), one for a cache option that is not None
    and differs from the use_cache option (line 664), and no other. *)
Theorem cache_saves_counted :
  forall (env : Env) (self : Kqlmagic) (parsed : Parsed) (user_ns : namespace)
         (result_set : option (nat * ResultSet)) (w : World) (v : nsval) (w' : World),
    main_block_returns env self parsed user_ns result_set w v w' ->
    strip (p_query parsed) <> EmptyString ->
    count_events is_cache_save (new_events w w')
    = (Nat.b2n (is_not_none (opt_get (p_options parsed) "save_as"))
       + Nat.b2n (is_not_none (opt_get (p_options parsed) "save_to"))
       + Nat.b2n (cache_wanted (p_options parsed)))%nat.
Proof.
  intros env self parsed user_ns result_set w v w' Hret Hq.
  assert (str_empty (strip (p_query parsed)) = false) as Hq'
    by (unfold str_empty; apply String.eqb_neq; exact Hq).
  destruct Hret as (conn & s1 & s2 & Hres & Hmain & ->).
  assert (forall w1 w2, emits (fun e => negb (is_query_event e)) w1 w2 ->
                        adds is_cache_save 0 w1 w2) as Hphase.
  { intros w1 w2 E. apply adds_of_emits. revert E. apply emits_weaken.
    intros []; simpl; congruence. }
  apply resolves_no_query_event, Hphase in Hres.
  apply main_block_query_phase in Hmain as (conn' & sb & Eb & _ & Hsub); [|exact Hq'].
  apply Hphase in Eb.
  apply submit_query_ok in Hsub
    as (run & ft & saved & result & sc & sd & se & sf & sg
        & H1 & H2 & H3 & H4 & H5 & H6).
  apply run_query_saves in H1.
  apply report_result_saves in H4.
  apply return_result_state in H6 as ->.
  assert (adds is_cache_save 0 (st_world sc) (st_world se)) as A23.
  { apply adds_of_emits.
    etransitivity; [eapply steps_run; [|exact H2]|eapply steps_run; [|exact H3]];
      unfold_lifecycle; steps_with emits_prim. }
  assert (adds is_cache_save 0 (st_world sf) (st_world sg)) as A5.
  { apply adds_of_emits. eapply steps_run; [|exact H5].
    unfold_lifecycle. steps_with emits_prim. }
  apply adds_new_events.
  pose proof (adds_trans _ _ _ _ _ _ Hres
                (adds_trans _ _ _ _ _ _ Eb
                   (adds_trans _ _ _ _ _ _ H1
                      (adds_trans _ _ _ _ _ _ A23
                         (adds_trans _ _ _ _ _ _ H4 A5))))) as A.
  simpl in A. rewrite !Nat.add_0_r in A. exact A.
Qed.

Lemma cache_saves_counted_witness :
  let parsed := Scenario.invocation "T | take 1" ""
                  {[ "save_as" := VStr "out.json"; "cache" := VStr "c1" ]} in
  let w := Scenario.one_connection in
  let w' := snd (execute_query Scenario.healthy default_magic parsed ∅ None w) in
  count_events is_cache_save (new_events w w') = 2%nat.
Proof.
  intros parsed w w'.
  refine (cache_saves_counted Scenario.healthy default_magic parsed ∅ None w
            (NResultSet 0) w' _ _).
  - eexists Scenario.kusto_conn, _, _.
    split; [unfold resolves; vm_compute; reflexivity | split; vm_compute; reflexivity].
  - vm_compute. discriminate.
Defined.

Lemma has_flags_alter (ref : nat) (a b : bool) (f : ResultSet -> ResultSet) (w : World) :
  (forall r, rs_suppress_result (f r) = rs_suppress_result r
             /\ rs_display_info (f r) = rs_display_info r) ->
  has_flags ref a b w ->
  has_flags ref a b (w_set_results (alter f ref (w_results w)) w).
Proof.
  intros Hf (rs & Hl & Ha & Hb). exists (f rs). simpl.
  rewrite lookup_alter_eq, Hl. simpl. destruct (Hf rs) as [-> ->]. auto.
Qed.

Lemma has_flags_set (ref : nat) (a b a' b' : bool) (w : World) :
  has_flags ref a b w ->
  has_flags ref a' b'
    (w_set_results (alter (rs_set_flags a' b') ref (w_results w)) w).
Proof.
  intros (rs & Hl & _). exists (rs_set_flags a' b' rs). simpl.
  rewrite lookup_alter_eq, Hl. auto.
Qed.

Ltac flags_prim :=
  first [ apply has_flags_alter; [intros ?; split; reflexivity | assumption]
        | assumption ].

Section Flags.

Variables (env : Env) (self : Kqlmagic).

Lemma report_result_flags (result_set : option (nat * ResultSet))
    (options : gmap string pyval) (suppress_results : pyval) (conn : Conn)
    (run : QueryRun) (saved_result : nat) (result : nsval) (s s' : St)
    (a b : bool) :
  report_result env self result_set options suppress_results conn run
    saved_result result s = (Ok tt, s') ->
  has_flags saved_result a b (st_world s) ->
  has_flags saved_result
    (result_is_not_none result && truthy suppress_results)
    (result_is_not_none result && negb (truthy suppress_results)
     && negb (opt_auto_dataframe self options))
    (st_world s').
Proof.
  intros H Hin. unfold report_result in H.
  apply bind_ok in H as ([] & s1 & H1 & H).
  apply bind_ok in H as ([] & s2 & H2 & H).
  apply bind_ok in H as ([] & s3 & H3 & H).
  apply bind_ok in H as ([] & s4 & H4 & H).
  apply bind_ok in H as ([] & s5 & H5 & H).
  assert (has_flags saved_result a b (st_world s3)) as F3.
  { eapply (steps_run (preserving (has_flags saved_result a b))) in H3;
      [apply H3|unfold_lifecycle; steps_with ltac:(intros ?; flags_prim)].
    eapply (steps_run (preserving (has_flags saved_result a b))) in H2;
      [apply H2|unfold_lifecycle; steps_with ltac:(intros ?; flags_prim)].
    eapply (steps_run (preserving (has_flags saved_result a b))) in H1;
      [apply H1|unfold_lifecycle; steps_with ltac:(intros ?; flags_prim)].
    exact Hin. }
  unfold update_result, modify in H4. injection H4 as <-.
  apply (has_flags_set _ _ _ false false) in F3.
  set (w4 := w_set_results _ _) in *.
  assert (has_flags saved_result
            (result_is_not_none result && truthy suppress_results)
            (result_is_not_none result && negb (truthy suppress_results)
             && negb (opt_auto_dataframe self options))
            (st_world s5)) as F5.
  { unfold when in H5.
    destruct (result_is_not_none result); simpl; [|injection H5 as <-; exact F3].
    destruct (truthy suppress_results); simpl.
    - unfold update_result, modify in H5. injection H5 as <-.
      simpl. eapply has_flags_set, F3.
    - destruct (opt_auto_dataframe self options); simpl.
      + unfold bind, get_world, emit, modify in H5. injection H5 as <-. exact F3.
      + unfold update_result, modify in H5. injection H5 as <-.
        simpl. eapply has_flags_set, F3. }
  eapply (steps_run (preserving (has_flags saved_result _ _))) in H; [apply H, F5|].
  unfold_lifecycle. steps_with ltac:(intros ?; flags_prim).
Qed.

Lemma return_result_not_none (saved_result fork_table_id : nat) (result : nsval)
    (s s' : St) (v : nsval) :
  return_result env saved_result fork_table_id result s = (Ok v, s') ->
  result_is_not_none v = result_is_not_none result.
Proof.
  unfold return_result, bind, call, get_world, ret.
  destruct result as [x|x|df|x]; simpl; try (intros [= <- _]; reflexivity).
  destruct (Nat.eqb x saved_result); intros [= <- _]; reflexivity.
Qed.

End Flags.

(** X8: lines 677-685 and 693.  After a query that returns, the result
    set bound to the last-raw-result name has suppress_result set exactly
    when execute_query returns a value other than None and the results are
    suppressed, and display_info set exactly when it returns a value other
    than None, the results are not suppressed and auto_dataframe is off:
    the two flags are never set together, and neither is set when the
    result went to variables (None returned). *)
Theorem display_flags_follow_result :
  forall (env : Env) (self : Kqlmagic) (parsed : Parsed) (user_ns : namespace)
         (result_set : option (nat * ResultSet)) (w : World) (v : nsval) (w' : World),
    main_block_returns env self parsed user_ns result_set w v w' ->
    strip (p_query parsed) <> EmptyString ->
    let options := p_options parsed in
    let suppress := truthy (opt_suppress_results self options) in
    exists ref,
      w_shell_ns w' !! key_of (opt_last_raw_result_var self options)
      = Some (NResultSet ref)
      /\ has_flags ref
           (result_is_not_none v && suppress)
           (result_is_not_none v && negb suppress && negb (opt_auto_dataframe self options))
           w'.
Proof.
  intros env self parsed user_ns result_set w v w' Hret Hq options suppress.
  assert (str_empty (strip (p_query parsed)) = false) as Hq'
    by (unfold str_empty; apply String.eqb_neq; exact Hq).
  destruct Hret as (conn & s1 & s2 & _ & Hmain & ->).
  apply main_block_query_ok in Hmain as (conn' & sb & _ & Hsub); [|exact Hq'].
  apply submit_query_ok in Hsub
    as (run & ft & saved & result & sc & sd & se & sf & sg
        & H1 & H2 & H3 & H4 & H5 & H6).
  apply model_query_results_holds in H2 as Hh.
  pose proof (bind_result_holds env self _ _ _ (qr_raw_query_result run) _ _ _ H3) as Hh3.
  destruct (Hh3 Hh) as (rs & Hl & _).
  assert (has_flags saved (rs_suppress_result rs) (rs_display_info rs) (st_world se))
    as F by (exists rs; auto).
  eapply report_result_flags in F; [|exact H4].
  apply bind_last_raw_result_state in H5 as (Hns & Hrs & _).
  pose proof (return_result_not_none _ _ _ _ _ _ _ H6) as Hv.
  apply return_result_state in H6 as ->.
  exists saved. split.
  - rewrite Hns. apply lookup_union_Some_l. apply lookup_singleton_eq.
  - subst suppress options. rewrite Hv.
    destruct F as (rs' & Hl' & Fa & Fb). exists rs'. rewrite Hrs. auto.
Qed.

Lemma display_flags_follow_result_witness :
  let parsed := Scenario.invocation "T | take 1" ""
                  {[ "suppress_results" := VBool true ]} in
  let w := Scenario.one_connection in
  let w' := snd (execute_query Scenario.healthy default_magic parsed ∅ None w) in
  exists ref,
    w_shell_ns w' !! KStr "_kql_raw_result_" = Some (NResultSet ref)
    /\ has_flags ref true false w'.
Proof.
  intros parsed w w'.
  refine (display_flags_follow_result Scenario.healthy default_magic parsed ∅ None w
            (NResultSet 0) w' _ _).
  - eexists Scenario.kusto_conn, _, _.
    split; [unfold resolves; vm_compute; reflexivity | split; vm_compute; reflexivity].
  - vm_compute. discriminate.
Defined.

Section StepsSt.

Context (R : relation St) `{!PreOrder R}.

Lemma steps_st_ret {A : Type} (a : A) : steps_st R (ret a).
Proof. intros s r s' [= <- <-]. reflexivity. Qed.

Lemma steps_st_raise {A : Type} (e : exn) : steps_st R (@raise A e).
Proof. intros s r s' [= <- <-]. reflexivity. Qed.

Lemma steps_st_bind {A B : Type} (m : M A) (k : A -> M B) :
  steps_st R m -> (forall a, steps_st R (k a)) -> steps_st R (bind m k).
Proof.
  intros Hm Hk s r s'. unfold bind.
  destruct (m s) as [[a|e] s1] eqn:E.
  - intros H. etransitivity; [eapply Hm, E | eapply Hk, H].
  - intros [= <- <-]. eapply Hm, E.
Qed.

Lemma steps_st_try_except {A : Type} (m : M A) (h : exn -> M A) :
  steps_st R m -> (forall e, steps_st R (h e)) -> steps_st R (try_except m h).
Proof.
  intros Hm Hh s r s'. unfold try_except.
  destruct (m s) as [[a|e] s1] eqn:E.
  - intros [= <- <-]. eapply Hm, E.
  - destruct (is_exception e).
    + intros H. etransitivity; [eapply Hm, E | eapply Hh, H].
    + intros [= <- <-]. eapply Hm, E.
Qed.

Lemma steps_st_get_world : steps_st R get_world.
Proof. intros s r s' [= <- <-]. reflexivity. Qed.

Lemma steps_st_modify (f : World -> World) :
  (forall s, R s (mkSt (f (st_world s)) (st_connection_string s))) ->
  steps_st R (modify f).
Proof. intros H s r s' [= <- <-]. apply H. Qed.

Lemma steps_st_set_connection_string (cs : string) :
  (forall s, R s (mkSt (st_world s) cs)) -> steps_st R (set_connection_string cs).
Proof. intros H s r s' [= <- <-]. apply H. Qed.

Lemma steps_st_call {A : Type} (f : World -> exn + A) : steps_st R (call f).
Proof.
  intros s r s'. unfold call. destruct (f (st_world s)); intros [= <- <-]; reflexivity.
Qed.

Lemma steps_st_call_unit (f : World -> option exn) : steps_st R (call_unit f).
Proof.
  intros s r s'. unfold call_unit.
  destruct (f (st_world s)); intros [= <- <-]; reflexivity.
Qed.

Lemma steps_st_when (b : bool) (m : M unit) : steps_st R m -> steps_st R (when b m).
Proof. intros H. destruct b; [exact H | apply steps_st_ret]. Qed.

End StepsSt.

Ltac steps_st_with prim :=
  repeat first
    [ solve [auto 1]
    | apply steps_st_ret; apply _
    | apply steps_st_raise; apply _
    | apply steps_st_get_world; apply _
    | apply steps_st_call; apply _
    | apply steps_st_call_unit; apply _
    | apply steps_st_when; [apply _ | ]
    | apply steps_st_bind; [apply _ | | intros ?]
    | apply steps_st_try_except; [apply _ | | intros ?]
    | apply steps_st_modify; intros ?; prim
    | apply steps_st_set_connection_string; intros ?; prim
    | match goal with
      | |- steps_st _ (match ?x with _ => _ end) => destruct x
      | |- steps_st _ (let '(_, _) := ?x in _) => destruct x
      end ].

#[global] Instance explicit_connection_preorder : PreOrder explicit_connection.
Proof.
  split.
  - intros s H. split; [exact H | reflexivity].
  - intros s1 s2 s3 H12 H23 H. destruct (H12 H) as [H2 E12].
    destruct (H23 H2) as [H3 E23]. split; [exact H3 | etransitivity; eassumption].
Qed.

Lemma code_connection_string_not_empty (conn : Conn) :
  code_connection_string conn <> EmptyString.
Proof.
  unfold code_connection_string. destruct (conn_uri_schema_name conn); discriminate.
Qed.

Ltac explicit_prim :=
  intros ?; simpl;
  split; [first [assumption | apply code_connection_string_not_empty] | emits_prim].

Section DeadBranch.

Variables (env : Env) (self : Kqlmagic).

(** With a connection string in hand, the test of lines 586 and 700 fails
    and _show_connection_info is skipped. *)
Lemma show_connection_info_skipped {A : Type} (options : gmap string pyval)
    (suppress_results : pyval) (k : M A) (s : St) :
  st_connection_string s <> EmptyString ->
  bind get_connection_string
    (fun connection_string =>
       let! w := get_world in
       run! when (str_empty connection_string && has_connections w
                  && negb (truthy suppress_results))
              (_show_connection_info env self options) in
       k) s
  = k s.
Proof.
  intros H. unfold bind at 1 2, get_connection_string, get_world.
  destruct (st_connection_string s); [congruence|]. reflexivity.
Qed.

Lemma resolve_connection_some (cs : string) (user_ns : namespace)
    (options : gmap string pyval) (s s' : St) (conn : Conn) :
  resolve_connection env self cs user_ns options s = (Ok (Some conn), s') ->
  get_connection env cs user_ns options s = (Ok conn, s').
Proof.
  unfold resolve_connection, try_except.
  destruct (bind (get_connection env cs user_ns options) _ s) as [[c|e] sx] eqn:E.
  - intros [= -> ->]. apply bind_ok in E as (c' & sy & E & [= -> ->]). exact E.
  - destruct (is_exception e); [|discriminate].
    destruct (exn_cls e); destruct (opt_short_errors self options);
      unfold raise; try discriminate;
      intros H; repeat (apply bind_ok in H as (? & ? & _ & H)); discriminate H.
Qed.

Lemma get_connection_explicit (cs : string) (user_ns : namespace)
    (options : gmap string pyval) :
  steps_st explicit_connection (get_connection env cs user_ns options).
Proof. unfold get_connection, emit. steps_st_with explicit_prim. Qed.

Lemma help_preamble_explicit (user_ns : namespace) :
  steps_st explicit_connection (help_preamble env self user_ns).
Proof.
  unfold help_preamble, submit_get_notebook_url, emit. steps_st_with explicit_prim.
Qed.

Lemma main_block_explicit (user_ns : namespace)
    (result_set : option (nat * ResultSet)) (options : gmap string pyval)
    (suppress_results : pyval) (conn : Conn) :
  steps_st explicit_connection
    (main_block env self user_ns result_set options suppress_results EmptyString conn).
Proof.
  assert (steps_st explicit_connection
            (let! connection_string := get_connection_string in
             let! w := get_world in
             run! when (str_empty connection_string && has_connections w
                        && negb (truthy suppress_results))
                    (_show_connection_info env self options) in
             ret (NVal VNone))) as Htail.
  { intros s r s' H Hne. rewrite show_connection_info_skipped in H by exact Hne.
    injection H as <- <-. split; [exact Hne | reflexivity]. }
  pose proof get_connection_explicit as Hget.
  unfold main_block, with_connection. change (str_empty "") with true. cbv iota.
  unfold schema_side_effects, popup_schema_step, help_menu_step,
    get_schema_file_path, validate_connection, validate, emit.
  steps_st_with explicit_prim.
Qed.

Lemma outer_handler_explicit (options : gmap string pyval)
    (suppress_results : pyval) (e : exn) :
  steps_st explicit_connection (outer_handler env self options suppress_results e).
Proof.
  intros s r s' H Hne. unfold outer_handler in H.
  rewrite show_connection_info_skipped in H by exact Hne.
  destruct (opt_short_errors self options).
  - injection H as <- <-. split; [exact Hne | emits_prim].
  - injection H as <- <-. split; [exact Hne | reflexivity].
Qed.

End DeadBranch.

(** X6: lines 514-515 and 586-587.  The connection info of line 587 is
    never displayed: an invocation without query text that has no
    connection text returns at line 515, and one that has a connection
    text fails the test of line 586; so whenever the connection of such
    an invocation resolves, no connection info is shown, however the
    invocation ends. *)
Theorem no_query_connection_info_never_shown :
  forall (env : Env) (self : Kqlmagic) (parsed : Parsed) (user_ns : namespace)
         (result_set : option (nat * ResultSet)) (w : World) (conn : Conn) (s1 : St),
    strip (p_query parsed) = EmptyString ->
    resolves env self parsed user_ns w conn s1 ->
    count_events is_conn_info
      (new_events w (snd (execute_query env self parsed user_ns result_set w))) = 0%nat.
Proof.
  intros env self parsed user_ns result_set w conn s1 Hq Hres.
  apply count_events_none.
  apply (emits_new_events (fun e => negb (is_conn_info e))).
  unfold resolves in Hres. apply bind_ok in Hres as (u & s0 & Hpre & Hres).
  unfold execute_query, execute_query_m.
  rewrite (bind_eq _ _ _ _ _ Hpre), Hq. change (str_empty "") with true.
  destruct (p_connection parsed) as [|a cs] eqn:Ecs.
  - simpl. eapply (steps_run (emits (fun e => negb (is_conn_info e)))) in Hpre;
      [exact Hpre|].
    unfold_lifecycle. steps_with emits_prim.
  - change (true && str_empty (String a cs)) with false. cbv iota.
    rewrite (bind_eq _ _ _ _ _ Hres).
    apply resolve_connection_some in Hres.
    apply help_preamble_explicit in Hpre. apply get_connection_explicit in Hres.
    destruct (try_except _ _ s1) as [r s2] eqn:E. simpl.
    eapply (steps_st_try_except explicit_connection) in E;
      [|apply main_block_explicit|intros e; apply outer_handler_explicit].
    destruct Hpre as [H0 E0]; [simpl; discriminate|].
    destruct (Hres H0) as [H1 E1]. destruct (E H1) as [_ E2].
    etransitivity; [exact E0|]. etransitivity; eassumption.
Qed.

Lemma no_query_connection_info_never_shown_witness :
  let parsed := Scenario.invocation "" "kusto://cluster('help').database('Samples')" ∅ in
  let w := Scenario.one_connection in
  count_events is_conn_info
    (new_events w (snd (execute_query Scenario.healthy default_magic parsed ∅ None w)))
  = 0%nat.
Proof.
  intros parsed w.
  refine (no_query_connection_info_never_shown Scenario.healthy default_magic parsed ∅
            None w Scenario.kusto_conn _ _ _).
  - vm_compute. reflexivity.
  - unfold resolves. vm_compute. reflexivity.
Defined.

Lemma at_most_trans (p : Event -> bool) (n m : nat) (w1 w2 w3 : World) :
  at_most p n w1 w2 -> at_most p m w2 w3 -> at_most p (n + m) w1 w3.
Proof.
  intros (e1 & H1 & C1) (e2 & H2 & C2). exists (e1 ++ e2). split.
  - rewrite H2, H1. symmetry. apply app_assoc.
  - rewrite count_events_app. lia.
Qed.

Lemma at_most_weaken (p : Event -> bool) (n m : nat) (w w' : World) :
  (n <= m)%nat -> at_most p n w w' -> at_most p m w w'.
Proof. intros Hle (evs & H & C). exists evs. split; [exact H | lia]. Qed.

Section Bounded.

Variable p : Event -> bool.

Lemma bounded_weaken {A : Type} (n m : nat) (c : M A) :
  (n <= m)%nat -> bounded p n c -> bounded p m c.
Proof. intros Hle H s r s' E. eapply at_most_weaken; [exact Hle | eapply H, E]. Qed.

Lemma bounded_quiet {A : Type} (c : M A) :
  steps (emits (fun e => negb (p e))) c -> bounded p 0 c.
Proof.
  intros H s r s' E. apply H in E as (evs & Ht & F). exists evs.
  split; [exact Ht | rewrite (count_events_none _ _ F); lia].
Qed.

Lemma bounded_bind {A B : Type} (n m : nat) (c : M A) (k : A -> M B) :
  bounded p n c -> (forall a, bounded p m (k a)) -> bounded p (n + m) (bind c k).
Proof.
  intros Hc Hk s r s'. unfold bind.
  destruct (c s) as [[a|e] s1] eqn:E.
  - intros H. eapply at_most_trans; [eapply Hc, E | eapply Hk, H].
  - intros [= <- <-]. eapply at_most_weaken; [|eapply Hc, E]. lia.
Qed.

Lemma bounded_try_except {A : Type} (n m : nat) (c : M A) (h : exn -> M A) :
  bounded p n c -> (forall e, bounded p m (h e)) -> bounded p (n + m) (try_except c h).
Proof.
  intros Hc Hh s r s'. unfold try_except.
  destruct (c s) as [[a|e] s1] eqn:E.
  - intros [= <- <-]. eapply at_most_weaken; [|eapply Hc, E]. lia.
  - destruct (is_exception e).
    + intros H. eapply at_most_trans; [eapply Hc, E | eapply Hh, H].
    + intros [= <- <-]. eapply at_most_weaken; [|eapply Hc, E]. lia.
Qed.

Lemma bounded_emit (e : Event) : bounded p (Nat.b2n (p e)) (emit e).
Proof.
  intros s r s' [= _ <-]. exists [e]. split; [reflexivity|].
  unfold count_events. simpl. destruct (p e); simpl; lia.
Qed.

End Bounded.

Ltac bounded_quiet_tac :=
  apply bounded_quiet; unfold_lifecycle; unfold validate, emit; steps_with emits_prim.

Ltac bounded_seq n m :=
  apply (bounded_weaken _ (n + m)); [lia | apply bounded_bind].

Ltac bounded_none :=
  apply (bounded_weaken _ 0); [lia | bounded_quiet_tac].

Lemma at_most_new_events (p : Event -> bool) (n : nat) (w w' : World) :
  at_most p n w w' -> (count_events p (new_events w w') <= n)%nat.
Proof.
  intros (evs & H & C). unfold new_events. rewrite H, drop_app_length. exact C.
Qed.

Section Attempts.

Variables (env : Env) (self : Kqlmagic).

Lemma validate_probes_once (conn : Conn) (options : gmap string pyval) :
  bounded is_validate 1 (validate env conn options).
Proof.
  unfold validate. bounded_seq 1%nat 0%nat.
  - apply (bounded_emit is_validate (EvValidate (conn_ref conn))).
  - intros _. bounded_quiet_tac.
Qed.

Lemma get_connection_resolves_once (cs : string) (user_ns : namespace)
    (options : gmap string pyval) :
  bounded is_get_connection 1 (get_connection env cs user_ns options).
Proof.
  unfold get_connection. bounded_seq 1%nat 0%nat.
  - apply (bounded_emit is_get_connection (EvGetConnection cs)).
  - intros _. bounded_quiet_tac.
Qed.

Lemma validate_connection_probes (conn : Conn) (user_ns : namespace)
    (options : gmap string pyval) :
  bounded is_validate 2 (validate_connection env self conn user_ns options).
Proof.
  unfold validate_connection.
  bounded_seq 0%nat 2%nat; [bounded_quiet_tac | intros w].
  destruct (_ && _); [|bounded_none].
  bounded_seq 1%nat 1%nat.
  - apply (bounded_weaken _ (1 + 0)); [lia|]. apply bounded_try_except.
    + bounded_seq 1%nat 0%nat;
        [apply validate_probes_once | intros _; bounded_quiet_tac].
    + intros e. destruct (retry_condition _ _); bounded_quiet_tac.
  - intros [|]; [|bounded_none].
    bounded_seq 0%nat 1%nat; [bounded_quiet_tac | intros _].
    bounded_seq 0%nat 1%nat; [bounded_quiet_tac | intros _].
    bounded_seq 0%nat 1%nat; [bounded_quiet_tac | intros conn'].
    bounded_seq 1%nat 0%nat;
      [apply validate_probes_once | intros _; bounded_quiet_tac].
Qed.

Lemma validate_connection_resolves (conn : Conn) (user_ns : namespace)
    (options : gmap string pyval) :
  bounded is_get_connection 1 (validate_connection env self conn user_ns options).
Proof.
  unfold validate_connection.
  bounded_seq 0%nat 1%nat; [bounded_quiet_tac | intros w].
  destruct (_ && _); [|bounded_none].
  bounded_seq 0%nat 1%nat; [bounded_quiet_tac|].
  intros [|]; [|bounded_none].
  bounded_seq 0%nat 1%nat; [bounded_quiet_tac | intros _].
  bounded_seq 0%nat 1%nat; [bounded_quiet_tac | intros _].
  bounded_seq 1%nat 0%nat;
    [apply get_connection_resolves_once | intros conn'; bounded_quiet_tac].
Qed.

Lemma execute_query_m_probes (parsed : Parsed) (user_ns : namespace)
    (result_set : option (nat * ResultSet)) :
  bounded is_validate 2 (execute_query_m env self parsed user_ns result_set).
Proof.
  unfold execute_query_m.
  bounded_seq 0%nat 2%nat; [bounded_quiet_tac | intros _].
  destruct (_ && _); [bounded_none|].
  bounded_seq 0%nat 2%nat; [bounded_quiet_tac|].
  intros [conn|]; [|bounded_none].
  apply (bounded_weaken _ (2 + 0)); [lia|]. apply bounded_try_except.
  - unfold main_block. bounded_seq 2%nat 0%nat;
      [apply validate_connection_probes | intros conn'; bounded_quiet_tac].
  - intros e. bounded_quiet_tac.
Qed.

Lemma execute_query_m_resolves (parsed : Parsed) (user_ns : namespace)
    (result_set : option (nat * ResultSet)) :
  bounded is_get_connection 2 (execute_query_m env self parsed user_ns result_set).
Proof.
  unfold execute_query_m.
  bounded_seq 0%nat 2%nat; [bounded_quiet_tac | intros _].
  destruct (_ && _); [bounded_none|].
  bounded_seq 1%nat 1%nat.
  - unfold resolve_connection. apply (bounded_weaken _ (1 + 0)); [lia|].
    apply bounded_try_except.
    + bounded_seq 1%nat 0%nat;
        [apply get_connection_resolves_once | intros conn; bounded_quiet_tac].
    + intros e. bounded_quiet_tac.
  - intros [conn|]; [|bounded_none].
    apply (bounded_weaken _ (1 + 0)); [lia|]. apply bounded_try_except.
    + unfold main_block. bounded_seq 1%nat 0%nat;
        [apply validate_connection_resolves | intros conn'; bounded_quiet_tac].
    + intros e. bounded_quiet_tac.
Qed.

End Attempts.

(** X10: lines 521 and 544-565.  Whatever it returns or raises, one
    invocation calls conn.validate at most twice and
    Connection.get_connection at most twice (the connection as given, and
    one retry with code authentication). *)
Theorem at_most_two_probes_and_resolutions :
  forall (env : Env) (self : Kqlmagic) (parsed : Parsed) (user_ns : namespace)
         (result_set : option (nat * ResultSet)) (w : World),
    let evs := new_events w (snd (execute_query env self parsed user_ns result_set w)) in
    (count_events is_validate evs <= 2)%nat
    /\ (count_events is_get_connection evs <= 2)%nat.
Proof.
  intros env self parsed user_ns result_set w evs. subst evs. unfold execute_query.
  destruct (execute_query_m _ _ _ _ _ _) as [r s] eqn:E. simpl. split.
  - apply at_most_new_events. exact (execute_query_m_probes env self _ _ _ _ _ _ E).
  - apply at_most_new_events. exact (execute_query_m_resolves env self _ _ _ _ _ _ E).
Qed.

Section Counted.

Variable p : Event -> bool.

Lemma counted_quiet {A : Type} (c : M A) :
  steps (emits (fun e => negb (p e))) c -> counted p 0 c.
Proof. intros H s a s' E. apply adds_of_emits. eapply H, E. Qed.

Lemma counted_bind {A B : Type} (n m : nat) (c : M A) (k : A -> M B) :
  counted p n c -> (forall a, counted p m (k a)) -> counted p (n + m) (bind c k).
Proof.
  intros Hc Hk s b s' E. apply bind_ok in E as (a & s1 & E1 & E2).
  eapply adds_trans; [eapply Hc, E1 | eapply Hk, E2].
Qed.

Lemma counted_eq {A : Type} (n m : nat) (c : M A) :
  n = m -> counted p n c -> counted p m c.
Proof. intros ->. auto. Qed.

Lemma counted_emit (e : Event) : counted p (Nat.b2n (p e)) (emit e).
Proof.
  intros s a s' [= _ <-]. exists [e]. split; [reflexivity|].
  unfold count_events. simpl. destruct (p e); reflexivity.
Qed.

Lemma counted_when (n : nat) (b : bool) (c : M unit) :
  counted p n c -> counted p (if b then n else 0%nat) (when b c).
Proof.
  intros H. destruct b; [exact H|]. intros s a s' [= _ <-].
  apply adds_of_emits. reflexivity.
Qed.

End Counted.

Ltac counted_quiet_tac :=
  apply counted_quiet; unfold_lifecycle; unfold validate, emit; steps_with emits_prim.

Section Warning.

Variables (env : Env) (self : Kqlmagic).

Lemma model_query_results_warns (result_set : option (nat * ResultSet))
    (options : gmap string pyval) (suppress_results : pyval) (conn : Conn)
    (run : QueryRun) :
  counted is_warning
    (Nat.b2n (raw_is_partial_table (qr_raw_query_result run)
              && negb (truthy suppress_results)))
    (model_query_results env self result_set options suppress_results conn run).
Proof.
  unfold model_query_results.
  apply (counted_bind _ 0); [counted_quiet_tac | intros w].
  destruct result_set as [[ref rs]|]; [destruct (env_fork_result env w ref 0) as [ref0 rs0]|].
  all: apply (counted_bind _ 0); [counted_quiet_tac | intros _].
  all: apply (counted_bind _ 0); [counted_quiet_tac | intros cs].
  all: apply (counted_bind _ 0); [counted_quiet_tac | intros w1].
  all: apply (counted_bind _ 0); [counted_quiet_tac | intros _].
  all: apply (counted_bind _ 0); [counted_quiet_tac | intros _].
  all: apply (counted_eq _
                (Nat.b2n (raw_is_partial_table (qr_raw_query_result run)
                          && negb (truthy suppress_results)) + 0));
         [apply Nat.add_0_r|].
  all: apply counted_bind; [|intros _; counted_quiet_tac].
  all: apply (counted_when is_warning 1), (counted_emit is_warning (EvWarning _)).
Qed.

Lemma execute_query_m_warns_about (parsed : Parsed) (user_ns : namespace)
    (result_set : option (nat * ResultSet)) :
  steps (emits (warns_about (opt_get (p_options parsed) "last_raw_result_var")))
    (execute_query_m env self parsed user_ns result_set).
Proof.
  unfold_lifecycle. unfold validate, emit.
  steps_with ltac:(first [emits_prim
                         | apply emits_emit; apply bool_decide_eq_true; reflexivity]).
Qed.

End Warning.

(** X9: lines 635-636.  In a query that returns, the partial-results
    warning is displayed once when the raw result is a partial table and
    the results are not suppressed, and not at all otherwise; it names
    options.get("last_raw_result_var"), which is None when the option is
    absent, while the result set is bound to the name given by the option
    or else by the trait. *)
Theorem partial_results_warning :
  forall (env : Env) (self : Kqlmagic) (parsed : Parsed) (user_ns : namespace)
         (result_set : option (nat * ResultSet)) (w : World) (v : nsval) (w' : World),
    main_block_returns env self parsed user_ns result_set w v w' ->
    strip (p_query parsed) <> EmptyString ->
    let options := p_options parsed in
    exists ref rs,
      w_shell_ns w' !! key_of (opt_last_raw_result_var self options)
      = Some (NResultSet ref)
      /\ w_results w' !! ref = Some rs
      /\ List.filter is_warning (new_events w w')
         = if raw_is_partial_table (rs_raw rs)
              && negb (truthy (opt_suppress_results self options))
           then [EvWarning (opt_get options "last_raw_result_var")]
           else [].
Proof.
  intros env self parsed user_ns result_set w v w' Hret Hq options.
  assert (str_empty (strip (p_query parsed)) = false) as Hq'
    by (unfold str_empty; apply String.eqb_neq; exact Hq).
  pose proof (execute_query_of_main_block _ _ _ _ _ _ _ _ Hret) as Hex.
  rewrite Hq' in Hex. specialize (Hex eq_refl).
  assert (forallb (warns_about (opt_get options "last_raw_result_var")) (new_events w w')
          = true) as Hnames.
  { unfold execute_query in Hex.
    destruct (execute_query_m _ _ _ _ _ _) as [r s] eqn:E. injection Hex as _ <-.
    apply (steps_run _ _ _ _ _ (execute_query_m_warns_about env self _ _ _)) in E.
    apply emits_new_events in E. tauto. }
  destruct Hret as (conn & s1 & s2 & Hres & Hmain & ->).
  assert (forall w1 w2, emits (fun e => negb (is_query_event e)) w1 w2 ->
                        adds is_warning 0 w1 w2) as Hphase.
  { intros w1 w2 E. apply adds_of_emits. revert E. apply emits_weaken.
    intros []; simpl; congruence. }
  apply resolves_no_query_event, Hphase in Hres.
  apply main_block_query_phase in Hmain as (conn' & sb & Eb & _ & Hsub); [|exact Hq'].
  apply Hphase in Eb.
  apply submit_query_ok in Hsub
    as (run & ft & saved & result & sc & sd & se & sf & sg
        & H1 & H2 & H3 & H4 & H5 & H6).
  apply model_query_results_holds in H2 as Hh.
  pose proof (bind_result_holds env self _ _ _ (qr_raw_query_result run) _ _ _ H3) as Hh3.
  pose proof (report_result_holds env self _ _ _ _ _ _ _ (qr_raw_query_result run)
                _ _ _ H4) as Hh4.
  destruct (Hh4 (Hh3 Hh)) as (rs & Hl & Hraw).
  apply model_query_results_warns in H2.
  assert (adds is_warning 0 (st_world sb) (st_world sc)) as A1.
  { apply adds_of_emits. eapply steps_run; [|exact H1].
    unfold_lifecycle. steps_with emits_prim. }
  assert (adds is_warning 0 (st_world sd) (st_world sg)) as A3.
  { apply adds_of_emits.
    etransitivity; [eapply steps_run; [|exact H3]|].
    { unfold_lifecycle. steps_with emits_prim. }
    etransitivity; [eapply steps_run; [|exact H4]|eapply steps_run; [|exact H5]];
      unfold_lifecycle; steps_with emits_prim. }
  apply bind_last_raw_result_state in H5 as (Hns & Hrs & _).
  apply return_result_state in H6 as ->.
  exists saved, rs. split; [|split].
  - rewrite Hns. apply lookup_union_Some_l. apply lookup_singleton_eq.
  - rewrite Hrs. exact Hl.
  - rewrite Hraw.
    pose proof (adds_trans _ _ _ _ _ _ Hres
                  (adds_trans _ _ _ _ _ _ Eb
                     (adds_trans _ _ _ _ _ _ A1 (adds_trans _ _ _ _ _ _ H2 A3)))) as A.
    apply adds_new_events in A. simpl in A. rewrite Nat.add_0_r in A.
    unfold count_events in A. fold options in A.
    assert (forall l, forallb (warns_about (opt_get options "last_raw_result_var")) l = true ->
                      List.filter is_warning l
                      = repeat (EvWarning (opt_get options "last_raw_result_var"))
                          (length (List.filter is_warning l))) as Hrep.
    { induction l as [|e l IH]; simpl; [reflexivity|].
      rewrite andb_true_iff. intros [He Hl']. specialize (IH Hl').
      destruct e; simpl; try exact IH.
      apply bool_decide_eq_true in He as ->. f_equal. exact IH. }
    rewrite (Hrep _ Hnames), A.
    destruct (_ && _); reflexivity.
Qed.

Lemma partial_results_warning_witness :
  let parsed := Scenario.invocation "T | take 1" "" ∅ in
  let w := Scenario.one_connection in
  let w' := snd (execute_query Notebook.partial_backend default_magic parsed ∅ None w) in
  exists ref rs,
    w_shell_ns w' !! KStr "_kql_raw_result_" = Some (NResultSet ref)
    /\ w_results w' !! ref = Some rs
    /\ List.filter is_warning (new_events w w')
       = if raw_is_partial_table (rs_raw rs)
            && negb (truthy (opt_suppress_results default_magic ∅))
         then [EvWarning VNone]
         else [].
Proof.
  intros parsed w w'.
  refine (partial_results_warning Notebook.partial_backend default_magic parsed ∅ None w
            (NResultSet 0) w' _ _).
  - eexists Scenario.kusto_conn, _, _.
    split; [unfold resolves; vm_compute; reflexivity | split; vm_compute; reflexivity].
  - vm_compute. discriminate.
Defined.

#[global] Instance base_url_kept_preorder : PreOrder base_url_kept.
Proof.
  split.
  - intros w. split; reflexivity.
  - intros w1 w2 w3 [U1 E1] [U2 E2]. split; [congruence | etransitivity; eassumption].
Qed.

Ltac base_url_prim := split; [reflexivity | emits_prim].

(** X12: lines 502-507.  Once Help_html.showfiles_base_url is set,
    execute_query neither flushes the help files nor asks the front end
    for the notebook URL, and leaves the base URL as it is. *)
Theorem help_base_url_asked_once :
  forall (env : Env) (self : Kqlmagic) (parsed : Parsed) (user_ns : namespace)
         (result_set : option (nat * ResultSet)) (w : World) (url : string),
    w_showfiles_base_url w = Some url ->
    base_url_kept w (snd (execute_query env self parsed user_ns result_set w)).
Proof.
  intros env self parsed user_ns result_set w url Hurl.
  assert (help_preamble env self user_ns (mkSt w (p_connection parsed))
          = (Ok tt, mkSt w (p_connection parsed))) as Hpre.
  { unfold help_preamble, bind, get_world. simpl. rewrite Hurl. reflexivity. }
  unfold execute_query, execute_query_m. rewrite (bind_eq _ _ _ _ _ Hpre).
  match goal with
  | |- context [let '(r, s) := ?m ?s0 in _] => destruct (m s0) as [r s] eqn:E
  end.
  simpl. eapply (steps_run base_url_kept) in E; [exact E|].
  unfold resolve_connection, outer_handler, main_block,
    with_connection, submit_query, return_result, bind_last_raw_result,
    report_result, bind_result, model_query_results, run_query, cache_save,
    schema_side_effects, popup_schema_step, help_menu_step,
    get_schema_file_path, validate_connection, validate,
    get_connection, _show_connection_info, update_result, shell_update,
    append_feedback, emit.
  steps_with base_url_prim.
Qed.

Lemma help_base_url_asked_once_witness :
  base_url_kept Scenario.one_connection
    (snd (execute_query Scenario.healthy default_magic
            (Scenario.invocation "T | take 1" "" ∅) ∅ None Scenario.one_connection)).
Proof.
  exact (help_base_url_asked_once Scenario.healthy default_magic
           (Scenario.invocation "T | take 1" "" ∅) ∅ None Scenario.one_connection
           "http://localhost:8888" eq_refl).
Defined.

Section Retried.

Variables (env : Env) (self : Kqlmagic).

(** Connection.get_connection, run in state [s]. *)
Lemma get_connection_run (cs : string) (user_ns : namespace)
    (options : gmap string pyval) (s : St) :
  get_connection env cs user_ns options s
  = match env_get_connection env (w_emit (EvGetConnection cs) (st_world s))
            cs user_ns options with
    | inl e => (Raise e, mkSt (w_emit (EvGetConnection cs) (st_world s))
                           (st_connection_string s))
    | inr (conn, registry, overlays) =>
        (Ok conn, mkSt (w_set_conns overlays registry
                          (w_emit (EvGetConnection cs) (st_world s)))
                    (st_connection_string s))
    end.
Proof.
  unfold get_connection, bind, emit, modify, call, ret. simpl.
  destruct (env_get_connection env _ cs user_ns options) as [e|[[conn registry] overlays]];
    reflexivity.
Qed.

Lemma get_connection_trace (cs : string) (user_ns : namespace)
    (options : gmap string pyval) (s s' : St) (r : res Conn) :
  get_connection env cs user_ns options s = (r, s') ->
  w_trace (st_world s') = w_trace (st_world s) ++ [EvGetConnection cs].
Proof.
  rewrite get_connection_run.
  destruct (env_get_connection env _ cs user_ns options) as [e|[[conn registry] overlays]];
    intros [= _ <-]; reflexivity.
Qed.

(** conn.validate is the first thing [validate] does, and its only probe. *)
Lemma validate_trace (conn : Conn) (options : gmap string pyval) (s s' : St)
    (r : res unit) :
  validate env conn options s = (r, s') ->
  exists evs,
    w_trace (st_world s') = w_trace (st_world s) ++ EvValidate (conn_ref conn) :: evs
    /\ forallb (fun e => negb (is_probe e)) evs = true.
Proof.
  unfold validate, bind, emit, modify, call_unit. simpl.
  destruct (env_validate env _ conn options); intros [= _ <-]; simpl.
  - exists []. auto.
  - exists [EvSetValidationResult (conn_ref conn)]. rewrite <- app_assoc. auto.
Qed.

Lemma with_connection_no_probes (user_ns : namespace)
    (result_set : option (nat * ResultSet)) (options : gmap string pyval)
    (suppress_results : pyval) (query : string) (conn : Conn) :
  steps (emits (fun e => negb (is_probe e)))
    (with_connection env self user_ns result_set options suppress_results query conn).
Proof. unfold_lifecycle. steps_with emits_prim. Qed.

Lemma outer_handler_no_probes (options : gmap string pyval) (suppress_results : pyval)
    (e : exn) :
  steps (emits (fun e => negb (is_probe e)))
    (outer_handler env self options suppress_results e).
Proof. unfold_lifecycle. steps_with emits_prim. Qed.

Lemma help_preamble_no_probes (user_ns : namespace) :
  steps (emits (fun e => negb (is_probe e))) (help_preamble env self user_ns).
Proof. unfold_lifecycle. steps_with emits_prim. Qed.

End Retried.

Lemma filter_none (p : Event -> bool) (l : list Event) :
  forallb (fun e => negb (p e)) l = true -> List.filter p l = [].
Proof. intros H. apply length_zero_iff_nil. exact (count_events_none p l H). Qed.

(** What the handler of the second [try] adds to a run of its body that
    raised: no probe. *)
Lemma handled_no_probes (env : Env) (self : Kqlmagic) (options : gmap string pyval)
    (suppress_results : pyval) (e : exn) (s s' : St) (r : res nsval) :
  (if is_exception e then outer_handler env self options suppress_results e s
   else (Raise e, s)) = (r, s') ->
  emits (fun e => negb (is_probe e)) (st_world s) (st_world s').
Proof.
  destruct (is_exception e).
  - apply outer_handler_no_probes.
  - intros [= _ <-]. reflexivity.
Qed.

(** X11: lines 544-565.  When the probe of a connection not yet validated
    fails with an Exception whose message passes the test of line 551 on a
    Kusto connection, the invocation displays the message and retries
    exactly once: over the whole invocation, Connection.get_connection and
    conn.validate are called for the connection text given, then for the
    code() connection string of the same cluster and database, and the
    connection this second resolution returns is probed once; if the
    second resolution raises nothing more is probed, and a failure of the
    second probe is not retried. *)
Theorem mfa_retry_exactly_once :
  forall (env : Env) (self : Kqlmagic) (parsed : Parsed) (user_ns : namespace)
         (result_set : option (nat * ResultSet)) (w : World) (conn : Conn) (s1 : St)
         (e : exn) (r : res nsval) (w' : World),
    resolves env self parsed user_ns w conn s1 ->
    str_empty (strip (p_query parsed)) && str_empty (p_connection parsed) = false ->
    truthy (conn_flag (st_world s1) (conn_ref conn) "validate_connection_string_done")
    = false ->
    opt_validate_connection_string self (p_options parsed) = true ->
    env_validate env (w_emit (EvValidate (conn_ref conn)) (st_world s1)) conn
      (p_options parsed) = Some e ->
    is_exception e = true ->
    retry_condition (exn_msg e) conn = true ->
    execute_query env self parsed user_ns result_set w = (r, w') ->
    In (EvDanger (exn_msg e)) (new_events w w')
    /\ List.filter is_probe (new_events w w')
       = [EvGetConnection (p_connection parsed); EvValidate (conn_ref conn);
          EvGetConnection (code_connection_string conn)]
         ++ match env_get_connection env (retry_world conn e (st_world s1))
                  (code_connection_string conn) user_ns (p_options parsed) with
            | inl _ => []
            | inr (conn', _, _) => [EvValidate (conn_ref conn')]
            end.
Proof.
  intros env self parsed user_ns result_set w conn s1 e r w'
    Hres Hne Hflag Hopt Hval Hex Hcond Hrun.
  unfold resolves in Hres. apply bind_ok in Hres as (u & s0 & Hpre & Hres).
  unfold execute_query, execute_query_m in Hrun.
  rewrite (bind_eq _ _ _ _ _ Hpre), Hne, (bind_eq _ _ _ _ _ Hres) in Hrun.
  destruct (try_except _ _ s1) as [r0 s'] eqn:E. injection Hrun as <- <-.
  (* the events up to the first probe *)
  apply help_preamble_no_probes in Hpre as (ev0 & Ht0 & F0). simpl in Ht0.
  apply resolve_connection_some in Hres. apply get_connection_trace in Hres as Ht1.
  (* the retry *)
  unfold try_except, main_block in E. unfold bind at 1 in E.
  rewrite (validate_connection_retry env self conn user_ns _ s1 e Hflag Hopt Hval Hex Hcond)
    in E.
  set (sr := mkSt _ (code_connection_string conn)) in E.
  assert (w_trace (st_world sr)
          = w_trace (st_world s1)
              ++ [EvValidate (conn_ref conn); EvDanger (exn_msg e);
                  EvInfo "replaced connection with code authentication"]) as Htr
    by (subst sr; simpl; rewrite <- !app_assoc; reflexivity).
  assert (exists tail,
             w_trace (st_world s')
             = w_trace (st_world sr) ++ EvGetConnection (code_connection_string conn) :: tail
             /\ List.filter is_probe tail
                = match env_get_connection env (retry_world conn e (st_world s1))
                          (code_connection_string conn) user_ns (p_options parsed) with
                  | inl _ => []
                  | inr (conn', _, _) => [EvValidate (conn_ref conn')]
                  end) as (tail & Htail & Hprobes).
  { unfold bind at 1 in E. rewrite get_connection_run in E.
    change (w_emit (EvGetConnection (code_connection_string conn)) (st_world sr))
      with (retry_world conn e (st_world s1)) in E.
    destruct (env_get_connection env (retry_world conn e (st_world s1)) _ _ _)
      as [e2|[[conn' registry] overlays]].
    - apply handled_no_probes in E as (evs & Hev & F).
      exists evs. split; [|apply filter_none, F].
      rewrite Hev. subst sr. simpl. rewrite <- ?app_assoc. reflexivity.
    - match type of E with
      | context [bind (validate env conn' ?o) _ ?s] =>
          destruct (validate env conn' o s) as [[[]|e3] sv] eqn:Ev
      end.
      + rewrite (bind_eq _ _ _ _ _ Ev) in E. unfold ret in E.
        apply validate_trace in Ev as (ev1 & Hv & F1).
        destruct (with_connection _ _ _ _ _ _ _ _ sv) as [[v|e4] sw] eqn:Ew.
        * injection E as <- <-.
          apply with_connection_no_probes in Ew as (ev2 & Hw & F2).
          exists (EvValidate (conn_ref conn') :: ev1 ++ ev2). split.
          -- rewrite Hw, Hv. subst sr. simpl. rewrite <- ?app_assoc. reflexivity.
          -- simpl. rewrite List.filter_app, (filter_none _ _ F1), (filter_none _ _ F2).
             reflexivity.
        * apply with_connection_no_probes in Ew as (ev2 & Hw & F2).
          apply handled_no_probes in E as (ev3 & Hh & F3).
          exists (EvValidate (conn_ref conn') :: ev1 ++ ev2 ++ ev3). split.
          -- rewrite Hh, Hw, Hv. subst sr. simpl. rewrite <- ?app_assoc. reflexivity.
          -- simpl. rewrite !List.filter_app, (filter_none _ _ F1), (filter_none _ _ F2),
               (filter_none _ _ F3). reflexivity.
      + rewrite (bind_raise_eq _ _ _ _ _ Ev) in E.
        apply validate_trace in Ev as (ev1 & Hv & F1).
        apply handled_no_probes in E as (ev3 & Hh & F3).
        exists (EvValidate (conn_ref conn') :: ev1 ++ ev3). split.
        * rewrite Hh, Hv. subst sr. simpl. rewrite <- ?app_assoc. reflexivity.
        * simpl. rewrite List.filter_app, (filter_none _ _ F1), (filter_none _ _ F3).
          reflexivity. }
  assert (new_events w (st_world s')
          = ev0 ++ [EvGetConnection (p_connection parsed)]
              ++ [EvValidate (conn_ref conn); EvDanger (exn_msg e);
                  EvInfo "replaced connection with code authentication"]
              ++ EvGetConnection (code_connection_string conn) :: tail) as Hnew.
  { unfold new_events. rewrite Htail, Htr, Ht1, Ht0, <- !app_assoc.
    apply drop_app_length. }
  rewrite Hnew. split.
  - apply in_or_app. right. apply in_or_app. right. right. left. reflexivity.
  - rewrite !List.filter_app, (filter_none _ _ F0). simpl. rewrite Hprobes. reflexivity.
Qed.

Lemma mfa_retry_exactly_once_witness :
  let msg := "Error: AADSTS50079: you must use multi-factor authentication." in
  let env := Scenario.backend None (Some (mkExn OtherException msg)) Scenario.kusto_conn in
  let parsed := Scenario.invocation "T | take 1"
                  "kusto://cluster('help').database('Samples')" ∅ in
  let w := Scenario.one_connection in
  let w' := snd (execute_query env default_magic parsed ∅ None w) in
  In (EvDanger msg) (new_events w w')
  /\ List.filter is_probe (new_events w w')
     = [EvGetConnection "kusto://cluster('help').database('Samples')";
        EvValidate 1;
        EvGetConnection "kusto://code().cluster('help').database('Samples')";
        EvValidate 2].
Proof.
  intros msg env parsed w w'.
  refine (mfa_retry_exactly_once env default_magic parsed ∅ None w Scenario.kusto_conn
            (mkSt (w_emit (EvGetConnection (p_connection parsed)) w) (p_connection parsed))
            (mkExn OtherException msg)
            (fst (execute_query env default_magic parsed ∅ None w)) w'
            _ _ _ _ _ _ _ _).
  - unfold resolves. vm_compute. reflexivity.
  - vm_compute. reflexivity.
  - vm_compute. reflexivity.
  - vm_compute. reflexivity.
  - vm_compute. reflexivity.
  - vm_compute. reflexivity.
  - vm_compute. reflexivity.
  - vm_compute. reflexivity.
Defined.

Section Returned.

Variables (env : Env) (self : Kqlmagic).

(** Lines 652-655. *)
Lemma dataframe_block (options : gmap string pyval) (saved_result : nat)
    (s s' : St) (r : nsval) :
  (run! when (opt_feedback self options)
          (append_feedback saved_result "Returning data converted to pandas dataframe") in
   run! emit (EvToDataframe saved_result) in
   let! df := call (fun w => env_to_dataframe env w saved_result) in
   run! emit (EvDataframe saved_result df) in
   ret (NDataFrame df)) s = (Ok r, s') ->
  exists df, r = NDataFrame df /\ emitted (EvDataframe saved_result df) (st_world s) (st_world s').
Proof.
  intros H.
  apply bind_ok in H as ([] & sa & Ha & H).
  apply bind_ok in H as ([] & sb & Hb & H).
  apply bind_ok in H as (df & sc & Hc & H).
  apply bind_ok in H as ([] & sd & Hd & H).
  injection H as <- <-. exists df. split; [reflexivity|].
  assert (emits any_event (st_world s) (st_world sc)) as E.
  { etransitivity; [eapply steps_run; [|exact Ha]|].
    { unfold_lifecycle. steps_with emits_prim. }
    etransitivity; [eapply steps_run; [|exact Hb]|eapply steps_run; [|exact Hc]];
      unfold_lifecycle; steps_with emits_prim. }
  eapply emits_emitted; [exact E|]. injection Hd as <-. apply emitted_emit.
Qed.

(** Lines 625 and 642-662: the value of [result] by the options. *)
Lemma bind_result_value (result_set : option (nat * ResultSet))
    (options : gmap string pyval) (saved_result : nat) (s s' : St) (result : nsval) :
  bind_result env self result_set options saved_result s = (Ok result, s') ->
  if result_var_wanted result_set options then result = NVal VNone
  else if opt_auto_dataframe self options then
    exists df, result = NDataFrame df
               /\ emitted (EvDataframe saved_result df) (st_world s) (st_world s')
  else if opt_columns_to_local_vars self options then result = NVal VNone
  else result = NResultSet saved_result.
Proof.
  intros H. unfold bind_result in H. fold (result_var_wanted result_set options) in H.
  apply bind_ok in H as (r1 & s1 & H1 & H).
  apply bind_ok in H as (r2 & s2 & H2 & H).
  assert (emits any_event (st_world s) (st_world s1)) as E1.
  { eapply steps_run; [|exact H1]. unfold_lifecycle.
    destruct (opt_columns_to_local_vars self options); steps_with emits_prim. }
  assert (r1 = if opt_columns_to_local_vars self options
               then NVal VNone else NResultSet saved_result) as Hr1.
  { destruct (opt_columns_to_local_vars self options).
    - repeat (apply bind_ok in H1 as (? & ? & _ & H1)). injection H1 as <- _. reflexivity.
    - injection H1 as <- _. reflexivity. }
  destruct (result_var_wanted result_set options).
  - repeat (apply bind_ok in H as (? & ? & _ & H)). injection H as <- _. reflexivity.
  - injection H as <- <-.
    destruct (opt_auto_dataframe self options).
    + apply dataframe_block in H2 as (df & -> & Ed). exists df. split; [reflexivity|].
      eapply emits_emitted; eassumption.
    + injection H2 as <- _. destruct (opt_columns_to_local_vars self options); exact Hr1.
Qed.

End Returned.

Section NoDataframe.

Variables (env : Env) (self : Kqlmagic).

Lemma returns_no_dataframe_bind {A : Type} (m : M A) (k : A -> M nsval) :
  (forall a, returns_no_dataframe (k a)) -> returns_no_dataframe (bind m k).
Proof.
  intros Hk s r s'. unfold bind. destruct (m s) as [[a|e] s1].
  - apply Hk.
  - intros [= <- _]. exact I.
Qed.

Lemma returns_no_dataframe_try_except (m : M nsval) (h : exn -> M nsval) :
  returns_no_dataframe m -> (forall e, returns_no_dataframe (h e)) ->
  returns_no_dataframe (try_except m h).
Proof.
  intros Hm Hh s r s'. unfold try_except. destruct (m s) as [[a|e] s1] eqn:E.
  - intros [= <- _]. exact (Hm _ _ _ E).
  - destruct (is_exception e); [apply Hh | intros [= <- _]; exact I].
Qed.

Lemma returns_no_dataframe_none : returns_no_dataframe (ret (NVal VNone)).
Proof. intros s r s' [= <- _]. exact I. Qed.

(** Line 695 lets no dataframe through. *)
Lemma return_result_no_dataframe (saved_result fork_table_id : nat) (result : nsval) :
  returns_no_dataframe (return_result env saved_result fork_table_id result).
Proof.
  intros s r s'. unfold return_result, bind, call, get_world, ret.
  destruct result as [x|x|df|x]; simpl; try (intros [= <- _]; exact I).
  destruct (Nat.eqb x saved_result); intros [= <- _]; exact I.
Qed.

Lemma outer_handler_no_dataframe (options : gmap string pyval) (suppress_results : pyval)
    (e : exn) :
  returns_no_dataframe (outer_handler env self options suppress_results e).
Proof.
  unfold outer_handler. repeat (apply returns_no_dataframe_bind; intros ?).
  destruct (opt_short_errors self options).
  - apply returns_no_dataframe_bind. intros _. apply returns_no_dataframe_none.
  - intros s r s' [= <- _]. exact I.
Qed.

Lemma execute_query_m_no_dataframe (parsed : Parsed) (user_ns : namespace)
    (result_set : option (nat * ResultSet)) :
  returns_no_dataframe (execute_query_m env self parsed user_ns result_set).
Proof.
  unfold execute_query_m. apply returns_no_dataframe_bind. intros _.
  destruct (str_empty _ && str_empty _); [apply returns_no_dataframe_none|].
  apply returns_no_dataframe_bind. intros [conn|]; [|apply returns_no_dataframe_none].
  apply returns_no_dataframe_try_except; [|apply outer_handler_no_dataframe].
  unfold main_block. apply returns_no_dataframe_bind. intros conn'.
  unfold with_connection. do 2 (apply returns_no_dataframe_bind; intros ?).
  destruct (str_empty _).
  - do 3 (apply returns_no_dataframe_bind; intros ?). apply returns_no_dataframe_none.
  - unfold submit_query. do 2 (apply returns_no_dataframe_bind; intros ?).
    destruct a2 as [fork_table_id saved_result].
    do 3 (apply returns_no_dataframe_bind; intros ?).
    apply return_result_no_dataframe.
Qed.

End NoDataframe.

(** X25: line 695.  execute_query never returns a dataframe, whatever the
    options: the test of line 695 raises on the dataframe that
    auto_dataframe put in [result], and every other path returns None or
    a result set. *)
Theorem execute_query_returns_no_dataframe :
  forall (env : Env) (self : Kqlmagic) (parsed : Parsed) (user_ns : namespace)
         (result_set : option (nat * ResultSet)) (w : World),
    no_dataframe (fst (execute_query env self parsed user_ns result_set w)).
Proof.
  intros env self parsed user_ns result_set w. unfold execute_query.
  destruct (execute_query_m _ _ _ _ _ _) as [r s] eqn:E. simpl.
  exact (execute_query_m_no_dataframe env self _ _ _ _ _ _ E).
Qed.

(** X23: lines 625, 642-662 and 695-697.  What a query that returns gives
    back, by the options (each with its trait as default): None when a
    result_var is given on a top-level invocation; otherwise auto_dataframe
    is off (with it on, line 695 raises and the query does not return),
    and the value is None with columns_to_local_vars, else the result set
    that fork_result gives for the one bound to the last-raw-result
    name. *)
Theorem returned_value_follows_options :
  forall (env : Env) (self : Kqlmagic) (parsed : Parsed) (user_ns : namespace)
         (result_set : option (nat * ResultSet)) (w : World) (v : nsval) (w' : World),
    main_block_returns env self parsed user_ns result_set w v w' ->
    strip (p_query parsed) <> EmptyString ->
    let options := p_options parsed in
    if result_var_wanted result_set options then v = NVal VNone
    else
      opt_auto_dataframe self options = false
      /\ (if opt_columns_to_local_vars self options then v = NVal VNone
          else exists saved fork_table_id,
                 v = NResultSet (fst (env_fork_result env w' saved fork_table_id))
                 /\ w_shell_ns w' !! key_of (opt_last_raw_result_var self options)
                    = Some (NResultSet saved)).
Proof.
  intros env self parsed user_ns result_set w v w' Hret Hq options.
  assert (str_empty (strip (p_query parsed)) = false) as Hq'
    by (unfold str_empty; apply String.eqb_neq; exact Hq).
  destruct (query_phases env self _ _ _ _ _ _ Hret Hq')
    as (conn & run & ft & saved & result & sd & se & sf & s2
        & _ & _ & _ & _ & H3 & _ & Hns5 & _ & H6 & ->).
  pose proof (bind_result_value env self _ _ _ _ _ _ H3) as Hv.
  fold options in Hv.
  destruct (result_var_wanted result_set options).
  { subst result. unfold return_result, bind, call, ret in H6. simpl in H6.
    injection H6 as <-. reflexivity. }
  destruct (opt_auto_dataframe self options).
  { destruct Hv as (df & -> & _).
    unfold return_result, bind, call in H6. simpl in H6. discriminate H6. }
  split; [reflexivity|].
  destruct (opt_columns_to_local_vars self options); subst result.
  - unfold return_result, bind, call, ret in H6. simpl in H6.
    injection H6 as <-. reflexivity.
  - unfold return_result, bind, call, get_world, ret in H6. simpl in H6.
    rewrite Nat.eqb_refl in H6. injection H6 as <-.
    exists saved, ft. split; [reflexivity|].
    rewrite Hns5. apply lookup_union_Some_l. apply lookup_singleton_eq.
Qed.

Lemma returned_value_follows_options_witness :
  let parsed := Scenario.invocation "T | take 1" "" ∅ in
  let w := Scenario.one_connection in
  let w' := snd (execute_query Scenario.healthy default_magic parsed ∅ None w) in
  opt_auto_dataframe default_magic ∅ = false
  /\ exists saved fork_table_id,
       NResultSet 0
       = NResultSet (fst (env_fork_result Scenario.healthy w' saved fork_table_id))
       /\ w_shell_ns w' !! KStr "_kql_raw_result_" = Some (NResultSet saved).
Proof.
  intros parsed w w'.
  refine (returned_value_follows_options Scenario.healthy default_magic parsed ∅ None w
            (NResultSet 0) w' _ _).
  - eexists Scenario.kusto_conn, _, _.
    split; [unfold resolves; vm_compute; reflexivity | split; vm_compute; reflexivity].
  - vm_compute. discriminate.
Defined.

(** With auto_dataframe on and no result_var, a query whose every step
    succeeds ends in the handler of the second [try]: the result set is
    bound to the last-raw-result name, the success message is displayed,
    then the ValueError of line 695 is displayed and None is returned. *)
Example auto_dataframe_without_result_var_fails :
  let parsed := Scenario.invocation "T | take 1" "" {[ "auto_dataframe" := VBool true ]} in
  let run := execute_query Scenario.healthy default_magic parsed ∅ None
               Scenario.one_connection in
  fst run = Ok (NVal VNone)
  /\ w_shell_ns (snd run) !! KStr "_kql_raw_result_" = Some (NResultSet 0)
  /\ List.filter (fun e => match e with
                           | EvDataframe _ _ | EvSuccess _ | EvDanger _ => true
                           | _ => false
                           end) (w_trace (snd run))
     = [EvDataframe 0 (mkDataFrame 9);
        EvSuccess ["Done (00:00.001): 3 records";
                   "Returning data converted to pandas dataframe"];
        EvDanger "The truth value of a DataFrame is ambiguous."].
Proof. vm_compute. repeat split; reflexivity. Qed.

Lemma has_feedback_alter (ref : nat) (msg : string) (f : ResultSet -> ResultSet)
    (w : World) :
  (forall r, In msg (rs_feedback_info r) -> In msg (rs_feedback_info (f r))) ->
  has_feedback ref msg w ->
  has_feedback ref msg (w_set_results (alter f ref (w_results w)) w).
Proof.
  unfold has_feedback, feedback_of. simpl. intros Hf. rewrite lookup_alter_eq.
  destruct (w_results w !! ref) as [r|]; simpl; [apply Hf | auto].
Qed.

Ltac feedback_prim :=
  first [ apply has_feedback_alter;
          [intros ?; simpl; rewrite ?in_app_iff; tauto | assumption]
        | assumption ].

Section SavedAs.

Variables (env : Env) (self : Kqlmagic).

Lemma append_feedback_has (ref : nat) (msg : string) (s s' : St) (r : ResultSet) :
  w_results (st_world s) !! ref = Some r ->
  append_feedback ref msg s = (Ok tt, s') ->
  has_feedback ref msg (st_world s').
Proof.
  intros Hr [= <-]. unfold has_feedback, feedback_of. simpl.
  rewrite lookup_alter_eq, Hr. simpl. apply in_or_app. right. left. reflexivity.
Qed.

(** Lines 600-607 with save_to given: the path kept in save_as_file_path
    is the one the save_to call returned. *)
Lemma run_query_save_to (user_ns : namespace) (result_set : option (nat * ResultSet))
    (options : gmap string pyval) (query : string) (conn : Conn)
    (s s' : St) (run : QueryRun) :
  is_not_none (opt_get options "save_to") = true ->
  run_query env user_ns result_set options query conn s = (Ok run, s') ->
  exists w2,
    env_cache_save env w2 (qr_raw_query_result run) (conn_database conn)
      (conn_cluster conn) (qr_parametrized_query run)
      (SaveFilefolder (opt_get options "save_to")) options
    = inr (qr_save_as_file_path run).
Proof.
  intros Hto H. unfold run_query in H. rewrite Hto in H.
  apply bind_ok in H as (w0 & s0 & H0 & H).
  apply bind_ok in H as (pq & s1 & H1 & H).
  apply bind_ok in H as ([] & s2 & H2 & H).
  apply bind_ok in H as (raw & s3 & H3 & H).
  apply bind_ok in H as ([] & s4 & H4 & H).
  apply bind_ok in H as (w4 & s5 & H5 & H).
  apply bind_ok in H as (p1 & s6 & H6 & H).
  apply bind_ok in H as (p2 & s7 & H7 & H).
  injection H as <- <-. simpl.
  unfold cache_save, bind, emit, modify, call in H7. simpl in H7.
  destruct (env_cache_save env _ raw _ _ pq _ options) as [e|p] eqn:E; [discriminate|].
  injection H7 as <- _. eexists. exact E.
Qed.

(** Lines 669-675 with feedback on: the two messages about saved files. *)
Lemma report_result_saved_feedback (result_set : option (nat * ResultSet))
    (options : gmap string pyval) (suppress_results : pyval) (conn : Conn)
    (run : QueryRun) (saved_result : nat) (result : nsval) (s s' : St) (r : ResultSet) :
  is_not_none (opt_get options "save_as") = true ->
  is_not_none (opt_get options "save_to") = true ->
  opt_feedback self options = true ->
  w_results (st_world s) !! saved_result = Some r ->
  report_result env self result_set options suppress_results conn run
    saved_result result s = (Ok tt, s') ->
  has_feedback saved_result
    ("query results saved as " ++ qr_save_as_file_path run)%string (st_world s')
  /\ has_feedback saved_result
       ("query results saved to " ++ dirname (qr_save_as_file_path run))%string
       (st_world s').
Proof.
  intros Has Hto Hfb Hr H. unfold report_result in H. rewrite Has, Hto, Hfb in H.
  simpl in H.
  apply bind_ok in H as ([] & s1 & H1 & H).
  apply bind_ok in H as ([] & s2 & H2 & H).
  apply bind_ok in H as ([] & s3 & H3 & H).
  assert (is_Some (w_results (st_world s1) !! saved_result)) as [r1 Hr1].
  { eapply (steps_run (preserving (fun w => is_Some (w_results w !! saved_result)))) in H1.
    - apply H1. eauto.
    - unfold_lifecycle.
      steps_with ltac:(intros ?; simpl; rewrite ?lookup_alter_is_Some; assumption). }
  pose proof (append_feedback_has _ _ _ _ _ Hr1 H2) as F2.
  assert (is_Some (w_results (st_world s2) !! saved_result)) as [r2 Hr2].
  { injection H2 as <-. simpl. rewrite lookup_alter_is_Some. eauto. }
  pose proof (append_feedback_has _ _ _ _ _ Hr2 H3) as F3.
  split.
  - eapply (steps_run (preserving (has_feedback saved_result _))) in H; [apply H|].
    + eapply (steps_run (preserving (has_feedback saved_result _))) in H3;
        [apply H3, F2|].
      unfold_lifecycle. steps_with ltac:(intros ?; feedback_prim).
    + unfold_lifecycle. steps_with ltac:(intros ?; feedback_prim).
  - eapply (steps_run (preserving (has_feedback saved_result _))) in H; [apply H, F3|].
    unfold_lifecycle. steps_with ltac:(intros ?; feedback_prim).
Qed.

End SavedAs.

(** X24: lines 600-607 and 669-675.  save_as_file_path is assigned by
    both saves: when save_as and save_to are both given and feedback is
    on, the feedback "query results saved as ..." of a query that returns
    names the path that the save_to call returned, and the feedback
    "query results saved to ..." names the folder of that same path. *)
Theorem saved_as_feedback_names_the_save_to_file :
  forall (env : Env) (self : Kqlmagic) (parsed : Parsed) (user_ns : namespace)
         (result_set : option (nat * ResultSet)) (w : World) (v : nsval) (w' : World),
    main_block_returns env self parsed user_ns result_set w v w' ->
    strip (p_query parsed) <> EmptyString ->
    let options := p_options parsed in
    is_not_none (opt_get options "save_as") = true ->
    is_not_none (opt_get options "save_to") = true ->
    opt_feedback self options = true ->
    exists ref rs conn query w2 path,
      w_shell_ns w' !! key_of (opt_last_raw_result_var self options)
      = Some (NResultSet ref)
      /\ w_results w' !! ref = Some rs
      /\ env_cache_save env w2 (rs_raw rs) (conn_database conn) (conn_cluster conn) query
           (SaveFilefolder (opt_get options "save_to")) options = inr path
      /\ In ("query results saved as " ++ path)%string (rs_feedback_info rs)
      /\ In ("query results saved to " ++ dirname path)%string (rs_feedback_info rs).
Proof.
  intros env self parsed user_ns result_set w v w' Hret Hq options Has Hto Hfb.
  assert (str_empty (strip (p_query parsed)) = false) as Hq'
    by (unfold str_empty; apply String.eqb_neq; exact Hq).
  destruct Hret as (conn & s1 & s2 & _ & Hmain & ->).
  apply main_block_query_ok in Hmain as (conn' & sb & _ & Hsub); [|exact Hq'].
  apply submit_query_ok in Hsub
    as (run & ft & saved & result & sc & sd & se & sf & sg
        & H1 & H2 & H3 & H4 & H5 & H6).
  apply (run_query_save_to env _ _ _ _ _ _ _ _ Hto) in H1 as (w2 & Hsave).
  apply model_query_results_holds in H2 as Hh.
  pose proof (bind_result_holds env self _ _ _ (qr_raw_query_result run) _ _ _ H3) as Hh3.
  pose proof (report_result_holds env self _ _ _ _ _ _ _ (qr_raw_query_result run)
                _ _ _ H4) as Hh4.
  destruct (Hh3 Hh) as (rse & Hle & _).
  destruct (Hh4 (Hh3 Hh)) as (rs & Hl & Hraw).
  destruct (report_result_saved_feedback env self _ _ _ _ _ _ _ _ _ _ Has Hto Hfb Hle H4)
    as [Fas Fto].
  apply bind_last_raw_result_state in H5 as (Hns & Hrs & _).
  apply return_result_state in H6 as ->.
  unfold has_feedback, feedback_of in Fas, Fto. rewrite Hl in Fas, Fto.
  exists saved, rs, conn', (qr_parametrized_query run), w2, (qr_save_as_file_path run).
  split; [|split; [|split; [|split]]].
  - rewrite Hns. apply lookup_union_Some_l. apply lookup_singleton_eq.
  - rewrite Hrs. exact Hl.
  - rewrite Hraw. exact Hsave.
  - exact Fas.
  - exact Fto.
Qed.

Lemma saved_as_feedback_names_the_save_to_file_witness :
  let options := {[ "save_as" := VStr "out.json"; "save_to" := VStr "exports" ]} in
  let parsed := Scenario.invocation "T | take 1" "" options in
  let w := Scenario.one_connection in
  let w' := snd (execute_query Scenario.healthy default_magic parsed ∅ None w) in
  exists ref rs conn query w2 path,
    w_shell_ns w' !! KStr "_kql_raw_result_" = Some (NResultSet ref)
    /\ w_results w' !! ref = Some rs
    /\ env_cache_save Scenario.healthy w2 (rs_raw rs) (conn_database conn)
         (conn_cluster conn) query (SaveFilefolder (VStr "exports")) options = inr path
    /\ In ("query results saved as " ++ path)%string (rs_feedback_info rs)
    /\ In ("query results saved to " ++ dirname path)%string (rs_feedback_info rs).
Proof.
  intros options parsed w w'.
  refine (saved_as_feedback_names_the_save_to_file Scenario.healthy default_magic parsed ∅
            None w (NResultSet 0) w' _ _ _ _ _).
  - eexists Scenario.kusto_conn, _, _.
    split; [unfold resolves; vm_compute; reflexivity | split; vm_compute; reflexivity].
  - vm_compute. discriminate.
  - reflexivity.
  - reflexivity.
  - reflexivity.
Defined.

(* --------------------------------------------------------------------- *)
(* The cache commands                                                    *)
(* --------------------------------------------------------------------- *)

(** X13: lines 155-185.  The use_cache command changes the magic object
    exactly as the cache command does (both assign the cache attribute),
    the later of two such commands wins whichever they are, and the status
    text of use_cache quotes the use_cache attribute as it was before the
    call, while the text of cache quotes the name given. *)
Theorem cache_commands_write_the_same_attribute :
  forall (pkg : string) (self : Kqlmagic) (a b : option string),
    let use_cmd := execute_use_cache_command pkg in
    let cache_cmd := execute_cache_command pkg in
    fst (use_cmd self a) = fst (cache_cmd self a)
    /\ fst (cache_cmd (fst (use_cmd self a)) b) = fst (cache_cmd self b)
    /\ fst (use_cmd (fst (cache_cmd self a)) b) = fst (use_cmd self b)
    /\ snd (use_cmd self a)
       = (if cache_name_given a
          then pkg ++ " cache in folder **" ++ str_opt (use_cache self) ++ "** was enabled."
          else pkg ++ " cache was disabled.")%string
    /\ snd (cache_cmd self a)
       = (if cache_name_given a
          then pkg ++ " caching to folder **" ++ str_opt a ++ "** was enabled."
          else pkg ++ " caching was disabled.")%string.
Proof.
  intros pkg self a b use_cmd cache_cmd. subst use_cmd cache_cmd.
  unfold execute_use_cache_command, execute_cache_command.
  destruct (cache_name_given a), (cache_name_given b); simpl; auto 10.
Qed.

(* ===================================================================== *)
(* Kqlmagic.execute                                                      *)
(* ===================================================================== *)

#[global] Instance same_traits_but_cache_equiv : Equivalence same_traits_but_cache.
Proof.
  split; unfold same_traits_but_cache.
  - intros a. reflexivity.
  - intros a b H. symmetry. exact H.
  - intros a b c H1 H2. congruence.
Qed.

Lemma same_traits_set_cache (self : Kqlmagic) (v : option string) :
  same_traits_but_cache (set_cache self v) self.
Proof. reflexivity. Qed.

Lemma same_traits_restore (a b : Kqlmagic) :
  same_traits_but_cache a b -> set_cache a (cache b) = b.
Proof.
  unfold same_traits_but_cache. destruct a, b. unfold set_cache. simpl.
  intros [= -> -> -> -> -> -> -> -> -> -> -> ->]. reflexivity.
Qed.

Lemma same_traits_short_errors (a b : Kqlmagic) :
  same_traits_but_cache a b -> short_errors a = short_errors b.
Proof.
  unfold same_traits_but_cache. destruct a, b. unfold set_cache. simpl.
  intros [= -> _]. reflexivity.
Qed.

Section ExecuteFacts.

Variables (cenv : CommandEnv) (env : Env) (pkg : string).

Lemma cache_command_traits (self self' : Kqlmagic) (param : pyval) (text : string) :
  (call_cache_command (execute_cache_command pkg) self param = inr (self', text)
   \/ call_cache_command (execute_use_cache_command pkg) self param = inr (self', text)) ->
  same_traits_but_cache self' self.
Proof.
  unfold call_cache_command, execute_cache_command, execute_use_cache_command.
  intros [H|H]; destruct param; try discriminate;
    destruct (cache_name_given _); injection H as <- _; apply same_traits_set_cache.
Qed.

Lemma run_command_traits (self : Kqlmagic) (w : World) (options : gmap string pyval)
    (command : string) (param : pyval) (run : CommandRun) :
  run_command cenv pkg self w options command param = inr run ->
  same_traits_but_cache (run_self run) self.
Proof.
  unfold run_command.
  repeat match goal with
         | |- context [if ?b then _ else _] => destruct b
         end;
    try discriminate.
  all: try (destruct (call_cache_command _ self param) as [e|[self' text]] eqn:E;
            [discriminate|];
            intros [= <-]; simpl; eapply cache_command_traits; eauto).
  all: repeat match goal with
              | |- context [match ?x with inl _ => _ | inr _ => _ end] => destruct x
              end;
    try discriminate; intros [= <-]; reflexivity.
Qed.

Lemma present_command_self (options : gmap string pyval) (command : string)
    (run : CommandRun) (sh sh' : Shell) (t : turn) :
  present_command cenv options command run sh = (t, sh') ->
  sh_self sh' = sh_self sh /\ sh_world sh' = sh_world sh.
Proof.
  unfold present_command.
  destruct (run_result run) as [[tag [[[name url] bt]|] html]|]; simpl.
  - intros [= _ <-]. auto.
  - destruct (truthy _); [|intros [= _ <-]; auto].
    destruct html as [[e|[h|]]|]; try (intros [= _ <-]; auto).
    destruct (popup_names _ _ _) as [fn btn].
    destruct (cenv_html_to_file_path _ _ _ _ _); intros [= _ <-]; auto.
  - destruct (truthy _); intros [= _ <-]; auto.
Qed.

Lemma execute_parsed_traits (user_ns : namespace) (parsed : ParsedCommand)
    (sh sh' : Shell) (t : turn) :
  execute_parsed cenv env pkg user_ns parsed sh = (t, sh') ->
  same_traits_but_cache (sh_self sh') (sh_self sh).
Proof.
  unfold execute_parsed.
  assert (forall parsed0,
             (let (r, w) := execute_query env (sh_self sh) parsed0 user_ns None (sh_world sh) in
              match r with
              | Ok v => (Next (XValue v), sh_set_world w sh)
              | Raise e => (Failed e, sh_set_world w sh)
              end) = (t, sh') ->
             same_traits_but_cache (sh_self sh') (sh_self sh)) as Hq.
  { intros parsed0. destruct (execute_query _ _ _ _ _ _) as [[v|e] w];
      intros [= _ <-]; reflexivity. }
  destruct (pc_command parsed) as [command|]; [|apply Hq].
  destruct (String.eqb command "submit"); [apply Hq|].
  destruct (run_command _ _ _ _ _ _ _) as [e|run] eqn:E.
  - intros [= _ <-]. reflexivity.
  - intros H. apply present_command_self in H as [-> _]. simpl.
    eapply run_command_traits, E.
Qed.

Lemma execute_loop_traits (user_ns : namespace) (parsed_queries : list ParsedCommand)
    (result : xval) (sh sh' : Shell) (l : loop_end) :
  execute_loop cenv env pkg user_ns parsed_queries result sh = (l, sh') ->
  same_traits_but_cache (sh_self sh') (sh_self sh)
  /\ forall e parsed, l = Raised e parsed -> In parsed parsed_queries.
Proof.
  revert result sh. induction parsed_queries as [|parsed rest IH]; intros result sh; simpl.
  - intros [= <- <-]. split; [reflexivity | discriminate].
  - destruct (execute_parsed _ _ _ _ _ _) as [[r|  |e] sh1] eqn:E;
      apply execute_parsed_traits in E.
    + intros H. apply IH in H as [H1 H2]. split; [etransitivity; eassumption|].
      intros e p Hl. right. eapply H2, Hl.
    + intros [= <- <-]. split; [exact E | discriminate].
    + intros [= <- <-]. split; [exact E|]. intros e' p [= _ <-]. left. reflexivity.
Qed.

Lemma execute_handler_self (parsed : option ParsedCommand) (e : exn) (sh : Shell) :
  sh_self (snd (execute_handler parsed e sh)) = sh_self sh
  /\ sh_windows (snd (execute_handler parsed e sh)) = sh_windows sh.
Proof.
  unfold execute_handler. cbv zeta. destruct (is_exception e); [|simpl; auto].
  destruct parsed; [destruct (opt_short_errors _ _) | destruct (short_errors _)];
    simpl; auto.
Qed.

Lemma present_command_windows (options : gmap string pyval) (command : string)
    (run : CommandRun) (sh sh' : Shell) (t : turn) :
  present_command cenv options command run sh = (t, sh') ->
  sh_windows sh' = sh_windows sh
  \/ (t = ReturnNone /\ exists win, sh_windows sh' = sh_windows sh ++ [win]).
Proof.
  unfold present_command.
  destruct (run_result run) as [[tag [[[name url] bt]|] html]|]; simpl.
  - intros [= <- <-]. right. split; [reflexivity|]. eexists. reflexivity.
  - destruct (truthy _); [|intros [= _ <-]; auto].
    destruct html as [[e|[h|]]|]; try (intros [= _ <-]; auto).
    destruct (popup_names _ _ _) as [fn btn].
    destruct (cenv_html_to_file_path _ _ _ _ _); intros [= <- <-]; auto.
    right. split; [reflexivity|]. eexists. reflexivity.
  - destruct (truthy _); intros [= _ <-]; auto.
Qed.

Lemma execute_parsed_windows (user_ns : namespace) (parsed : ParsedCommand)
    (sh sh' : Shell) (t : turn) :
  execute_parsed cenv env pkg user_ns parsed sh = (t, sh') ->
  sh_windows sh' = sh_windows sh
  \/ (t = ReturnNone /\ exists win, sh_windows sh' = sh_windows sh ++ [win]).
Proof.
  unfold execute_parsed.
  assert (forall parsed0,
             (let (r, w) := execute_query env (sh_self sh) parsed0 user_ns None (sh_world sh) in
              match r with
              | Ok v => (Next (XValue v), sh_set_world w sh)
              | Raise e => (Failed e, sh_set_world w sh)
              end) = (t, sh') ->
             sh_windows sh' = sh_windows sh) as Hq.
  { intros parsed0. destruct (execute_query _ _ _ _ _ _) as [[v|e] w];
      intros [= _ <-]; reflexivity. }
  destruct (pc_command parsed) as [command|]; [|intros H; left; eapply Hq, H].
  destruct (String.eqb command "submit"); [intros H; left; eapply Hq, H|].
  destruct (run_command _ _ _ _ _ _ _) as [e|run] eqn:E.
  - intros [= _ <-]. auto.
  - intros H. apply present_command_windows in H. exact H.
Qed.

Lemma execute_loop_windows (user_ns : namespace) (parsed_queries : list ParsedCommand)
    (result : xval) (sh sh' : Shell) (l : loop_end) :
  execute_loop cenv env pkg user_ns parsed_queries result sh = (l, sh') ->
  sh_windows sh' = sh_windows sh
  \/ (l = Returned XNone /\ exists win, sh_windows sh' = sh_windows sh ++ [win]).
Proof.
  revert result sh. induction parsed_queries as [|parsed rest IH]; intros result sh; simpl.
  - intros [= <- <-]. auto.
  - destruct (execute_parsed _ _ _ _ _ _) as [[r|  |e] sh1] eqn:E;
      apply execute_parsed_windows in E as [E|[E1 E2]]; try discriminate E1.
    + intros H. apply IH in H. rewrite E in H. exact H.
    + intros [= <- <-]. auto.
    + intros [= <- <-]. auto.
    + intros [= <- <-]. auto.
Qed.

End ExecuteFacts.

(** X14: lines 399-482.  With the short_errors trait on and no parsed
    query whose options switch it off, execute lets no Exception out:
    whatever Parser.parse, a command or execute_query raises (the
    exceptions that execute_query lets through included) is caught by the
    handler of line 474, which displays the message and returns None,
    unless it is not an instance of Exception (KeyboardInterrupt,
    SystemExit): such an exception is all that execute can raise. *)
Theorem execute_with_short_errors_raises_no_exception :
  forall (cenv : CommandEnv) (env : Env) (pkg : string) (line cell : string)
         (local_ns : namespace) (sh : Shell),
    short_errors (sh_self sh) = true ->
    (forall parsed_queries,
        cenv_parse cenv (sh_world sh) line cell (sh_self sh)
          (local_ns ∪ w_shell_ns (sh_world sh)) = inr parsed_queries ->
        Forall (fun parsed =>
                  opt_short_errors (sh_self sh) (p_options (pc_parsed parsed)) = true)
          parsed_queries) ->
    raises_no_exception (fst (execute cenv env pkg line cell local_ns sh)).
Proof.
  intros cenv env pkg line cell local_ns sh Hshort Hall. unfold execute.
  destruct (cenv_parse _ _ _ _ _ _) as [e|pcs] eqn:Ep.
  - unfold execute_handler. rewrite Hshort.
    destruct (is_exception e) eqn:Hex; simpl; [exact I | exact Hex].
  - specialize (Hall pcs eq_refl).
    destruct (execute_loop _ _ _ _ _ _ _) as [[v|e parsed] sh'] eqn:El.
    + exact I.
    + apply execute_loop_traits in El as [Ht Hin].
      specialize (Hin e parsed eq_refl).
      rewrite List.Forall_forall in Hall. apply Hall in Hin.
      unfold execute_handler.
      assert (opt_short_errors (sh_self sh') (p_options (pc_parsed parsed)) = true) as ->.
      { unfold opt_short_errors in *. rewrite (same_traits_short_errors _ _ Ht). exact Hin. }
      destruct (is_exception e) eqn:Hex; simpl; [exact I | exact Hex].
Qed.

Lemma execute_with_short_errors_raises_no_exception_witness :
  let env := Scenario.backend (Some (mkExn OtherException "no such cluster")) None
               Scenario.kusto_conn in
  raises_no_exception
    (fst (execute Notebook.commands env "Kqlmagic" "kusto://cluster('nowhere')" "T | take 1"
            ∅ Notebook.shell)).
Proof.
  intros env.
  apply (execute_with_short_errors_raises_no_exception Notebook.commands env "Kqlmagic"
           "kusto://cluster('nowhere')" "T | take 1" ∅ Notebook.shell).
  - reflexivity.
  - intros parsed_queries [= <-]. repeat constructor.
Defined.

(** With the short_errors trait on, a KeyboardInterrupt during the query
    leaves execute as it is, and nothing is displayed for it. *)
Example execute_lets_keyboard_interrupt_through :
  let e := mkExn BaseException "KeyboardInterrupt" in
  let env := Scenario.backend None (Some e) Scenario.kusto_conn in
  let run := execute Notebook.commands env "Kqlmagic" "" "T | take 1" ∅ Notebook.shell in
  short_errors (sh_self Notebook.shell) = true
  /\ fst run = Raise e
  /\ w_trace (sh_world (snd run)) = [EvGetConnection ""; EvValidate 1].
Proof. vm_compute. repeat split; reflexivity. Qed.

(** X15: lines 453-454 and 474-482.  A command that execute does not
    know ends the call at once, before any later query of the cell runs:
    with short errors on for that parsed query, the message
    "command <name> not implemented" is displayed and None returned; with
    short errors off, the ValueError is raised.  Nothing else changes. *)
Theorem unknown_command_not_implemented :
  forall (cenv : CommandEnv) (env : Env) (pkg : string) (line cell : string)
         (local_ns : namespace) (sh : Shell)
         (parsed : ParsedCommand) (rest : list ParsedCommand) (command : string),
    cenv_parse cenv (sh_world sh) line cell (sh_self sh)
      (local_ns ∪ w_shell_ns (sh_world sh)) = inr (parsed :: rest) ->
    pc_command parsed = Some command ->
    known_command command = false ->
    let e := mkExn OtherException ("command " ++ command ++ " not implemented")%string in
    execute cenv env pkg line cell local_ns sh
    = if opt_short_errors (sh_self sh) (p_options (pc_parsed parsed))
      then (Ok XNone, sh_set_world (w_emit (EvDanger (exn_msg e)) (sh_world sh)) sh)
      else (Raise e, sh).
Proof.
  intros cenv env pkg line cell local_ns sh parsed rest command Hp Hc Hk e.
  unfold known_command in Hk. simpl in Hk.
  repeat (apply orb_false_elim in Hk as [? Hk]).
  unfold execute. rewrite Hp. simpl. unfold execute_parsed, run_command.
  rewrite Hc.
  repeat match goal with
         | H : String.eqb command _ = false |- _ => rewrite H; clear H
         end.
  unfold execute_handler. reflexivity.
Qed.

Lemma unknown_command_not_implemented_witness :
  execute Notebook.commands Scenario.healthy "Kqlmagic" "--schema" "" ∅ Notebook.shell
  = (Ok XNone,
     sh_set_world (w_emit (EvDanger "command schema not implemented")
                     Scenario.one_connection) Notebook.shell).
Proof.
  exact (unknown_command_not_implemented Notebook.commands Scenario.healthy "Kqlmagic"
           "--schema" "" ∅ Notebook.shell
           (mkParsedCommand (mkParsed "" ∅ "") (Some "schema") VNone) [] "schema"
           eq_refl eq_refl eq_refl).
Defined.

(** X16: lines 297-482.  Whatever the cell holds and however the call
    ends, execute changes no trait of the magic object other than cache:
    put the old cache value back and the object is as it was. *)
Theorem execute_changes_no_trait_but_cache :
  forall (cenv : CommandEnv) (env : Env) (pkg : string) (line cell : string)
         (local_ns : namespace) (sh : Shell),
    let sh' := snd (execute cenv env pkg line cell local_ns sh) in
    set_cache (sh_self sh') (cache (sh_self sh)) = sh_self sh.
Proof.
  intros cenv env pkg line cell local_ns sh sh'. subst sh'.
  apply same_traits_restore. unfold execute.
  destruct (cenv_parse _ _ _ _ _ _) as [e|pcs].
  - rewrite (proj1 (execute_handler_self _ _ _)). reflexivity.
  - destruct (execute_loop _ _ _ _ _ _ _) as [[v|e parsed] sh1] eqn:El;
      apply execute_loop_traits in El as [Ht _]; simpl; [exact Ht|].
    rewrite (proj1 (execute_handler_self _ _ _)). exact Ht.
Qed.

Section Popups.

Variables (cenv : CommandEnv) (env : Env) (pkg : string).

(** One invocation of execute_query asks for the schema popup at most
    once (line 574). *)
Lemma execute_query_m_popups (self : Kqlmagic) (parsed : Parsed) (user_ns : namespace)
    (result_set : option (nat * ResultSet)) :
  bounded is_popup_schema 1 (execute_query_m env self parsed user_ns result_set).
Proof.
  unfold execute_query_m.
  bounded_seq 0%nat 1%nat; [bounded_quiet_tac | intros _].
  destruct (_ && _); [bounded_none|].
  bounded_seq 0%nat 1%nat; [bounded_quiet_tac|].
  intros [conn|]; [|bounded_none].
  apply (bounded_weaken _ (1 + 0)); [lia|]. apply bounded_try_except;
    [|intros e; bounded_quiet_tac].
  unfold main_block. bounded_seq 0%nat 1%nat; [bounded_quiet_tac | intros conn'].
  unfold with_connection. bounded_seq 0%nat 1%nat; [bounded_quiet_tac | intros _].
  bounded_seq 1%nat 0%nat; [|intros _; bounded_quiet_tac].
  unfold schema_side_effects. bounded_seq 1%nat 0%nat; [|intros p; bounded_quiet_tac].
  unfold popup_schema_step. bounded_seq 0%nat 1%nat; [bounded_quiet_tac | intros w].
  destruct (_ || _); [|bounded_none].
  bounded_seq 0%nat 1%nat; [bounded_quiet_tac | intros p].
  bounded_seq 1%nat 0%nat; [|intros _; bounded_quiet_tac].
  apply (bounded_emit is_popup_schema (EvPopupSchema p (conn_ref conn'))).
Qed.

Lemma at_most_same (p : Event -> bool) (n : nat) (w w' : World) :
  w_trace w' = w_trace w -> at_most p n w w'.
Proof.
  intros H. exists []. split; [rewrite H; symmetry; apply app_nil_r|].
  unfold count_events. simpl. lia.
Qed.

Lemma execute_parsed_popups (user_ns : namespace) (parsed : ParsedCommand)
    (sh sh' : Shell) (t : turn) :
  execute_parsed cenv env pkg user_ns parsed sh = (t, sh') ->
  at_most is_popup_schema (Nat.b2n (is_submit (pc_command parsed)))
    (sh_world sh) (sh_world sh').
Proof.
  unfold execute_parsed.
  assert (forall parsed0,
             (let (r, w) := execute_query env (sh_self sh) parsed0 user_ns None (sh_world sh) in
              match r with
              | Ok v => (Next (XValue v), sh_set_world w sh)
              | Raise e => (Failed e, sh_set_world w sh)
              end) = (t, sh') ->
             at_most is_popup_schema 1 (sh_world sh) (sh_world sh')) as Hq.
  { intros parsed0. unfold execute_query.
    destruct (execute_query_m _ _ _ _ _ _) as [r s] eqn:E.
    apply execute_query_m_popups in E. simpl in E.
    destruct r; intros [= _ <-]; exact E. }
  destruct (pc_command parsed) as [command|]; [|apply Hq].
  simpl. destruct (String.eqb command "submit"); [apply Hq|].
  destruct (run_command _ _ _ _ _ _ _) as [e|run] eqn:E.
  - intros [= _ <-]. apply at_most_same. reflexivity.
  - intros H. apply present_command_self in H as [_ H]. apply at_most_same.
    rewrite H. reflexivity.
Qed.

Lemma execute_loop_popups (user_ns : namespace) (parsed_queries : list ParsedCommand)
    (result : xval) (sh sh' : Shell) (l : loop_end) :
  execute_loop cenv env pkg user_ns parsed_queries result sh = (l, sh') ->
  at_most is_popup_schema (submitted parsed_queries) (sh_world sh) (sh_world sh').
Proof.
  revert result sh. induction parsed_queries as [|parsed rest IH]; intros result sh; simpl.
  - intros [= _ <-]. apply at_most_same. reflexivity.
  - assert (submitted (parsed :: rest)
            = (Nat.b2n (is_submit (pc_command parsed)) + submitted rest)%nat) as ->
      by (unfold submitted; simpl; destruct (is_submit _); reflexivity).
    destruct (execute_parsed _ _ _ _ _ _) as [[r|  |e] sh1] eqn:E;
      apply execute_parsed_popups in E.
    + intros H. apply IH in H. eapply at_most_trans; eassumption.
    + intros [= _ <-]. eapply at_most_weaken; [|exact E]. lia.
    + intros [= _ <-]. eapply at_most_weaken; [|exact E]. lia.
Qed.

Lemma execute_handler_popups (parsed : option ParsedCommand) (e : exn) (sh : Shell) :
  at_most is_popup_schema 0 (sh_world sh) (sh_world (snd (execute_handler parsed e sh))).
Proof.
  unfold execute_handler. cbv zeta.
  destruct (is_exception e); [|apply at_most_same; reflexivity].
  destruct (match parsed with Some _ => _ | None => _ end);
    [|apply at_most_same; reflexivity].
  simpl. exists [EvDanger (exn_msg e)]. split; [reflexivity|].
  unfold count_events. simpl. lia.
Qed.

End Popups.

(** X17: lines 455-472 and 569-574.  In one call, execute itself calls
    Display.show_window at most once (lines 456 and 471), and a call in
    which it does returns None: each of its two show_window calls is
    followed by return None, so that no later parsed query of the cell
    shows another.  The schema popups that execute_query asks
    Database_html for (line 574) number at most one per parsed query that
    the call submits, and none when Parser.parse raises. *)
Theorem execute_window_and_popup_bounds :
  forall (cenv : CommandEnv) (env : Env) (pkg : string) (line cell : string)
         (local_ns : namespace) (sh : Shell),
    let r := execute cenv env pkg line cell local_ns sh in
    (sh_windows (snd r) = sh_windows sh
     \/ (fst r = Ok XNone /\ exists win, sh_windows (snd r) = sh_windows sh ++ [win]))
    /\ (count_events is_popup_schema (new_events (sh_world sh) (sh_world (snd r)))
        <= match cenv_parse cenv (sh_world sh) line cell (sh_self sh)
                   (local_ns ∪ w_shell_ns (sh_world sh)) with
           | inr parsed_queries => submitted parsed_queries
           | inl _ => 0
           end)%nat.
Proof.
  intros cenv env pkg line cell local_ns sh r. subst r. unfold execute. split.
  - destruct (cenv_parse _ _ _ _ _ _) as [e|pcs].
    + left. apply execute_handler_self.
    + destruct (execute_loop _ _ _ _ _ _ _) as [[v|e parsed] sh1] eqn:El;
        apply execute_loop_windows in El as [Hw|[Hl Hw]]; simpl; auto.
      * injection Hl as ->. auto.
      * left. rewrite (proj2 (execute_handler_self _ _ _)). exact Hw.
      * discriminate Hl.
  - apply at_most_new_events.
    destruct (cenv_parse _ _ _ _ _ _) as [e|pcs].
    + apply execute_handler_popups.
    + destruct (execute_loop _ _ _ _ _ _ _) as [[v|e parsed] sh1] eqn:El;
        apply execute_loop_popups in El; simpl; [exact El|].
      eapply at_most_weaken; [|eapply at_most_trans; [exact El|apply execute_handler_popups]].
      lia.
Qed.

(* ===================================================================== *)
(* Settings read from the process environment                            *)
(* ===================================================================== *)

(* --------------------------------------------------------------------- *)
(* Strings                                                               *)
(* --------------------------------------------------------------------- *)

Lemma all_chars_weaken (p q : ascii -> bool) (s : string) :
  (forall c, p c = true -> q c = true) -> all_chars p s = true -> all_chars q s = true.
Proof.
  intros Hpq. induction s as [|c s IH]; simpl; [auto|].
  rewrite !andb_true_iff. intros [Hc Hs]. auto.
Qed.

Lemma all_chars_and (p q : ascii -> bool) (s : string) :
  all_chars (fun c => p c && q c) s = all_chars p s && all_chars q s.
Proof.
  induction s as [|c s IH]; simpl; [reflexivity|]. rewrite IH.
  destruct (p c), (q c), (all_chars p s), (all_chars q s); reflexivity.
Qed.

Lemma all_chars_app (p : ascii -> bool) (a b : string) :
  all_chars p (a ++ b)%string = all_chars p a && all_chars p b.
Proof.
  induction a as [|c a IH]; simpl; [reflexivity|]. rewrite IH, andb_assoc. reflexivity.
Qed.







Lemma all_chars_drop_last (p : ascii -> bool) (s : string) :
  all_chars p s = true -> all_chars p (drop_last s) = true.
Proof.
  induction s as [|c s IH]; simpl; [auto|]. rewrite andb_true_iff. intros [Hc Hs].
  destruct s as [|y s']; [reflexivity|].
  change (all_chars p (String c (drop_last (String y s'))))
    with (p c && all_chars p (drop_last (String y s'))).
  rewrite Hc, (IH Hs). reflexivity.
Qed.



Lemma is_space_lower_char (c : ascii) : is_space (lower_char c) = is_space c.
Proof. destruct c as [[] [] [] [] [] [] [] []]; reflexivity. Qed.

Lemma lower_char_fixed (c : ascii) : is_upper c = false -> lower_char c = c.
Proof. unfold lower_char. intros ->. reflexivity. Qed.

Lemma map_string_app (f : ascii -> ascii) (a b : string) :
  map_string f (a ++ b)%string = (map_string f a ++ map_string f b)%string.
Proof. induction a as [|c a IH]; simpl; [reflexivity|]. rewrite IH. reflexivity. Qed.

Lemma lower_spaces (s : string) :
  all_chars is_space (lower s) = all_chars is_space s.
Proof.
  unfold lower. induction s as [|c s IH]; simpl; [reflexivity|].
  rewrite is_space_lower_char, IH. reflexivity.
Qed.

Lemma lower_fixed (s : string) :
  all_chars (fun c => negb (is_upper c)) s = true -> lower s = s.
Proof.
  unfold lower. induction s as [|c s IH]; simpl; [reflexivity|].
  rewrite andb_true_iff, negb_true_iff. intros [Hc Hs].
  rewrite (lower_char_fixed _ Hc), (IH Hs). reflexivity.
Qed.

Lemma remove_char_fixed (c : ascii) (s : string) :
  all_chars (fun x => negb (Ascii.eqb x c)) s = true -> remove_char c s = s.
Proof.
  induction s as [|x s IH]; simpl; [reflexivity|].
  rewrite andb_true_iff, negb_true_iff. intros [-> Hs]. rewrite (IH Hs). reflexivity.
Qed.

Lemma lstrip_spaces (s : string) : all_chars is_space s = true -> lstrip s = EmptyString.
Proof.
  induction s as [|c s IH]; simpl; [reflexivity|].
  rewrite andb_true_iff. intros [-> Hs]. auto.
Qed.

Lemma rstrip_spaces (s : string) : all_chars is_space s = true -> rstrip s = EmptyString.
Proof.
  induction s as [|c s IH]; simpl; [reflexivity|].
  rewrite andb_true_iff. intros [-> Hs]. rewrite (IH Hs). reflexivity.
Qed.

Lemma lstrip_app (a b : string) :
  lstrip (a ++ b)%string
  = if all_chars is_space a then lstrip b else (lstrip a ++ b)%string.
Proof.
  induction a as [|c a IH]; simpl; [reflexivity|].
  destruct (is_space c); simpl; [exact IH | reflexivity].
Qed.

Lemma rstrip_app_spaces (a ws : string) :
  all_chars is_space ws = true -> rstrip (a ++ ws)%string = rstrip a.
Proof.
  intros H. induction a as [|c a IH]; simpl; [apply rstrip_spaces, H|].
  rewrite IH. reflexivity.
Qed.

(** Blanks around a value do not reach the stripped value. *)
Lemma strip_blanks (ws1 ws2 s : string) :
  all_chars is_space ws1 = true -> all_chars is_space ws2 = true ->
  strip (ws1 ++ s ++ ws2)%string = strip s.
Proof.
  intros H1 H2. unfold strip. rewrite lstrip_app, H1, lstrip_app.
  destruct (all_chars is_space s) eqn:Hs.
  - rewrite (lstrip_spaces _ H2), (lstrip_spaces _ Hs). reflexivity.
  - apply rstrip_app_spaces, H2.
Qed.

Lemma lstrip_fixed (s : string) :
  all_chars (fun c => negb (is_space c)) s = true -> lstrip s = s.
Proof.
  destruct s as [|c s]; simpl; [reflexivity|].
  rewrite andb_true_iff, negb_true_iff. intros [-> _]. reflexivity.
Qed.

Lemma rstrip_fixed (s : string) :
  all_chars (fun c => negb (is_space c)) s = true -> rstrip s = s.
Proof.
  induction s as [|c s IH]; simpl; [reflexivity|].
  rewrite andb_true_iff, negb_true_iff. intros [Hc Hs]. rewrite (IH Hs), Hc.
  destruct s; reflexivity.
Qed.

Lemma strip_fixed (s : string) :
  all_chars (fun c => negb (is_space c)) s = true -> strip s = s.
Proof. intros H. unfold strip. rewrite (lstrip_fixed _ H). apply rstrip_fixed, H. Qed.

Lemma rstrip_end (a : string) (c : ascii) :
  is_space c = false -> rstrip (a ++ String c EmptyString)%string = (a ++ String c EmptyString)%string.
Proof.
  intros Hc. induction a as [|x a IH]; simpl; [rewrite Hc; reflexivity|].
  rewrite IH. destruct a; reflexivity.
Qed.

Lemma drop_last_end (a : string) (c : ascii) :
  drop_last (a ++ String c EmptyString)%string = a.
Proof.
  induction a as [|x a IH]; simpl; [reflexivity|]. rewrite IH.
  destruct a; reflexivity.
Qed.

(** A value between two quote characters, with blanks around: stripping
    and unwrapping gives the value back. *)
Lemma unwrap_quoted (ws1 ws2 v : string) (q : ascii) :
  all_chars is_space ws1 = true -> all_chars is_space ws2 = true ->
  is_space q = false ->
  let s := strip (ws1 ++ String q (v ++ String q EmptyString) ++ ws2)%string in
  s = String q (v ++ String q EmptyString)%string /\ unwrap s = v.
Proof.
  intros H1 H2 Hq s. subst s. rewrite strip_blanks by assumption.
  assert (strip (String q (v ++ String q "")) = String q (v ++ String q "")) as ->.
  { unfold strip. simpl. rewrite Hq.
    change (String q (v ++ String q "")%string) with (String q v ++ String q "")%string.
    apply rstrip_end, Hq. }
  split; [reflexivity | apply drop_last_end].
Qed.

(* --------------------------------------------------------------------- *)
(* The load mode                                                         *)
(* --------------------------------------------------------------------- *)

Lemma setenv_get (name value : string) : setenv name value name = Some value.
Proof. unfold setenv. rewrite String.eqb_refl. reflexivity. Qed.



Lemma lower_length (s : string) : String.length (lower s) = String.length s.
Proof. unfold lower. induction s as [|c s IH]; simpl; [reflexivity | rewrite IH; reflexivity]. Qed.

Lemma lower_strip (s : string) : lower (strip s) = strip (lower s).
Proof.
  unfold strip, lower.
  assert (forall y, map_string lower_char (lstrip y)
                    = lstrip (map_string lower_char y)) as Hl.
  { induction y as [|c y IH]; simpl; [reflexivity|].
    rewrite is_space_lower_char. destruct (is_space c); [exact IH | reflexivity]. }
  assert (forall y, map_string lower_char (rstrip y)
                    = rstrip (map_string lower_char y)) as Hr.
  { induction y as [|c y IH]; simpl; [reflexivity|].
    rewrite <- IH, is_space_lower_char.
    destruct (rstrip y); simpl; [destruct (is_space c)|]; reflexivity. }
  rewrite Hr, Hl. reflexivity.
Qed.

(** X19: lines 740-741.  The load mode does not depend on the case of
    the letters of the variable's value nor on blanks around it: two
    values that are equal up to case, one of them with blanks around,
    give the same load mode. *)
Theorem load_mode_ignores_case_and_blanks :
  forall (cls : string) (ws1 ws2 s1 s2 : string),
    all_chars is_space ws1 = true ->
    all_chars is_space ws2 = true ->
    lower s1 = lower s2 ->
    let name := env_name cls "_LOAD_MODE" in
    _get_kql_magic_load_mode cls (setenv name (ws1 ++ s1 ++ ws2)%string)
    = _get_kql_magic_load_mode cls (setenv name s2).
Proof.
  intros cls ws1 ws2 s1 s2 H1 H2 Hcase name. subst name.
  unfold _get_kql_magic_load_mode. rewrite !setenv_get.
  assert (lower (strip (ws1 ++ s1 ++ ws2)) = lower (strip s2)) as Hn.
  { rewrite !lower_strip. unfold lower at 1. rewrite !map_string_app.
    fold (lower ws1) (lower s1) (lower ws2). rewrite Hcase.
    apply strip_blanks; rewrite lower_spaces; assumption. }
  destruct (str_empty s2) eqn:Es.
  - apply String.eqb_eq in Es as ->.
    assert (s1 = EmptyString) as ->.
    { apply (f_equal String.length) in Hcase. rewrite !lower_length in Hcase.
      destruct s1; [reflexivity | discriminate]. }
    destruct (str_empty (ws1 ++ "" ++ ws2)) eqn:E1; simpl.
    + apply String.eqb_eq in E1. rewrite E1. reflexivity.
    + rewrite Hn. reflexivity.
  - assert (str_empty (ws1 ++ s1 ++ ws2) = false) as ->.
    { destruct ws1; [|reflexivity]. destruct s1; [|reflexivity].
      apply (f_equal String.length) in Hcase. rewrite !lower_length in Hcase.
      destruct s2; discriminate. }
    simpl. rewrite Hn. reflexivity.
Qed.

Lemma load_mode_ignores_case_and_blanks_witness :
  _get_kql_magic_load_mode "Kqlmagic" (setenv "KQLMAGIC_LOAD_MODE" "  SiLenT ")
  = _get_kql_magic_load_mode "Kqlmagic" (setenv "KQLMAGIC_LOAD_MODE" "silent").
Proof.
  exact (load_mode_ignores_case_and_blanks "Kqlmagic" "  " " " "SiLenT" "silent"
           eq_refl eq_refl eq_refl).
Defined.

Lemma load_mode_fixed (v : string) :
  all_chars (fun c => load_mode_char c && negb (is_space c)) v = true ->
  remove_char "-" (remove_char "_" (lower (strip v))) = v.
Proof.
  intros H. rewrite all_chars_and in H. apply andb_true_iff in H as [Hm Hs].
  unfold load_mode_char in Hm. rewrite !all_chars_and, !andb_true_iff in Hm.
  destruct Hm as [[Hu H_] Hh].
  rewrite (strip_fixed _ Hs), (lower_fixed _ Hu), (remove_char_fixed _ _ H_).
  apply remove_char_fixed, Hh.
Qed.

(** X20: lines 742-743.  For a value [t] already in normal form and
    without blanks: between two quote characters it is read as [t]; after
    an opening quote with no closing one it loses its last character,
    since line 743 drops the last character whatever it is. *)
Theorem load_mode_unwraps_quotes :
  forall (cls : string) (t : string) (q : ascii),
    all_chars (fun c => load_mode_char c && negb (is_space c)) t = true ->
    q = squote \/ q = dquote ->
    let mode := fun v => _get_kql_magic_load_mode cls (setenv (env_name cls "_LOAD_MODE") v) in
    mode (String q (t ++ String q EmptyString))%string = Some t
    /\ mode (String q t) = Some (drop_last t).
Proof.
  intros cls t q Ht Hq mode. subst mode. unfold _get_kql_magic_load_mode.
  rewrite !setenv_get.
  assert ((load_mode_char q && negb (is_space q)) = true /\ quoted (String q t) = true
          /\ forall x, quoted (String q x) = true) as (Hok & _ & Hquoted)
    by (destruct Hq as [-> | ->]; repeat split; reflexivity).
  assert (all_chars (fun c => negb (is_space c)) t = true) as Hs.
  { revert Ht. apply all_chars_weaken. intros c Hc.
    apply andb_true_iff in Hc as [_ Hc]. exact Hc. }
  change (str_empty (String q (t ++ String q ""))) with false.
  change (str_empty (String q t)) with false. cbv iota. simpl negb. cbv iota. split.
  - rewrite load_mode_fixed.
    + rewrite Hquoted. simpl. rewrite drop_last_end, (strip_fixed _ Hs). reflexivity.
    + simpl. rewrite Hok, all_chars_app, Ht. simpl. rewrite Hok. reflexivity.
  - rewrite load_mode_fixed.
    + rewrite Hquoted. simpl. rewrite strip_fixed; [reflexivity|].
      apply all_chars_drop_last, Hs.
    + simpl. rewrite Hok, Ht. reflexivity.
Qed.

Lemma load_mode_unwraps_quotes_witness :
  _get_kql_magic_load_mode "Kqlmagic" (setenv "KQLMAGIC_LOAD_MODE" "'silent'") = Some "silent"
  /\ _get_kql_magic_load_mode "Kqlmagic" (setenv "KQLMAGIC_LOAD_MODE" "'silent")
     = Some "silen".
Proof.
  exact (load_mode_unwraps_quotes "Kqlmagic" "silent" squote eq_refl (or_introl eq_refl)).
Defined.

(* --------------------------------------------------------------------- *)
(* The default connection and the default configuration                  *)
(* --------------------------------------------------------------------- *)

(** X21: lines 747-761.  A connection string given between two quote
    characters, with blanks around, reaches the Connection constructor
    once, as the text between the quotes; when the constructor raises an
    Exception, the message is printed and nothing is raised; what it
    raises that is not an Exception leaves the function, nothing
    printed. *)
Theorem default_connection_unwraps_quotes :
  forall (cls : string) (Connection : string -> option exn) (ws1 ws2 v : string) (q : ascii),
    all_chars is_space ws1 = true ->
    all_chars is_space ws2 = true ->
    q = squote \/ q = dquote ->
    _set_default_connections cls
      (setenv (env_name cls "_CONNECTION_STR")
         (ws1 ++ String q (v ++ String q EmptyString) ++ ws2)%string)
      Connection
    = match Connection v with
      | Some err =>
          if is_exception err then (None, [v], [exn_msg err]) else (Some err, [v], [])
      | None => (None, [v], [])
      end.
Proof.
  intros cls Connection ws1 ws2 v q H1 H2 Hq. unfold _set_default_connections.
  rewrite setenv_get.
  assert (is_space q = false /\ forall x, quoted (String q x) = true) as [Hsp Hquoted]
    by (destruct Hq as [-> | ->]; split; reflexivity).
  assert (str_empty (ws1 ++ String q (v ++ String q "") ++ ws2) = false) as ->
    by (destruct ws1; reflexivity).
  destruct (unwrap_quoted ws1 ws2 v q H1 H2 Hsp) as [Hs Hu]. cbv zeta in Hs, Hu.
  simpl negb. cbv iota. cbv zeta. rewrite Hs in *. rewrite Hquoted, Hu.
  reflexivity.
Qed.

Lemma default_connection_unwraps_quotes_witness :
  _set_default_connections "Kqlmagic"
    (setenv "KQLMAGIC_CONNECTION_STR" " 'kusto://cluster(help).database(Samples)' ")
    (fun _ => Some (mkExn ConnectionError "no route to host"))
  = (None, ["kusto://cluster(help).database(Samples)"], ["no route to host"]).
Proof.
  exact (default_connection_unwraps_quotes "Kqlmagic"
           (fun _ => Some (mkExn ConnectionError "no route to host"))
           " " " " "kusto://cluster(help).database(Samples)" squote
           eq_refl eq_refl (or_introl eq_refl)).
Defined.

Lemma run_config_accepts (ip : list string -> string -> option exn)
    (lines issued : list string) :
  (forall issued line, ip issued line = None) ->
  run_config ip lines issued = (None, issued ++ lines).
Proof.
  intros H. revert issued. induction lines as [|line rest IH]; intros issued; simpl.
  - rewrite app_nil_r. reflexivity.
  - rewrite H, IH, <- app_assoc. reflexivity.
Qed.

Lemma split_on_no_sep (sep : ascii) (r : string) :
  all_chars (fun c => negb (Ascii.eqb c sep)) r = true -> split_on sep r = [r].
Proof.
  induction r as [|c r IH]; simpl; [reflexivity|].
  rewrite andb_true_iff, negb_true_iff. intros [-> Hr]. rewrite (IH Hr). reflexivity.
Qed.

Lemma split_on_app (sep : ascii) (r rest : string) :
  all_chars (fun c => negb (Ascii.eqb c sep)) r = true ->
  split_on sep (r ++ String sep rest)%string = r :: split_on sep rest.
Proof.
  induction r as [|c r IH]; simpl.
  - rewrite Ascii.eqb_refl. reflexivity.
  - rewrite andb_true_iff, negb_true_iff. intros [-> Hr]. rewrite (IH Hr). reflexivity.
Qed.

(** Joining with the separator and splitting on it is a round trip. *)
Lemma split_on_concat (sep : ascii) (raws : list string) :
  raws <> [] ->
  Forall (fun r => all_chars (fun c => negb (Ascii.eqb c sep)) r = true) raws ->
  split_on sep (String.concat (String sep EmptyString) raws) = raws.
Proof.
  induction raws as [|r rest IH]; [congruence|]. intros _ H.
  apply Forall_cons in H as [Hr Hrest]. destruct rest as [|r' rest].
  - simpl. apply split_on_no_sep, Hr.
  - change (String.concat (String sep "") (r :: r' :: rest))
      with (r ++ String sep (String.concat (String sep "") (r' :: rest)))%string.
    rewrite (split_on_app _ _ _ Hr), IH; [reflexivity | discriminate | exact Hrest].
Qed.

Lemma concat_empty (sep : ascii) (raws : list string) :
  String.concat (String sep EmptyString) raws = EmptyString ->
  List.filter (fun r => negb (str_empty r)) raws = [].
Proof.
  destruct raws as [|r [|r' rest]]; simpl; [reflexivity | intros ->; reflexivity |].
  destruct r; discriminate.
Qed.

(** X22: lines 719-735.  A CONFIGURATION value that is the pieces [raws]
    joined by semicolons (no blank around the whole value, no quote at
    its start), on a shell that accepts every setting: one config line
    "<class>.<piece stripped>" is issued for every non-empty piece, in
    order, followed by the notebook_app line, if any. *)
Theorem configuration_pairs_are_applied :
  forall (cls : string) (getenv : string -> option string)
         (ip : list string -> string -> option exn) (load_mode : option string)
         (raws : list string),
    let v := String.concat ";" raws in
    getenv (env_name cls "_CONFIGURATION") = Some v ->
    strip v = v ->
    quoted v = false ->
    Forall (fun r => all_chars (fun c => negb (Ascii.eqb c ";")) r = true) raws ->
    (forall issued line, ip issued line = None) ->
    _override_default_configuration cls getenv ip load_mode
    = (None,
       map (fun r => cls ++ "." ++ strip r)%string
         (List.filter (fun r => negb (str_empty r)) raws)
       ++ notebook_app_lines cls getenv).
Proof.
  intros cls getenv ip load_mode raws v Hv Hs Hq Hraws Hip.
  unfold _override_default_configuration. rewrite run_config_accepts by exact Hip.
  simpl. f_equal. f_equal. unfold configuration_lines. rewrite Hv.
  destruct (str_empty v) eqn:Ev; simpl.
  - apply String.eqb_eq in Ev. rewrite (concat_empty _ _ Ev). reflexivity.
  - rewrite Hs, Hq. subst v. rewrite split_on_concat; [reflexivity| |exact Hraws].
    intros ->. discriminate Ev.
Qed.

Lemma configuration_pairs_are_applied_witness :
  _override_default_configuration "Kqlmagic"
    (setenv "KQLMAGIC_CONFIGURATION" "auto_limit = 1000; auto_dataframe = True")
    (fun _ _ => None) None
  = (None, ["Kqlmagic.auto_limit = 1000"; "Kqlmagic.auto_dataframe = True"]).
Proof.
  refine (configuration_pairs_are_applied "Kqlmagic"
            (setenv "KQLMAGIC_CONFIGURATION" "auto_limit = 1000; auto_dataframe = True")
            (fun _ _ => None) None ["auto_limit = 1000"; " auto_dataframe = True"]
            eq_refl eq_refl eq_refl _ _).
  - repeat constructor.
  - reflexivity.
Defined.
